(** * Font style feature: option normalisation and conversion rules

    A shallow embedding of [fontstyle/utils.js] (option normalisation), of
    [fontstyle/fontstyleediting.js] (conversion rule set) and of
    [fontstyle/fontstyleui.js] (the dropdown), with the properties of the
    feature's specification stated over it.

    JavaScript values are modelled as far as the three modules use them:
    primitives, references to plain data objects held in a store, the
    conversions [ToString], [ToBoolean] and [typeof], and the global
    functions [parseFloat] and [parseInt]. *)

From Stdlib Require Import ZArith NArith Ascii DecimalString Lia.
From stdpp Require Import base strings list gmap.

Local Open Scope Z_scope.

(** ** JavaScript numbers and strings *)

Module JS.

(** A finite number is kept as its decimal expansion
    [(-1)^neg * m * 10^e]; this is the form [Number::toString] prints and
    [parseFloat] reads.  The embedding is exact for numerals of at most 15
    significant digits inside the range of a double, where reading a numeral
    and printing it back yields the same digits; rounding to 53 bits,
    overflow to Infinity and underflow to zero are outside the model.
    Strings are sequences of 8-bit characters; only ASCII white space is
    recognised as white space. *)
Inductive Number :=
| NaN
| Infinity (neg : bool)
| Finite (neg : bool) (m : N) (e : Z).

Definition isNaN (x : Number) : bool :=
  match x with NaN => true | _ => false end.

(** Removes the factors of ten from a mantissa. *)
Fixpoint strip10 (fuel : nat) (m : N) (e : Z) : N * Z :=
  match fuel with
  | O => (m, e)
  | S fuel' =>
      if (m mod 10 =? 0)%N then strip10 fuel' (m / 10)%N (e + 1) else (m, e)
  end.

Definition canonical (m : N) (e : Z) : N * Z :=
  if (m =? 0)%N then (0%N, 0) else strip10 (N.size_nat m) m e.

Definition mkFinite (neg : bool) (m : N) (e : Z) : Number :=
  let '(m', e') := canonical m e in Finite neg m' e'.

Definition ofZ (z : Z) : Number := mkFinite (z <? 0) (Z.abs_N z) 0.

Definition digits (m : N) : string := NilZero.string_of_uint (N.to_uint m).

Fixpoint zeros (n : nat) : string :=
  match n with O => "" | S n' => String "0" (zeros n') end.

(** Number::toString(x) for radix 10. *)
Definition Number_toString (x : Number) : string :=
  match x with
  | NaN => "NaN"
  | Infinity neg => if neg then "-Infinity" else "Infinity"
  | Finite neg m0 e0 =>
      let '(m, e) := canonical m0 e0 in
      if (m =? 0)%N then "0" else
      let s := digits m in
      let k := Z.of_nat (String.length s) in
      let n := k + e in
      let body :=
        if (k <=? n) && (n <=? 21) then s +:+ zeros (Z.to_nat (n - k))
        else if (0 <? n) && (n <=? 21) then
          String.substring 0 (Z.to_nat n) s +:+ "." +:+
          String.substring (Z.to_nat n) (Z.to_nat (k - n)) s
        else if (-6 <? n) && (n <=? 0) then
          "0." +:+ zeros (Z.to_nat (- n)) +:+ s
        else
          let e' := n - 1 in
          let sgn := if e' <? 0 then "-" else "+" in
          let ex := digits (Z.abs_N e') in
          if k =? 1 then s +:+ "e" +:+ sgn +:+ ex
          else String.substring 0 1 s +:+ "." +:+
               String.substring 1 (Z.to_nat (k - 1)) s +:+ "e" +:+ sgn +:+ ex
      in if neg then "-" +:+ body else body
  end.

Definition isDigit (c : ascii) : bool :=
  let n := nat_of_ascii c in (48 <=? n)%nat && (n <=? 57)%nat.

Definition digitValue (c : ascii) : N := N.of_nat (nat_of_ascii c - 48).

Definition isWhiteSpace (c : ascii) : bool :=
  let n := nat_of_ascii c in
  ((9 <=? n)%nat && (n <=? 13)%nat) || (n =? 32)%nat.

Fixpoint trimStart (s : string) : string :=
  match s with
  | String c r => if isWhiteSpace c then trimStart r else s
  | EmptyString => s
  end.

(** Reads the longest run of decimal digits: the accumulated value, the
    number of digits read and the rest of the input. *)
Fixpoint scanDigits (s : string) (acc : N) (cnt : nat) : N * nat * string :=
  match s with
  | String c r =>
      if isDigit c then scanDigits r (acc * 10 + digitValue c)%N (S cnt)
      else (acc, cnt, s)
  | EmptyString => (acc, cnt, s)
  end.

Definition scanSign (s : string) : bool * string :=
  match s with
  | String c r =>
      if Ascii.eqb c "-" then (true, r)
      else if Ascii.eqb c "+" then (false, r)
      else (false, s)
  | EmptyString => (false, s)
  end.

(** The exponent part [e[+-]digits], when one is there; 0 otherwise. *)
Definition scanExponent (s : string) : Z :=
  match s with
  | String c r =>
      if (Ascii.eqb c "e" || Ascii.eqb c "E")%bool then
        let '(neg, r1) := scanSign r in
        let '(v, cnt, _) := scanDigits r1 0%N 0%nat in
        if (cnt =? 0)%nat then 0
        else if neg then - Z.of_N v else Z.of_N v
      else 0
  | EmptyString => 0
  end.

Fixpoint startsWith (p s : string) : bool :=
  match p, s with
  | EmptyString, _ => true
  | String a p', String b s' => Ascii.eqb b a && startsWith p' s'
  | String _ _, EmptyString => false
  end.

(** parseFloat(string): the longest prefix, after leading white space, that
    is a StrDecimalLiteral; NaN when there is none. *)
Definition parseFloat (input : string) : Number :=
  let s := trimStart input in
  let '(neg, s1) := scanSign s in
  if startsWith "Infinity" s1 then Infinity neg else
  let '(ip, icnt, s2) := scanDigits s1 0%N 0%nat in
  let '(m, fcnt, s3) :=
    match s2 with
    | String c r =>
        if Ascii.eqb c "." then scanDigits r ip 0%nat else (ip, 0%nat, s2)
    | EmptyString => (ip, 0%nat, s2)
    end in
  if (icnt + fcnt =? 0)%nat then NaN
  else mkFinite neg m (scanExponent s3 - Z.of_nat fcnt).

(** parseInt(string, 10).  The result is an integer or NaN ([None]); the
    two zeros are not told apart. *)
Definition parseInt (input : string) : option Z :=
  let s := trimStart input in
  let '(neg, s1) := scanSign s in
  let '(v, cnt, _) := scanDigits s1 0%N 0%nat in
  if (cnt =? 0)%nat then None
  else Some (if neg then - Z.of_N v else Z.of_N v).

End JS.

(** ** Values, the object store and the evaluation monad *)

(** A value of the configuration: a primitive or a reference to a plain data
    object of the store (own data properties, no accessors, prototype
    [Object.prototype]). *)
Inductive Value :=
| VUndefined
| VNull
| VBool (b : bool)
| VNumber (n : JS.Number)
| VString (s : string)
| VRef (l : nat).

Abbreviation Obj := (gmap string Value).
Abbreviation Heap := (list (gmap string Value)).

Definition num (z : Z) : Value := VNumber (JS.ofZ z).

Definition ToBoolean (v : Value) : bool :=
  match v with
  | VUndefined | VNull => false
  | VBool b => b
  | VNumber JS.NaN => false
  | VNumber (JS.Infinity _) => true
  | VNumber (JS.Finite _ m _) => negb (m =? 0)%N
  | VString s => negb (String.eqb s "")
  | VRef _ => true
  end.

Definition typeof (v : Value) : string :=
  match v with
  | VUndefined => "undefined"
  | VNull | VRef _ => "object"
  | VBool _ => "boolean"
  | VNumber _ => "number"
  | VString _ => "string"
  end.

(** String(v); also the property key [v] denotes in [o[v]]. *)
Definition ToString (v : Value) : string :=
  match v with
  | VUndefined => "undefined"
  | VNull => "null"
  | VBool b => if b then "true" else "false"
  | VNumber n => JS.Number_toString n
  | VString s => s
  | VRef _ => "[object Object]"
  end.

(** [v === 's'] for a string literal ['s']. *)
Definition strictEqualsString (v : Value) (s : string) : bool :=
  match v with
  | VString a => String.eqb a s
  | _ => false
  end.

(** The payload handed to a [CKEditorError]. *)
Inductive ErrorData :=
| DataValue (v : Value)
| DataPresets (presets : list Value).

(** What a call can throw.  [InvalidReference] is a reference that points
    outside the store; no state of the program has one. *)
Inductive Error :=
| CKEditorError (name : string) (data : ErrorData)
| TypeError
| InvalidReference.

Inductive Outcome (A : Type) :=
| Ok (a : A)
| Throw (e : Error).
Arguments Ok {A} a.
Arguments Throw {A} e.

(** A computation reads and updates the store and returns or throws. *)
Definition M (A : Type) : Type := Heap → Outcome A * Heap.

Definition ret {A} (a : A) : M A := λ h, (Ok a, h).

Definition throw {A} (e : Error) : M A := λ h, (Throw e, h).

Definition bind {A B} (m : M A) (k : A → M B) : M B :=
  λ h, match m h with
       | (Ok a, h') => k a h'
       | (Throw e, h') => (Throw e, h')
       end.

Notation "'let*' x ':=' m 'in' k" := (bind m (λ x, k))
  (at level 10, x name, m at level 100, k at level 200).

Fixpoint mapM {A B} (f : A → M B) (xs : list A) : M (list B) :=
  match xs with
  | [] => ret []
  | x :: xs' =>
      let* y := f x in
      let* ys := mapM f xs' in
      ret (y :: ys)
  end.

Fixpoint filterM {A} (f : A → M bool) (xs : list A) : M (list A) :=
  match xs with
  | [] => ret []
  | x :: xs' =>
      let* keep := f x in
      let* ys := filterM f xs' in
      ret (if keep : bool then x :: ys else ys)
  end.

(** [new Object] with the given own properties. *)
Definition alloc (o : Obj) : M Value :=
  λ h, (Ok (VRef (length h)), h ++ [o]).

(** [v[k]].  The primitive wrappers have no property of the names read in
    this development ([title], [model], [view], [priority]). *)
Definition getProp (v : Value) (k : string) : M Value :=
  λ h, match v with
       | VUndefined | VNull => (Throw TypeError, h)
       | VRef l =>
           match h !! l with
           | Some o => (Ok (default VUndefined (o !! k)), h)
           | None => (Throw InvalidReference, h)
           end
       | _ => (Ok VUndefined, h)
       end.

(** [v[k] = x] in strict mode (the sources are ES modules): assigning a
    property of a primitive throws. *)
Definition setProp (v : Value) (k : string) (x : Value) : M unit :=
  λ h, match v with
       | VRef l =>
           match h !! l with
           | Some o => (Ok (), <[l := <[k := x]> o]> h)
           | None => (Throw InvalidReference, h)
           end
       | _ => (Throw TypeError, h)
       end.

(** ** fontstyle/utils.js *)

Module Utils.

(** The objects a getter of [namedPresets] builds:
    [{ name: 'span', classes, priority: 7 }] and [{ title, model, view }]. *)
Definition presetView (classes : string) : Obj :=
  {[ "name" := VString "span";
     "classes" := VString classes;
     "priority" := num 7 ]}.

Definition presetOption (title model : string) (view : Value) : Obj :=
  {[ "title" := VString title; "model" := VString model; "view" := view ]}.

(** The body shared by the four getters of [namedPresets]: every read
    builds a new option object and a new view object. *)
Definition presetGetter (title model classes : string) : M Value :=
  let* view := alloc (presetView classes) in
  alloc (presetOption title model view).

(** The properties [namedPresets] inherits from [Object.prototype]. *)
Definition objectPrototypeKeys : list string :=
  [ "constructor"; "__defineGetter__"; "__defineSetter__"; "hasOwnProperty";
    "__lookupGetter__"; "__lookupSetter__"; "isPrototypeOf";
    "propertyIsEnumerable"; "toString"; "valueOf"; "__proto__";
    "toLocaleString" ].

(** The result of reading [namedPresets[key]]: a value of the
    configuration's kind, or a member of [Object.prototype] (a function, or
    the prototype itself), which is truthy and has no [view]. *)
Inductive Looked :=
| Own (v : Value)
| Inherited (key : string).

Definition namedPresets (key : string) : M Looked :=
  if String.eqb key "tiny" then
    let* o := presetGetter "Tiny" "tiny" "text-tiny" in ret (Own o)
  else if String.eqb key "small" then
    let* o := presetGetter "Small" "small" "text-small" in ret (Own o)
  else if String.eqb key "big" then
    let* o := presetGetter "Big" "big" "text-big" in ret (Own o)
  else if String.eqb key "huge" then
    let* o := presetGetter "Huge" "huge" "text-huge" in ret (Own o)
  else if bool_decide (key ∈ objectPrototypeKeys) then ret (Inherited key)
  else ret (Own VUndefined).

Definition lookedTruthy (r : Looked) : bool :=
  match r with Own v => ToBoolean v | Inherited _ => true end.

Definition attachPriority (definition : Value) : M Value :=
  let* view := getProp definition "view" in
  let* priority := getProp view "priority" in
  let* _ := if negb (ToBoolean priority) then setProp view "priority" (num 7)
            else ret () in
  ret definition.

(** [attachPriority] on a member of [Object.prototype]: its [view] is
    undefined, so reading [view.priority] throws. *)
Definition attachPriorityInherited (key : string) : M Value :=
  throw TypeError.

Definition findPreset (definition : Value) : M Looked :=
  let* first := namedPresets (ToString definition) in
  if lookedTruthy first then ret first
  else
    let* model := getProp definition "model" in
    namedPresets (ToString model).

Definition isFullItemDefinition (definition : Value) : M Value :=
  if String.eqb (typeof definition) "object" then
    let* title := getProp definition "title" in
    if negb (ToBoolean title) then ret title else
    let* model := getProp definition "model" in
    if negb (ToBoolean model) then ret model else
    getProp definition "view"
  else ret (VBool false).

Definition isNumericalDefinition (definition : Value) : M bool :=
  let* numberValue :=
    if String.eqb (typeof definition) "object" then
      let* model := getProp definition "model" in
      if negb (ToBoolean model) then
        throw (CKEditorError "font-style-invalid-definition"
                             (DataValue definition))
      else ret (JS.parseFloat (ToString model))
    else ret (JS.parseFloat (ToString definition)) in
  ret (JS.isNaN numberValue).

(** The short definition extended:
    [{ title: String( definition ), model: parseFloat( definition ) + 'px' }]. *)
Definition shortDefinition (definition : Value) : Obj :=
  {[ "title" := VString (ToString definition);
     "model" := VString
       (JS.Number_toString (JS.parseFloat (ToString definition)) +:+ "px") ]}.

Definition pixelStyles (model : Value) : Obj := {[ "font-style" := model ]}.

Definition pixelView (styles : Value) : Obj :=
  {[ "name" := VString "span"; "styles" := styles ]}.

Definition generatePixelPreset (definition : Value) : M Value :=
  let* definition :=
    if (String.eqb (typeof definition) "number"
        || String.eqb (typeof definition) "string")%bool then
      alloc (shortDefinition definition)
    else ret definition in
  let* model := getProp definition "model" in
  let* styles := alloc (pixelStyles model) in
  let* view := alloc (pixelView styles) in
  let* _ := setProp definition "view" view in
  attachPriority definition.

(** The option that removes the attribute. *)
Definition defaultOption : Obj :=
  {[ "model" := VUndefined; "title" := VString "Default" ]}.

Definition getOptionDefinition (option : Value) : M Value :=
  let* full := isFullItemDefinition option in
  if ToBoolean full then attachPriority option else
  let* preset := findPreset option in
  if lookedTruthy preset then
    match preset with
    | Own p => attachPriority p
    | Inherited key => attachPriorityInherited key
    end
  else
  if strictEqualsString option "default" then alloc defaultOption
  else
    let* faulty := isNumericalDefinition option in
    if faulty then ret VUndefined
    else generatePixelPreset option.

Definition normalizeOptions (configuredOptions : list Value)
  : M (list Value) :=
  let* options := mapM getOptionDefinition configuredOptions in
  ret (List.filter ToBoolean options).

End Utils.


(** ** The view side: elements, matchers and converters *)

(** A regular expression literal, by its source text and its [test]. *)
Record RegExp := { source : string; test : string → bool }.

(** A view element as the converters read it. *)
Record ViewElement := {
  ve_name : string;
  ve_attributes : gmap string string;
  ve_styles : gmap string string
}.

Definition getAttribute (e : ViewElement) (key : string) : option string :=
  ve_attributes e !! key.

Definition getStyle (e : ViewElement) (property : string) : option string :=
  ve_styles e !! property.

(** The [view] of an upcast converter: [{ name, attributes, styles }]. *)
Record MatcherPattern := {
  mp_name : string;
  mp_attributes : list (string * RegExp);
  mp_styles : list (string * RegExp)
}.

(** The result of [writer.createAttributeElement( name, attributes,
    { priority } )]. *)
Record AttributeElement := {
  ae_name : string;
  ae_attributes : list (string * string);
  ae_priority : Z
}.

(** The two-way definition handed to [conversion.attributeToElement]. *)
Record ConverterDefinition := {
  model_key : string;
  model_values : list Value;
  view : list (string * Value)
}.

(** One registration with [editor.conversion]. *)
Inductive Converter :=
| AttributeToElement (definition : ConverterDefinition)
| DowncastAttributeToElement
    (model : string) (view : Value → option AttributeElement)
| UpcastElementToAttribute
    (view : MatcherPattern) (key : string)
    (value : ViewElement → Outcome Value).

Inductive SchemaCall :=
| Extend (item : string) (allowAttributes : string)
| SetAttributeProperties (attribute : string)
    (isFormatting copyOnEnter : bool).

(** The parts of the editor the editing feature reads and writes. *)
Record Editor := {
  config_options : list Value;
  config_supportAllValues : bool;
  schema : list SchemaCall;
  conversion : list Converter;
  commands : list (string * string)
}.

(** Modelled from the spec: the element matcher of the host's conversion
    engine, which is outside the repository.  An element fits a pattern
    when the name is the pattern's and every attribute and style the pattern
    names is present with a value its regular expression accepts. *)
Definition matches (p : MatcherPattern) (e : ViewElement) : bool :=
  String.eqb (mp_name p) (ve_name e)
  && forallb (λ kr, match getAttribute e kr.1 with
                    | Some v => test kr.2 v
                    | None => false
                    end) (mp_attributes p)
  && forallb (λ kr, match getStyle e kr.1 with
                    | Some v => test kr.2 v
                    | None => false
                    end) (mp_styles p).

(** Modelled from the spec: the host applying one registered converter to
    an element on upcast; the attribute key and the value read, when the
    element fits the converter's pattern. *)
Definition upcast (c : Converter) (e : ViewElement)
  : option (string * Outcome Value) :=
  match c with
  | UpcastElementToAttribute p key value =>
      if matches p e then Some (key, value e) else None
  | _ => None
  end.

(** Modelled from the spec: the host applying one registered converter to
    a model attribute value on downcast. *)
Definition downcast (c : Converter) (attributeValue : Value)
  : option AttributeElement :=
  match c with
  | DowncastAttributeToElement _ view => view attributeValue
  | _ => None
  end.

(** ** fontstyle/fontstyleediting.js *)

Module Editing.

(** Modelled from the spec: the constant [FONT_STYLE] of [src/utils.js],
    a file that is not among the sources; it is the attribute, configuration
    and command name, ['fontStyle']. *)
Definition FONT_STYLE : string := "fontStyle".

(** Modelled from the spec: [buildDefinition] of [src/utils.js], a file that
    is not among the sources.  The strict rule set maps each option's model
    to its view descriptor; the set of model values is what the permissive
    check reads. *)
Definition buildDefinition (modelAttributeKey : string)
    (options : list Value) : M ConverterDefinition :=
  let* values := mapM (λ o, getProp o "model") options in
  let* views := mapM (λ o, getProp o "view") options in
  ret {| model_key := modelAttributeKey;
         model_values := values;
         view := zip (ToString <$> values) views |}.

(** Mapping of [<font style="..">] styling to CSS keywords. *)
Definition styleFontStyle : list string :=
  [ "x-small"; "x-small"; "small"; "medium"; "large"; "x-large";
    "xx-large"; "xxx-large" ].

(** [/.*/]: not anchored, so the empty match at the start of any string
    makes [test] succeed. *)
Definition anyValue : RegExp := {| source := ".*"; test := λ _, true |}.

(** [/^[+-]?\d{1,3}$/]. *)
Definition legacyLevelTest (s : string) : bool :=
  let r := (JS.scanSign s).2 in
  let n := String.length r in
  (1 <=? n)%nat && (n <=? 3)%nat
  && forallb JS.isDigit (String.list_ascii_of_string r).

Definition legacyLevel : RegExp :=
  {| source := "^[+-]?\d{1,3}$"; test := legacyLevelTest |}.

Definition add_converter (c : Converter) (editor : Editor) : Editor :=
  {| config_options := config_options editor;
     config_supportAllValues := config_supportAllValues editor;
     schema := schema editor;
     conversion := conversion editor ++ [c];
     commands := commands editor |}.

Definition add_schema (c : SchemaCall) (editor : Editor) : Editor :=
  {| config_options := config_options editor;
     config_supportAllValues := config_supportAllValues editor;
     schema := schema editor ++ [c];
     conversion := conversion editor;
     commands := commands editor |}.

Definition add_command (name attributeKey : string) (editor : Editor)
  : Editor :=
  {| config_options := config_options editor;
     config_supportAllValues := config_supportAllValues editor;
     schema := schema editor;
     conversion := conversion editor;
     commands := commands editor ++ [(name, attributeKey)] |}.

(** The [view] callback of the permissive downcast converter. *)
Definition anyValueDowncastView (attributeValue : Value)
  : option AttributeElement :=
  if negb (ToBoolean attributeValue) then None
  else Some {| ae_name := "span";
               ae_attributes :=
                 [("style", "font-style:" +:+ ToString attributeValue)];
               ae_priority := 7 |}.

(** The [model.value] callback of the permissive upcast converter. *)
Definition anyValueUpcastValue (viewElement : ViewElement) : Outcome Value :=
  Ok (match getStyle viewElement "font-style" with
      | Some v => VString v
      | None => VUndefined
      end).

Definition anyValueUpcastView : MatcherPattern :=
  {| mp_name := "span";
     mp_attributes := [];
     mp_styles := [("font-style", anyValue)] |}.

(** The [model.value] callback of the legacy converter.  The numbers it
    computes with are integers or NaN ([None]). *)
Definition isRelative (value : string) : bool :=
  match value with
  | String c _ => (Ascii.eqb c "-" || Ascii.eqb c "+")%bool
  | EmptyString => false
  end.

Definition legacyValue (viewElement : ViewElement) : Outcome Value :=
  match getAttribute viewElement "style" with
  | None => Throw TypeError
  | Some value =>
      let style := JS.parseInt value in
      let style := if isRelative value then Z.add 3 <$> style else style in
      let maxStyle := Z.of_nat (length styleFontStyle) - 1 in
      let clampedStyle := (λ s, Z.min (Z.max s 0) maxStyle) <$> style in
      Ok (match clampedStyle ≫= λ i, styleFontStyle !! Z.to_nat i with
          | Some keyword => VString keyword
          | None => VUndefined
          end)
  end.

Definition legacyView : MatcherPattern :=
  {| mp_name := "font";
     mp_attributes := [("style", legacyLevel)];
     mp_styles := [] |}.

Definition legacyConverter : Converter :=
  UpcastElementToAttribute legacyView FONT_STYLE legacyValue.

Definition _prepareCompatibilityConverter (editor : Editor) : Editor :=
  add_converter legacyConverter editor.

Section Host.

(** [isLength] and [isPercentage] of the host engine, which is outside the
    repository. *)
Variables isLength isPercentage : string → bool.

Definition isNamedPreset (value : Value) : bool :=
  negb (isLength (ToString value)) && negb (isPercentage (ToString value)).

Definition _prepareAnyValueConverters (definition : ConverterDefinition)
    (editor : Editor) : Outcome Editor :=
  let presets := List.filter isNamedPreset (model_values definition) in
  if negb (length presets =? 0)%nat then
    Throw (CKEditorError "font-style-invalid-use-of-named-presets"
                         (DataPresets presets))
  else
    let editor :=
      add_converter
        (DowncastAttributeToElement FONT_STYLE anyValueDowncastView) editor in
    Ok (add_converter
          (UpcastElementToAttribute anyValueUpcastView FONT_STYLE
                                    anyValueUpcastValue) editor).

Definition init (editor : Editor) : M Editor :=
  let editor := add_schema (Extend "$text" FONT_STYLE) editor in
  let editor :=
    add_schema (SetAttributeProperties FONT_STYLE true true) editor in
  let supportAllValues := config_supportAllValues editor in
  let* normalized := Utils.normalizeOptions (config_options editor) in
  let* options :=
    filterM (λ item, let* model := getProp item "model" in
                     ret (ToBoolean model)) normalized in
  let* definition := buildDefinition FONT_STYLE options in
  let* editor :=
    if supportAllValues then
      match _prepareAnyValueConverters definition editor with
      | Ok editor => ret (_prepareCompatibilityConverter editor)
      | Throw e => throw e
      end
    else ret (add_converter (AttributeToElement definition) editor) in
  ret (add_command FONT_STYLE FONT_STYLE editor).

End Host.

(** A sample of the host's predicates for the worked examples: a length
    is ["0"] or an optionally signed decimal followed by a CSS unit, a
    percentage the same followed by ["%"]. *)
Definition decimalThen (suffixes : list string) (s : string) : bool :=
  let s1 := (JS.scanSign s).2 in
  let s2 := (JS.scanDigits s1 0%N 0%nat).2 in
  let s3 := match s2 with
            | String c r =>
                let '(_, cnt, r') := JS.scanDigits r 0%N 0%nat in
                if (Ascii.eqb c "." && negb (cnt =? 0)%nat)%bool then r'
                else s2
            | EmptyString => s2
            end in
  bool_decide (s3 ∈ suffixes).

Definition sampleIsLength (s : string) : bool :=
  String.eqb s "0"
  || decimalThen [ "px"; "cm"; "mm"; "in"; "pc"; "pt"; "ch"; "em"; "ex";
                   "rem"; "vh"; "vw"; "vmin"; "vmax" ] s.

Definition sampleIsPercentage (s : string) : bool := decimalThen [ "%" ] s.

(** A legacy element [<font style="value">]. *)
Definition fontElement (value : string) : ViewElement :=
  {| ve_name := "font";
     ve_attributes := {[ "style" := value ]};
     ve_styles := ∅ |}.

(** A wrapper element [<span style="font-style:value">]. *)
Definition spanElement (value : string) : ViewElement :=
  {| ve_name := "span";
     ve_attributes := ∅;
     ve_styles := {[ "font-style" := value ]} |}.

(** An editor before [init], with the given configuration. *)
Definition newEditor (options : list Value) (supportAllValues : bool)
  : Editor :=
  {| config_options := options;
     config_supportAllValues := supportAllValues;
     schema := [];
     conversion := [];
     commands := [] |}.

(** The default configuration defined by the constructor. *)
Definition defaultOptions : list Value :=
  [ VString "tiny"; VString "small"; VString "default"; VString "big";
    VString "huge" ].

End Editing.

(** ** Vocabulary of the properties *)

(** [option] gets as far as the numeric-detection step of
    [getOptionDefinition]: it is not a full definition, no preset is found
    for it, and it is not the string ['default']. *)
Definition reachesNumericStep (option : Value) (h : Heap) : Prop :=
  (∃ full, Utils.isFullItemDefinition option h = (Ok full, h)
           ∧ ToBoolean full = false)
  ∧ (∃ preset, Utils.findPreset option h = (Ok preset, h)
               ∧ Utils.lookedTruthy preset = false)
  ∧ strictEqualsString option "default" = false.

(** [option] gets as far as [generatePixelPreset]. *)
Definition reachesPixelStep (option : Value) (h : Heap) : Prop :=
  reachesNumericStep option h
  ∧ Utils.isNumericalDefinition option h = (Ok false, h).

(** The option [o] has a view object and that view has a priority [p]
    that is set (truthy). *)
Definition prioritySet (h : Heap) (o : Value) (p : Value) : Prop :=
  ∃ lv, getProp o "view" h = (Ok (VRef lv), h)
        ∧ getProp (VRef lv) "priority" h = (Ok p, h)
        ∧ ToBoolean p = true.

(** The option [o] is the sentinel that removes the attribute: no view,
    no model, title ['Default']. *)
Definition defaultSentinel (h : Heap) (o : Value) : Prop :=
  getProp o "view" h = (Ok VUndefined, h)
  ∧ getProp o "model" h = (Ok VUndefined, h)
  ∧ getProp o "title" h = (Ok (VString "Default"), h).

(** How normalisation changes the store from [h] to [h']: objects stay,
    keeping every property but [view] and [priority]; a priority is kept or
    becomes 7; a view is kept or replaced by a new view of priority 7; a new
    object has no priority or priority 7. *)
Record grows (h h' : Heap) : Prop := {
  grows_keep : ∀ l o, h !! l = Some o →
    ∃ o', h' !! l = Some o'
      ∧ (∀ k, k ≠ "view" → k ≠ "priority" → o' !! k = o !! k)
      ∧ (o' !! "priority" = o !! "priority"
         ∨ o' !! "priority" = Some (num 7))
      ∧ (o' !! "view" = o !! "view"
         ∨ ∃ lv vo, o' !! "view" = Some (VRef lv)
                    ∧ (length h <= lv)%nat
                    ∧ h' !! lv = Some vo
                    ∧ vo !! "priority" = Some (num 7));
  grows_new : ∀ l o', h' !! l = Some o' → (length h <= l)%nat →
    o' !! "priority" = None ∨ o' !! "priority" = Some (num 7)
}.

(** [o[k]] in the store [h], for an object [o]. *)
Definition propAt (h : Heap) (k : string) (o : Value) : Value :=
  match getProp o k h with
  | (Ok v, _) => v
  | (Throw _, _) => VUndefined
  end.

(** [o.model] in the store [h]. *)
Definition modelAt (h : Heap) (o : Value) : Value := propAt h "model" o.

(** The options [init] keeps, [item => item.model], and the definition it
    has built from them. *)
Definition definedModels (h : Heap) (options : list Value) : list Value :=
  List.filter (λ o, ToBoolean (modelAt h o)) options.

Definition definitionOf (h : Heap) (options : list Value)
  : ConverterDefinition :=
  let values := modelAt h <$> definedModels h options in
  {| model_key := Editing.FONT_STYLE;
     model_values := values;
     view := zip (ToString <$> values)
                 (propAt h "view" <$> definedModels h options) |}.

(** The editor once [init] has extended the schema. *)
Definition schemaEditor (options : list Value) (supportAllValues : bool)
  : Editor :=
  Editing.add_schema
    (SetAttributeProperties Editing.FONT_STYLE true true)
    (Editing.add_schema (Extend "$text" Editing.FONT_STYLE)
       (Editing.newEditor options supportAllValues)).

(** The store after [generatePixelPreset] has given the object [o] at [l]
    its view: two new objects (styles, view), [o.view] pointing at the new
    view, and the view's priority set. *)
Definition pixelHeap (h : Heap) (l : nat) (o : Obj) : Heap :=
  let ls := length h in
  let lv := S (length h) in
  <[lv := <["priority" := num 7]> (Utils.pixelView (VRef ls))]>
    (<[l := <["view" := VRef lv]> o]>
       (h ++ [ Utils.pixelStyles (default VUndefined (o !! "model"));
               Utils.pixelView (VRef ls) ])).

(** A computation that leaves the store as it found it. *)
Definition readOnly {A} (m : M A) : Prop :=
  ∀ h r h', m h = (r, h') → h' = h.

(** What [normalizeOptions] promises of an option it returns. *)
Definition normalizedOption (h : Heap) (o : Value) : Prop :=
  (∃ p, prioritySet h o p) ∨ defaultSentinel h o.

(** A computation that throws no [CKEditorError]. *)
Definition noConfigError {A} (m : M A) : Prop :=
  ∀ h name data h', m h ≠ (Throw (CKEditorError name data), h').

(** Whether an outcome is a return, and the value returned ([d] when it is
    a throw). *)
Definition isOk {A} (o : Outcome A) : bool :=
  match o with Ok _ => true | Throw _ => false end.

Definition valueOf {A} (d : A) (o : Outcome A) : A :=
  match o with Ok a => a | Throw _ => d end.

(** ** Vocabulary of the further properties *)

(** The four getters of [namedPresets]: name, title and class. *)
Definition presetTable : list (string * string * string) :=
  [ ("tiny", "Tiny", "text-tiny"); ("small", "Small", "text-small");
    ("big", "Big", "text-big"); ("huge", "Huge", "text-huge") ].

(** [v] is a full definition in the store [h]: an object with truthy
    [title] and [model] whose [view] is an object. *)
Definition fullDefinition (h : Heap) (v : Value) : Prop :=
  ∃ l o lv vo,
    v = VRef l ∧ h !! l = Some o
    ∧ ToBoolean (default VUndefined (o !! "title")) = true
    ∧ ToBoolean (default VUndefined (o !! "model")) = true
    ∧ o !! "view" = Some (VRef lv) ∧ h !! lv = Some vo.

(** A full definition whose view has a truthy priority. *)
Definition settledDefinition (h : Heap) (v : Value) : Prop :=
  ∃ l o lv vo,
    v = VRef l ∧ h !! l = Some o
    ∧ ToBoolean (default VUndefined (o !! "title")) = true
    ∧ ToBoolean (default VUndefined (o !! "model")) = true
    ∧ o !! "view" = Some (VRef lv) ∧ h !! lv = Some vo
    ∧ ToBoolean (default VUndefined (vo !! "priority")) = true.

(** From [h] to [h'] nothing was allocated and nothing changed but
    priorities that were falsy and are now 7. *)
Definition priorityOnly (h h' : Heap) : Prop :=
  length h' = length h
  ∧ ∀ l o, h !! l = Some o →
      ∃ o', h' !! l = Some o'
        ∧ (∀ k, k ≠ "priority" → o' !! k = o !! k)
        ∧ (o' !! "priority" = o !! "priority"
           ∨ (ToBoolean (default VUndefined (o !! "priority")) = false
              ∧ o' !! "priority" = Some (num 7))).


(** The strings that [getOptionDefinition] recognises before it tries to
    read a number: the preset names, ['default'], and the names that
    [namedPresets] inherits. *)
Definition keywords : list string :=
  ((λ p, p.1.1) <$> presetTable) ++ "default" :: Utils.objectPrototypeKeys.

(** The text starts as an unsigned numeral does: with a digit or with
    [Infinity]. *)
Definition numeralStart (s : string) : bool :=
  match s with
  | String c _ => JS.isDigit c || JS.startsWith "Infinity" s
  | EmptyString => false
  end.

(** The same after an optional minus sign. *)
Definition signedNumeralStart (s : string) : bool :=
  match s with
  | String c r => if Ascii.eqb c "-" then numeralStart r else numeralStart s
  | EmptyString => false
  end.

(** ** Numerals *)

















(** ** The dropdown: [fontstyle/fontstyleui.js] *)

Module UI.

Import Utils.

(** The store of the dropdown.  [_getLocalizedOptions] can give an object
    a title that is a member of [Object.prototype] (a function, or the
    prototype itself), which is no value of the configuration: the store
    holds the objects with their other properties, and beside them, for
    each object with such a title, the name of the member. *)
Record Store := {
  objects : Heap;
  memberTitles : gmap nat string
}.

(** A store in which every title is a value of the configuration. *)
Definition plainStore (h : Heap) : Store :=
  {| objects := h; memberTitles := ∅ |}.

(** A computation of the dropdown reads and updates its store and returns
    or throws. *)
Definition UM (A : Type) : Type := Store → Outcome A * Store.

Definition uret {A} (a : A) : UM A := λ s, (Ok a, s).

Definition ubind {A B} (m : UM A) (k : A → UM B) : UM B :=
  λ s, match m s with
       | (Ok a, s') => k a s'
       | (Throw e, s') => (Throw e, s')
       end.

Notation "'let+' x ':=' m 'in' k" := (ubind m (λ x, k))
  (at level 10, x name, m at level 100, k at level 200).

Fixpoint umapM {A B} (f : A → UM B) (xs : list A) : UM (list B) :=
  match xs with
  | [] => uret []
  | x :: xs' =>
      let+ y := f x in
      let+ ys := umapM f xs' in
      uret (y :: ys)
  end.

(** [v[k]] for a property other than the title. *)
Definition get (v : Value) (k : string) : UM Value :=
  λ s, ((getProp v k (objects s)).1, s).

(** [option.title]: a value of the configuration or a member of
    [Object.prototype]. *)
Definition getTitle (option : Value) : UM Looked :=
  λ s, match getProp option "title" (objects s) with
       | (Ok title, _) =>
           (Ok match option with
               | VRef l =>
                   match memberTitles s !! l with
                   | Some key => Inherited key
                   | None => Own title
                   end
               | _ => Own title
               end, s)
       | (Throw e, _) => (Throw e, s)
       end.

(** [x === y] on numbers: NaN equals nothing, the two zeros are equal. *)
Definition numberEquals (x y : JS.Number) : bool :=
  match x, y with
  | JS.Infinity a, JS.Infinity b => Bool.eqb a b
  | JS.Finite a m e, JS.Finite b m' e' =>
      let '(m1, e1) := JS.canonical m e in
      let '(m2, e2) := JS.canonical m' e' in
      (m1 =? m2)%N && (e1 =? e2) && ((m1 =? 0)%N || Bool.eqb a b)
  | _, _ => false
  end.

(** [x === y]: objects are equal when they are the same object. *)
Definition strictEquals (x y : Value) : bool :=
  match x, y with
  | VUndefined, VUndefined | VNull, VNull => true
  | VBool a, VBool b => Bool.eqb a b
  | VNumber a, VNumber b => numberEquals a b
  | VString a, VString b => String.eqb a b
  | VRef a, VRef b => (a =? b)%nat
  | _, _ => false
  end.

(** An item definition of the dropdown: [type] and the properties of its
    [Model].  [isOn] is the callback of the binding to the command's
    [value]; it reads [option.model] when it is called. *)
Record ListItem := {
  item_type : string;
  commandName : string;
  commandParam : Value;
  label : Looked;
  class : string;
  withText : bool;
  labelStyle : option string;
  isOn : Value → UM bool
}.

Definition set_labelStyle (s : string) (def : ListItem) : ListItem :=
  {| item_type := item_type def; commandName := commandName def;
     commandParam := commandParam def; label := label def;
     class := class def; withText := withText def;
     labelStyle := Some s; isOn := isOn def |}.

Definition set_class (s : string) (def : ListItem) : ListItem :=
  {| item_type := item_type def; commandName := commandName def;
     commandParam := commandParam def; label := label def;
     class := s; withText := withText def;
     labelStyle := labelStyle def; isOn := isOn def |}.

(** [option.view && option.view[k]] *)
Definition viewProp (option : Value) (k : string) : UM Value :=
  let+ view := get option "view" in
  if ToBoolean view then
    let+ view := get option "view" in get view k
  else uret view.

(** The body of the loop of [_prepareListOptions]. *)
Definition listItem (option : Value) : UM ListItem :=
  let+ model := get option "model" in
  let+ title := getTitle option in
  let def :=
    {| item_type := "button";
       commandName := Editing.FONT_STYLE;
       commandParam := model;
       label := title;
       class := "ck-fontstyle-option";
       withText := true;
       labelStyle := None;
       isOn := λ value, let+ model := get option "model" in
                        uret (strictEquals value model) |} in
  let+ styles := viewProp option "styles" in
  let+ def :=
    if ToBoolean styles then
      let+ view := get option "view" in
      let+ styles := get view "styles" in
      let+ fontStyle := get styles "font-style" in
      uret (set_labelStyle ("font-style:" +:+ ToString fontStyle) def)
    else uret def in
  let+ classes := viewProp option "classes" in
  if ToBoolean classes then
    let+ view := get option "view" in
    let+ classes := get view "classes" in
    uret (set_class (class def +:+ " " +:+ ToString classes) def)
  else uret def.

(** [_prepareListOptions(options, command)]: the collection of item
    definitions, in the order of the options.  The command only serves as
    the source of the value handed to [isOn]. *)
Definition _prepareListOptions (options : list Value) : UM (list ListItem) :=
  umapM listItem options.

(** The own enumerable properties of a string: its characters, by
    index. *)
Definition stringProps (s : string) : Obj :=
  list_to_map
    (imap (λ i c, (NilZero.string_of_uint (Nat.to_uint i),
                   VString (String c EmptyString)))
          (String.list_ascii_of_string s)).

(** [Object.assign({}, option, { title })]: a new object with the own
    properties of [option], its [title] replaced. *)
Definition assign (option : Value) (title : Looked) : UM Value :=
  λ s,
    let h := objects s in
    let copy (o : Obj) : Outcome Value * Store :=
      match title with
      | Own v =>
          (Ok (VRef (length h)),
           {| objects := h ++ [<["title" := v]> o];
              memberTitles := delete (length h) (memberTitles s) |})
      | Inherited key =>
          (Ok (VRef (length h)),
           {| objects := h ++ [delete "title" o];
              memberTitles := <[length h := key]> (memberTitles s) |})
      end in
    match option with
    | VRef l =>
        match h !! l with
        | Some o => copy o
        | None => (Throw InvalidReference, s)
        end
    | VString str => copy (stringProps str)
    | _ => copy ∅
    end.

Section Locale.

(** [editor.t], the translation function of the host's locale, and the
    host's conversion of a string to a number, which is not embedded. *)
Variable t : string → string.
Variable StringToNumber : string → JS.Number.

(** [ToNumber(v)] *)
Definition ToNumber (v : Value) : JS.Number :=
  match v with
  | VUndefined => JS.NaN
  | VNull => JS.ofZ 0
  | VBool b => JS.ofZ (if b then 1 else 0)
  | VNumber n => n
  | VString s => StringToNumber s
  | VRef _ => StringToNumber (ToString v)
  end.

(** [x == y] *)
Definition looseEquals (x y : Value) : bool :=
  match x, y with
  | (VUndefined | VNull), (VUndefined | VNull) => true
  | (VUndefined | VNull), _ | _, (VUndefined | VNull) => false
  | VString a, VString b => String.eqb a b
  | VRef a, VRef b => (a =? b)%nat
  | VString a, VRef _ => String.eqb a (ToString y)
  | VRef _, VString b => String.eqb (ToString x) b
  | _, _ => numberEquals (ToNumber x) (ToNumber y)
  end.

(** [localizedTitles[key]]: five own properties, and the members the
    literal inherits from [Object.prototype]. *)
Definition localizedTitles (key : string) : Looked :=
  if bool_decide (key ∈ ["Default"; "Tiny"; "Small"; "Big"; "Huge"])
  then Own (VString (t key))
  else if bool_decide (key ∈ objectPrototypeKeys) then Inherited key
  else Own VUndefined.

(** The callback of [options.map] in [_getLocalizedOptions].  A title
    that is itself a member of [Object.prototype] names no property of
    [localizedTitles], since the text of a function is none of these
    names.  A member found in [localizedTitles] is truthy and is loosely
    equal to no value of the configuration: the text of a function or of
    the prototype is not the name it was found under. *)
Definition localizeOption (option : Value) : UM Value :=
  let+ optionTitle := getTitle option in
  match optionTitle with
  | Inherited _ => uret option
  | Own optionTitle =>
      match localizedTitles (ToString optionTitle) with
      | Own title =>
          if ToBoolean title && negb (looseEquals title optionTitle)
          then assign option (Own title)
          else uret option
      | Inherited key => assign option (Inherited key)
      end
  end.

(** [_getLocalizedOptions()], from a store of configuration values. *)
Definition _getLocalizedOptions (editor : Editor)
  : Heap → Outcome (list Value) * Store :=
  λ h, match normalizeOptions (config_options editor) h with
       | (Ok options, h1) => umapM localizeOption options (plainStore h1)
       | (Throw e, h1) => (Throw e, plainStore h1)
       end.

(** The item definitions that the component factory registered by
    [init] hands to [addListToDropdown]: [_prepareListOptions] of the
    localised options, when nothing has written to the store since
    [init]. *)
Definition dropdownItems (editor : Editor)
  : Heap → Outcome (list ListItem) * Store :=
  λ h, match _getLocalizedOptions editor h with
       | (Ok options, s) => _prepareListOptions options s
       | (Throw e, s) => (Throw e, s)
       end.

End Locale.

End UI.

Notation "'let+' x ':=' m 'in' k" := (UI.ubind m (λ x, k))
  (at level 10, x name, m at level 100, k at level 200).

(** What reading [v[k]] gives in the store [h]. *)
Definition read (h : Heap) (v : Value) (k : string) : Outcome Value :=
  (getProp v k h).1.

(** What reading [option.title] gives in the dropdown's store. *)
Definition readTitle (s : UI.Store) (option : Value) : Outcome Utils.Looked :=
  (UI.getTitle option s).1.

(** The item definition of an option with the given model and title,
    before its view is looked at. *)
Definition plainItem (option model : Value) (title : Utils.Looked)
  : UI.ListItem :=
  {| UI.item_type := "button";
     UI.commandName := Editing.FONT_STYLE;
     UI.commandParam := model;
     UI.label := title;
     UI.class := "ck-fontstyle-option";
     UI.withText := true;
     UI.labelStyle := None;
     UI.isOn := λ value, let+ model := UI.get option "model" in
                         UI.uret (UI.strictEquals value model) |}.

(** What the option's view adds to the item definition [def]. *)
Definition viewItem (h : Heap) (def : UI.ListItem) (view : Value)
  : Outcome UI.ListItem :=
  match (if ToBoolean view then read h view "styles" else Ok view) with
  | Throw e => Throw e
  | Ok styles =>
      match (if ToBoolean styles then
               match read h styles "font-style" with
               | Ok fontStyle =>
                   Ok (UI.set_labelStyle
                         ("font-style:" +:+ ToString fontStyle) def)
               | Throw e => Throw e
               end
             else Ok def) with
      | Throw e => Throw e
      | Ok def1 =>
          match (if ToBoolean view then read h view "classes"
                 else Ok view) with
          | Throw e => Throw e
          | Ok classes =>
              Ok (if ToBoolean classes then
                    UI.set_class
                      (UI.class def1 +:+ " " +:+ ToString classes) def1
                  else def1)
          end
      end
  end.


(** The titles that [localizedTitles] translates. *)
Definition ownTitles : list string :=
  ["Default"; "Tiny"; "Small"; "Big"; "Huge"].

(** The option [o] of the store [h1] has the title [k], a string. *)
Definition titled (h1 : Heap) (o : Value) (k : string) : Prop :=
  ∃ l obj, o = VRef l ∧ h1 !! l = Some obj
           ∧ obj !! "title" = Some (VString k).

(** [c] is a copy of the object [o] of [h1], made after [h1], with every
    property of [o] but the title, which is [title]. *)
Definition copyOf (h1 : Heap) (s2 : UI.Store) (o c : Value)
    (title : Utils.Looked) : Prop :=
  ∃ l obj lc,
    o = VRef l ∧ h1 !! l = Some obj
    ∧ c = VRef lc ∧ (length h1 <= lc)%nat
    ∧ match title with
      | Utils.Own v =>
          UI.objects s2 !! lc = Some (<["title" := v]> obj)
          ∧ UI.memberTitles s2 !! lc = None
      | Utils.Inherited key =>
          UI.objects s2 !! lc = Some (delete "title" obj)
          ∧ UI.memberTitles s2 !! lc = Some key
      end.

(** [c] is the localised form of the option [o] of [h1]: [o] itself; or
    a copy whose title is the translation of [o]'s title, one of the five,
    when the translation is not empty and differs from it; or a copy whose
    title is the member of [Object.prototype] that [o]'s title names. *)
Definition localizedFrom (t : string → string) (h1 : Heap) (s2 : UI.Store)
    (o c : Value) : Prop :=
  (c = o
   ∧ ∀ k, titled h1 o k →
          (k ∉ Utils.objectPrototypeKeys)
          ∧ (k ∈ ownTitles → t k = "" ∨ t k = k))
  ∨ (∃ k, titled h1 o k ∧ k ∈ ownTitles ∧ t k ≠ "" ∧ t k ≠ k
          ∧ copyOf h1 s2 o c (Utils.Own (VString (t k))))
  ∨ (∃ k, titled h1 o k ∧ k ∈ Utils.objectPrototypeKeys
          ∧ copyOf h1 s2 o c (Utils.Inherited k)).

(** A sample of the host's translation function for the worked examples:
    a German locale for the five titles, every other message as it is. *)
Definition sampleT (message : string) : string :=
  if String.eqb message "Default" then "Standard"
  else if String.eqb message "Tiny" then "Sehr klein"
  else if String.eqb message "Small" then "Klein"
  else if String.eqb message "Big" then "Gross"
  else if String.eqb message "Huge" then "Sehr gross"
  else message.

(** A sample of the host's conversion of strings to numbers for the
    worked examples: the numeral that [parseFloat] reads.  (The host's
    conversion differs on texts that are not decimal numerals.) *)
Definition sampleStringToNumber (s : string) : JS.Number := JS.parseFloat s.


(** A configuration element of one of the documented plain kinds: a
    preset name, ['default'], or a number or string that [parseFloat]
    reads. *)
Definition plainElement (x : Value) : Prop :=
  (∃ key title classes,
     In (key, title, classes) presetTable ∧ x = VString key)
  ∨ x = VString "default"
  ∨ ((typeof x = "number" ∨ typeof x = "string")
     ∧ JS.isNaN (JS.parseFloat (ToString x)) = false).

(** * Properties *)

(** ** Scanning numerals *)

Section Scanning.

Import JS.

Lemma isDigit_value c : isDigit c = true → (digitValue c <= 9)%N.
Proof.
  unfold isDigit, digitValue. intros H.
  apply andb_true_iff in H as [H1 H2].
  apply Nat.leb_le in H1, H2. lia.
Qed.

Lemma isDigit_not_space c : isDigit c = true → isWhiteSpace c = false.
Proof.
  unfold isDigit, isWhiteSpace. intros H.
  apply andb_true_iff in H as [H1 H2].
  apply Nat.leb_le in H1, H2.
  apply orb_false_iff. split.
  - apply andb_false_iff. right. apply Nat.leb_gt. lia.
  - apply Nat.eqb_neq. lia.
Qed.

Lemma isDigit_not_sign c :
  isDigit c = true → Ascii.eqb c "-" = false ∧ Ascii.eqb c "+" = false.
Proof.
  intros H. split; apply Ascii.eqb_neq; intros ->; discriminate H.
Qed.

(** On a run of digits the scanner consumes everything. *)
Lemma scanDigits_all r : ∀ acc cnt,
  forallb isDigit (String.list_ascii_of_string r) = true →
  ∃ v, scanDigits r acc cnt = (v, (cnt + String.length r)%nat, EmptyString)
       ∧ (v + 1 <= (acc + 1) * 10 ^ N.of_nat (String.length r))%N.
Proof.
  induction r as [|c r IH]; intros acc cnt H; simpl in *.
  - exists acc. split; [f_equal; f_equal; lia | lia].
  - apply andb_true_iff in H as [Hc Hr]. rewrite Hc.
    destruct (IH (acc * 10 + digitValue c)%N (S cnt) Hr) as (v & -> & Hv).
    exists v. split; [f_equal; f_equal; lia |].
    pose proof (isDigit_value c Hc).
    rewrite Nat2N.inj_succ, N.pow_succ_r'. nia.
Qed.

End Scanning.

(** ** The legacy decoder *)

Section Legacy.

Import Editing.

Lemma clamp_in_table (level : Z) :
  let i := Z.min (Z.max level 0) 7 in
  0 <= i <= 7 ∧ ∃ keyword, styleFontStyle !! Z.to_nat i = Some keyword.
Proof.
  intros i. split; [lia |].
  apply lookup_lt_is_Some. simpl. lia.
Qed.

(** What a text accepted by the legacy pattern looks like to [parseInt]:
    it is read whole, as an integer of at most three digits, negative
    exactly for a leading minus. *)
Lemma legacyLevel_parseInt (value : string) :
  legacyLevelTest value = true →
  ∃ n, JS.parseInt value = Some n ∧ -999 <= n <= 999.
Proof.
  unfold legacyLevelTest, JS.parseInt. intros H.
  apply andb_true_iff in H as [H Hd]. apply andb_true_iff in H as [H1 H3].
  apply Nat.leb_le in H1, H3.
  assert (Htrim : JS.trimStart value = value).
  { destruct value as [|c r]; [done |]. simpl in *.
    destruct (Ascii.eqb c "-") eqn:Em;
      [apply Ascii.eqb_eq in Em as ->; done |].
    destruct (Ascii.eqb c "+") eqn:Ep;
      [apply Ascii.eqb_eq in Ep as ->; done |].
    simpl in Hd. apply andb_true_iff in Hd as [Hc _].
    by rewrite (isDigit_not_space c Hc). }
  rewrite Htrim. destruct (JS.scanSign value) as [neg s1]. simpl in *.
  destruct (scanDigits_all s1 0%N 0%nat Hd) as (v & -> & Hv).
  assert (10 ^ N.of_nat (String.length s1) <= 1000)%N.
  { change 1000%N with (10 ^ 3)%N. apply N.pow_le_mono_r; lia. }
  destruct (String.length s1) eqn:El; [lia |]. simpl.
  destruct neg; eexists; (split; [done | lia]).
Qed.

(** C2.  For every legacy attribute text matching the optionally signed
    1-3 digit pattern, the legacy decoder reads it as an integer, adds the
    baseline 3 when the text begins with a sign, clamps the level into
    [0, 7] and returns the keyword at that index of the 8-entry table; it
    never fails on such a text.  In particular "-999" gives the keyword at
    index 0, "2" the keyword at index 2 and "+2" the keyword at index 5. *)
Theorem legacy_decoder_clamps :
  (∀ (e : ViewElement) (value : string),
     getAttribute e "style" = Some value →
     test legacyLevel value = true →
     ∃ (n : Z) (keyword : string),
       JS.parseInt value = Some n
       ∧ let level := if isRelative value then 3 + n else n in
         let i := Z.min (Z.max level 0) 7 in
         0 <= i <= 7
         ∧ styleFontStyle !! Z.to_nat i = Some keyword
         ∧ legacyValue e = Ok (VString keyword))
  ∧ length styleFontStyle = 8%nat
  ∧ (legacyValue (fontElement "-999") = Ok (VString "x-small")
     ∧ styleFontStyle !! 0%nat = Some "x-small")
  ∧ (legacyValue (fontElement "2") = Ok (VString "small")
     ∧ styleFontStyle !! 2%nat = Some "small")
  ∧ (legacyValue (fontElement "+2") = Ok (VString "x-large")
     ∧ styleFontStyle !! 5%nat = Some "x-large").
Proof.
  split; [| by vm_compute].
  intros e value He Hm. simpl in Hm.
  destruct (legacyLevel_parseInt value Hm) as (n & Hn & _).
  set (level := if isRelative value then 3 + n else n).
  destruct (clamp_in_table level) as (Hi & keyword & Hk).
  exists n, keyword. split; [done |]. split; [done |]. split; [done |].
  unfold legacyValue. rewrite He, Hn.
  replace (if isRelative value then Z.add 3 <$> Some n else Some n)
    with (Some level) by (unfold level; by destruct (isRelative value)).
  change (Z.of_nat (length styleFontStyle) - 1) with 7.
  simpl. by rewrite Hk.
Qed.

Lemma legacy_decoder_clamps_witness :
  getAttribute (Editing.fontElement "+2") "style" = Some "+2"
  ∧ test legacyLevel "+2" = true
  ∧ ∃ (n : Z) (keyword : string),
      JS.parseInt "+2" = Some n
      ∧ 0 <= Z.min (Z.max (if isRelative "+2" then 3 + n else n) 0) 7 <= 7
      ∧ styleFontStyle
          !! Z.to_nat (Z.min (Z.max (if isRelative "+2" then 3 + n else n) 0) 7)
        = Some keyword
      ∧ legacyValue (fontElement "+2") = Ok (VString keyword).
Proof.
  split; [reflexivity |]. split; [reflexivity |].
  exact (proj1 legacy_decoder_clamps (fontElement "+2") "+2"
           eq_refl eq_refl).
Defined.

End Legacy.

(** ** The evaluation monad *)

Lemma bind_Ok {A B} (m : M A) (k : A → M B) h b h' :
  bind m k h = (Ok b, h') →
  ∃ a h1, m h = (Ok a, h1) ∧ k a h1 = (Ok b, h').
Proof.
  unfold bind. destruct (m h) as [[a|e] h1]; [eauto | discriminate].
Qed.

Lemma bind_Throw {A B} (m : M A) (k : A → M B) h e h' :
  bind m k h = (Throw e, h') →
  m h = (Throw e, h') ∨ ∃ a h1, m h = (Ok a, h1) ∧ k a h1 = (Throw e, h').
Proof.
  unfold bind. destruct (m h) as [[a|e1] h1]; [eauto |].
  intros [= -> ->]. by left.
Qed.

Lemma bind_step {A B} (m : M A) (k : A → M B) h a h1 :
  m h = (Ok a, h1) → bind m k h = k a h1.
Proof. unfold bind. by intros ->. Qed.

Lemma ret_Ok {A} (a b : A) h h' : ret a h = (Ok b, h') → a = b ∧ h = h'.
Proof. by intros [= -> ->]. Qed.

Lemma isOk_value {A} (d : A) (o : Outcome A) :
  isOk o = true → o = Ok (valueOf d o).
Proof. by destruct o. Qed.

Lemma isOk_run {A} (d : A) (r : Outcome A * Heap) :
  isOk r.1 = true → r = (Ok (valueOf d r.1), r.2).
Proof. destruct r as [[a|e] h]; [done | discriminate]. Qed.

(** Splits a hypothesis [bind m k h = (Ok b, h')] into its two runs. *)
Ltac bind_inv H :=
  let a := fresh "a" in
  let h1 := fresh "h" in
  let H1 := fresh "Hrun" in
  apply bind_Ok in H as (a & h1 & H1 & H).

(** ** The conversion rule set *)

Section RuleSet.

Import Editing.

Variables isLength isPercentage : string → bool.

Lemma prepareAnyValueConverters_Ok definition editor editor' :
  _prepareAnyValueConverters isLength isPercentage definition editor
    = Ok editor' →
  conversion editor' =
    conversion editor
      ++ [ DowncastAttributeToElement FONT_STYLE anyValueDowncastView;
           UpcastElementToAttribute anyValueUpcastView FONT_STYLE
                                    anyValueUpcastValue ].
Proof.
  unfold _prepareAnyValueConverters.
  destruct (negb _); [discriminate |].
  intros [= <-]. simpl. by rewrite <- app_assoc.
Qed.

(** The converters [init] registers, by mode. *)
Lemma init_conversion options supportAllValues h editor h' :
  init isLength isPercentage (newEditor options supportAllValues) h
    = (Ok editor, h') →
  if supportAllValues then
    conversion editor =
      [ DowncastAttributeToElement FONT_STYLE anyValueDowncastView;
        UpcastElementToAttribute anyValueUpcastView FONT_STYLE
                                 anyValueUpcastValue;
        legacyConverter ]
  else ∃ definition, conversion editor = [ AttributeToElement definition ].
Proof.
  unfold init. intros H.
  bind_inv H. bind_inv H. bind_inv H. bind_inv H.
  apply ret_Ok in H as [<- _]. simpl in *.
  destruct supportAllValues.
  - destruct (_prepareAnyValueConverters _ _ _ _) as [e1|err] eqn:E;
      [| discriminate].
    apply ret_Ok in Hrun2 as [<- _].
    apply prepareAnyValueConverters_Ok in E. simpl in *. by rewrite E.
  - apply ret_Ok in Hrun2 as [<- _]. simpl. eauto.
Qed.

(** What the legacy rule recognises: a [font] element whose [style]
    attribute fits the pattern, read through the legacy decoder. *)
Lemma legacyConverter_recognises (e : ViewElement) (value : string) :
  ve_name e = "font" → getAttribute e "style" = Some value →
  upcast legacyConverter e =
    if test legacyLevel value then Some (FONT_STYLE, legacyValue e) else None.
Proof.
  intros Hn Ha. unfold upcast, legacyConverter, matches. simpl.
  rewrite Hn, Ha. simpl. by destruct (legacyLevelTest value).
Qed.

(** C1, as amended.  The legacy-compatibility upcast rule, which
    recognises a [font] element whose [style] attribute is an optionally
    signed integer of 1 to 3 digits, is registered exactly when
    [supportAllValues] is true, and then it is registered after the two
    permissive converters: the registrations are, in order, the permissive
    downcast, the permissive upcast and the legacy rule, and nothing else.
    With [supportAllValues] false the only registration is the strict
    two-way definition, so the legacy rule is not registered. *)
Theorem legacy_rule_iff_permissive options supportAllValues h editor h' :
  init isLength isPercentage (newEditor options supportAllValues) h
    = (Ok editor, h') →
  (In legacyConverter (conversion editor) ↔ supportAllValues = true)
  ∧ (supportAllValues = true →
     conversion editor =
       [ DowncastAttributeToElement FONT_STYLE anyValueDowncastView;
         UpcastElementToAttribute anyValueUpcastView FONT_STYLE
                                  anyValueUpcastValue;
         legacyConverter ])
  ∧ (supportAllValues = false →
     (∃ definition, conversion editor = [ AttributeToElement definition ])
     ∧ ¬ In legacyConverter (conversion editor))
  ∧ (∀ (e : ViewElement) (value : string),
       ve_name e = "font" → getAttribute e "style" = Some value →
       upcast legacyConverter e =
         if test legacyLevel value then Some (FONT_STYLE, legacyValue e)
         else None).
Proof.
  intros H. apply init_conversion in H.
  split; [| split; [| split; [| apply legacyConverter_recognises]]].
  - destruct supportAllValues.
    + rewrite H. split; [done |]. intros _. simpl. auto.
    + destruct H as [d ->]. split; [| done].
      intros [Hd | []]. discriminate Hd.
  - intros ->. exact H.
  - intros ->. split; [exact H |].
    destruct H as [d ->]. intros [Hd | []]. discriminate Hd.
Qed.

End RuleSet.

Lemma legacy_rule_iff_permissive_witness :
  let run :=
    Editing.init Editing.sampleIsLength Editing.sampleIsPercentage
      (Editing.newEditor [num 12] true) [] in
  let editor := valueOf (Editing.newEditor [] true) run.1 in
  run = (Ok editor, run.2)
  ∧ (In Editing.legacyConverter (conversion editor) ↔ true = true)
  ∧ (true = true →
     conversion editor =
       [ DowncastAttributeToElement Editing.FONT_STYLE
           Editing.anyValueDowncastView;
         UpcastElementToAttribute Editing.anyValueUpcastView
           Editing.FONT_STYLE Editing.anyValueUpcastValue;
         Editing.legacyConverter ])
  ∧ (true = false →
     (∃ definition, conversion editor = [ AttributeToElement definition ])
     ∧ ¬ In Editing.legacyConverter (conversion editor))
  ∧ (∀ (e : ViewElement) (value : string),
       ve_name e = "font" → getAttribute e "style" = Some value →
       upcast Editing.legacyConverter e =
         if test Editing.legacyLevel value
         then Some (Editing.FONT_STYLE, Editing.legacyValue e)
         else None).
Proof.
  intros run editor. subst run editor.
  match goal with
  | |- ?r = _ ∧ _ =>
      assert (E : r = (Ok (valueOf (Editing.newEditor [] true) r.1), r.2))
        by (apply isOk_run; vm_compute; reflexivity)
  end.
  split; [exact E |].
  exact (legacy_rule_iff_permissive _ _ _ _ _ _ _ E).
Defined.

(** C1 fails as stated: with the default configuration and
    [supportAllValues] false, [init] succeeds and the legacy rule is not
    among the registered converters. *)
Lemma legacy_rule_absent_in_strict_mode :
  let run :=
    Editing.init Editing.sampleIsLength Editing.sampleIsPercentage
      (Editing.newEditor Editing.defaultOptions false) [] in
  let editor := valueOf (Editing.newEditor [] false) run.1 in
  run = (Ok editor, run.2)
  ∧ ¬ In Editing.legacyConverter (conversion editor).
Proof.
  intros run editor. subst run editor.
  match goal with
  | |- ?r = _ ∧ _ =>
      assert (E : r = (Ok (valueOf (Editing.newEditor [] false) r.1), r.2))
        by (apply isOk_run; vm_compute; reflexivity)
  end.
  split; [exact E |].
  destruct (init_conversion _ _ _ _ _ _ _ E) as [d Hd]. rewrite Hd.
  intros [H | []]. discriminate H.
Qed.

(** ** The object store *)

Section Store.

Implicit Types (h : Heap) (o : Obj) (l : nat) (k : string) (v x : Value).

Lemma getProp_ref h l o k :
  h !! l = Some o →
  getProp (VRef l) k h = (Ok (default VUndefined (o !! k)), h).
Proof. unfold getProp. by intros ->. Qed.

Lemma getProp_heap v k h r h' : getProp v k h = (r, h') → h' = h.
Proof.
  unfold getProp. destruct v; try by intros [= _ <-].
  destruct (h !! l); by intros [= _ <-].
Qed.

Lemma getProp_ref_Ok l k h x h' :
  getProp (VRef l) k h = (Ok x, h') →
  h' = h ∧ ∃ o, h !! l = Some o ∧ x = default VUndefined (o !! k).
Proof.
  unfold getProp. destruct (h !! l) as [o|]; [| discriminate].
  intros [= <- <-]. eauto.
Qed.

(** Reading a property of a primitive gives undefined, or throws. *)
Lemma getProp_Ok v k h x h' :
  getProp v k h = (Ok x, h') →
  h' = h ∧ ((∃ l o, v = VRef l ∧ h !! l = Some o
                    ∧ x = default VUndefined (o !! k))
            ∨ ((∀ l, v ≠ VRef l) ∧ x = VUndefined)).
Proof.
  intros H. split; [by eapply getProp_heap |].
  destruct v; try discriminate H;
    try (right; split; [done | by injection H as <- _]).
  apply getProp_ref_Ok in H as (_ & o & Ho & ->). left. eauto.
Qed.

Lemma setProp_ref h l o k x :
  h !! l = Some o →
  setProp (VRef l) k x h = (Ok (), <[l := <[k := x]> o]> h).
Proof. unfold setProp. by intros ->. Qed.

Lemma setProp_Ok v k x h u h' :
  setProp v k x h = (Ok u, h') →
  ∃ l o, v = VRef l ∧ h !! l = Some o ∧ h' = <[l := <[k := x]> o]> h.
Proof.
  unfold setProp. destruct v; try discriminate.
  destruct (h !! l) as [o|] eqn:E; [| discriminate].
  intros [= <-]. eauto.
Qed.

Lemma alloc_run o h : alloc o h = (Ok (VRef (length h)), h ++ [o]).
Proof. reflexivity. Qed.

Lemma lookup_new0 h (a : Obj) rest : (h ++ a :: rest) !! length h = Some a.
Proof. by apply list_lookup_middle. Qed.

Lemma lookup_new1 h (a b : Obj) rest :
  (h ++ a :: b :: rest) !! S (length h) = Some b.
Proof.
  rewrite (lookup_app_r h); [| lia].
  by replace (S (length h) - length h)%nat with 1%nat by lia.
Qed.

Lemma lookup_old h (ext : Heap) l o :
  h !! l = Some o → (h ++ ext) !! l = Some o.
Proof. intros H. by apply lookup_app_l_Some. Qed.

Lemma lookup_valid h l o : h !! l = Some o → (l < length h)%nat.
Proof. intros H. by eapply lookup_lt_Some. Qed.

End Store.

(** ** Running the normaliser *)

Section Normalizer.

Import Utils.

Implicit Types (h : Heap) (o : Obj) (l : nat) (k : string) (v x : Value).

Lemma presetGetter_run title model classes h :
  presetGetter title model classes h =
    (Ok (VRef (S (length h))),
     h ++ [ presetView classes; presetOption title model (VRef (length h)) ]).
Proof.
  unfold presetGetter, bind. rewrite !alloc_run, length_app. simpl.
  rewrite <- app_assoc, Nat.add_1_r. reflexivity.
Qed.

(** Reading [namedPresets[key]]: a new preset, an inherited member, or
    undefined. *)
Lemma namedPresets_run key h :
  (∃ title classes,
     namedPresets key h =
       (Ok (Own (VRef (S (length h)))),
        h ++ [ presetView classes;
               presetOption title key (VRef (length h)) ]))
  ∨ namedPresets key h = (Ok (Inherited key), h)
  ∨ namedPresets key h = (Ok (Own VUndefined), h).
Proof.
  unfold namedPresets.
  repeat (match goal with
          | |- context [String.eqb key ?s] =>
              let E := fresh "E" in
              destruct (String.eqb key s) eqn:E;
              [apply String.eqb_eq in E as ->; left; eexists _, _;
               unfold bind; rewrite presetGetter_run; reflexivity |]
          end).
  destruct (bool_decide _); [right; left | right; right]; reflexivity.
Qed.

Lemma presetOption_view title model view :
  presetOption title model view !! "view" = Some view.
Proof. reflexivity. Qed.

(** [attachPriority] returns only for an object whose view is an object;
    it sets the view's priority to 7 when that priority is falsy and
    changes nothing otherwise. *)
Lemma attachPriority_Ok d h v h' :
  attachPriority d h = (Ok v, h') →
  v = d ∧ ∃ l o lv vo,
    d = VRef l ∧ h !! l = Some o ∧ o !! "view" = Some (VRef lv)
    ∧ h !! lv = Some vo
    ∧ ((ToBoolean (default VUndefined (vo !! "priority")) = true ∧ h' = h)
       ∨ (ToBoolean (default VUndefined (vo !! "priority")) = false
          ∧ h' = <[lv := <["priority" := num 7]> vo]> h)).
Proof.
  unfold attachPriority. intros H.
  bind_inv H. bind_inv H. bind_inv H. apply ret_Ok in H as [-> <-].
  split; [done |].
  apply getProp_Ok in Hrun as [-> Hview].
  apply getProp_Ok in Hrun0 as [-> Hprio].
  destruct Hprio as [(lv & vo & -> & Hvo & ->) | [Hprim ->]].
  - destruct Hview as [(l & o & -> & Ho & Hv) | [_ Hv]]; [| discriminate].
    exists l, o, lv, vo. repeat split; try done.
    { destruct (o !! "view") as [w|]; simpl in Hv; by subst. }
    destruct (ToBoolean (default VUndefined (vo !! "priority"))) eqn:Ep;
      cbn [negb] in Hrun1.
    + apply ret_Ok in Hrun1 as [_ <-]. by left.
    + rewrite (setProp_ref _ _ _ _ _ Hvo) in Hrun1.
      injection Hrun1 as <-. by right.
  - simpl in Hrun1. apply setProp_Ok in Hrun1 as (l & o & -> & _).
    by destruct (Hprim l).
Qed.

Lemma attachPriority_set h l o lv vo :
  h !! l = Some o → o !! "view" = Some (VRef lv) → h !! lv = Some vo →
  ToBoolean (default VUndefined (vo !! "priority")) = true →
  attachPriority (VRef l) h = (Ok (VRef l), h).
Proof.
  intros Ho Hv Hvo Hp. unfold attachPriority.
  rewrite (bind_step _ _ _ _ _ (getProp_ref _ _ _ "view" Ho)), Hv. simpl.
  rewrite (bind_step _ _ _ _ _ (getProp_ref _ _ _ "priority" Hvo)), Hp.
  reflexivity.
Qed.

Lemma attachPriority_unset h l o lv vo :
  h !! l = Some o → o !! "view" = Some (VRef lv) → h !! lv = Some vo →
  ToBoolean (default VUndefined (vo !! "priority")) = false →
  attachPriority (VRef l) h =
    (Ok (VRef l), <[lv := <["priority" := num 7]> vo]> h).
Proof.
  intros Ho Hv Hvo Hp. unfold attachPriority.
  rewrite (bind_step _ _ _ _ _ (getProp_ref _ _ _ "view" Ho)), Hv. simpl.
  rewrite (bind_step _ _ _ _ _ (getProp_ref _ _ _ "priority" Hvo)), Hp.
  simpl. rewrite (bind_step _ _ _ _ _ (setProp_ref _ _ _ _ _ Hvo)).
  reflexivity.
Qed.

Lemma generatePixelPreset_object h l o :
  h !! l = Some o →
  generatePixelPreset (VRef l) h = (Ok (VRef l), pixelHeap h l o).
Proof.
  intros Ho. unfold generatePixelPreset, pixelHeap.
  change (String.eqb (typeof (VRef l)) "number"
          || String.eqb (typeof (VRef l)) "string")%bool with false.
  cbv iota. rewrite (bind_step _ _ _ (VRef l) h eq_refl).
  rewrite (bind_step _ _ _ _ _ (getProp_ref _ _ _ "model" Ho)).
  rewrite (bind_step _ _ _ _ _ (alloc_run _ _)).
  rewrite (bind_step _ _ _ _ _ (alloc_run _ _)).
  rewrite length_app, Nat.add_1_r, <- app_assoc. simpl app.
  set (m := default VUndefined (o !! "model")).
  set (h2 := h ++ [pixelStyles m; pixelView (VRef (length h))]).
  assert (Hl : (l < length h)%nat) by by eapply lookup_valid.
  assert (Ho2 : h2 !! l = Some o) by by apply lookup_old.
  rewrite (bind_step _ _ _ _ _ (setProp_ref _ _ _ _ _ Ho2)).
  apply attachPriority_unset with (o := <["view" := VRef (S (length h))]> o).
  - apply list_lookup_insert_eq. unfold h2. rewrite length_app. lia.
  - apply lookup_insert_eq.
  - rewrite list_lookup_insert_ne by lia. apply lookup_new1.
  - reflexivity.
Qed.

Lemma generatePixelPreset_short x h :
  typeof x = "number" ∨ typeof x = "string" →
  generatePixelPreset x h =
    (Ok (VRef (length h)),
     pixelHeap (h ++ [shortDefinition x]) (length h) (shortDefinition x)).
Proof.
  intros Ht.
  pose proof (generatePixelPreset_object (h ++ [shortDefinition x])
                (length h) (shortDefinition x) (lookup_new0 _ _ _)) as Hobj.
  rewrite <- Hobj. unfold generatePixelPreset.
  replace (String.eqb (typeof x) "number"
           || String.eqb (typeof x) "string")%bool with true
    by (by destruct Ht as [-> | ->]).
  reflexivity.
Qed.

(** [generatePixelPreset] returns only for a number, a string or an
    object of the store. *)
Lemma generatePixelPreset_Ok x h v h' :
  generatePixelPreset x h = (Ok v, h') →
  ((typeof x = "number" ∨ typeof x = "string")
   ∧ v = VRef (length h)
   ∧ h' = pixelHeap (h ++ [shortDefinition x]) (length h) (shortDefinition x))
  ∨ (∃ l o, x = VRef l ∧ h !! l = Some o ∧ v = x ∧ h' = pixelHeap h l o).
Proof.
  intros H. destruct x as [| |b|n|s|l].
  - discriminate H.
  - discriminate H.
  - discriminate H.
  - rewrite generatePixelPreset_short in H by auto.
    injection H as <- <-. left. auto.
  - rewrite generatePixelPreset_short in H by auto.
    injection H as <- <-. left. auto.
  - destruct (h !! l) as [o|] eqn:Ho.
    + rewrite (generatePixelPreset_object _ _ _ Ho) in H.
      injection H as <- <-. right. by exists l, o.
    + unfold generatePixelPreset, bind in H. simpl in H. rewrite Ho in H.
      discriminate H.
Qed.

End Normalizer.

(** ** How normalisation changes the store *)

Section Growth.

Import Utils.

Implicit Types (h : Heap) (o : Obj) (l : nat) (k : string) (v x : Value).

Lemma grows_refl h : grows h h.
Proof.
  split.
  - intros l o Ho. exists o. auto.
  - intros l o' Ho Hl. apply lookup_valid in Ho. lia.
Qed.

Lemma grows_length h h' : grows h h' → (length h <= length h')%nat.
Proof.
  intros [Hk _]. destruct (decide (length h = 0%nat)) as [-> | Hne]; [lia |].
  destruct (lookup_lt_is_Some_2 h (length h - 1)) as [o Ho]; [lia |].
  destruct (Hk _ _ Ho) as (o' & Ho' & _). apply lookup_valid in Ho'. lia.
Qed.

Lemma grows_trans h1 h2 h3 : grows h1 h2 → grows h2 h3 → grows h1 h3.
Proof.
  intros G12 G23. pose proof (grows_length _ _ G12) as Hlen.
  destruct G12 as [K12 N12], G23 as [K23 N23]. split.
  - intros l o Ho.
    destruct (K12 _ _ Ho) as (o2 & Ho2 & Hk2 & Hp2 & Hv2).
    destruct (K23 _ _ Ho2) as (o3 & Ho3 & Hk3 & Hp3 & Hv3).
    exists o3. split; [done |]. split; [| split].
    + intros k Hkv Hkp. rewrite Hk3, Hk2; done.
    + destruct Hp3 as [-> | ->]; auto.
    + destruct Hv3 as [E3 | (lv & vo & E3 & Hlv & Hvo & Hpr)].
      * rewrite E3. destruct Hv2 as [-> | (lv & vo & E2 & Hlv & Hvo & Hpr)];
          [by left |].
        right. destruct (K23 _ _ Hvo) as (vo3 & Hvo3 & _ & Hp & _).
        exists lv, vo3. repeat split; try done.
        destruct Hp as [-> | ->]; done.
      * right. exists lv, vo. repeat split; try done. lia.
  - intros l o3 Ho3 Hl.
    destruct (h2 !! l) as [o2|] eqn:Ho2.
    + destruct (K23 _ _ Ho2) as (o3' & Ho3' & _ & Hp & _).
      assert (o3' = o3) as -> by congruence.
      destruct (N12 _ _ Ho2 Hl) as [E | E]; rewrite E in Hp;
        destruct Hp as [-> | ->]; auto.
    + apply N23 with l; [done |]. apply lookup_ge_None in Ho2. lia.
Qed.

Lemma grows_alloc h o :
  o !! "priority" = None ∨ o !! "priority" = Some (num 7) →
  grows h (h ++ [o]).
Proof.
  intros Hp. split.
  - intros l o1 Ho1. exists o1. split; [by apply lookup_old | auto].
  - intros l o' Ho' Hl.
    rewrite lookup_app_r in Ho' by done.
    destruct (l - length h)%nat as [|n]; simpl in Ho'; [| done].
    by injection Ho' as <-.
Qed.

Lemma grows_priority h lv vo :
  h !! lv = Some vo → grows h (<[lv := <["priority" := num 7]> vo]> h).
Proof.
  intros Hvo. pose proof (lookup_valid _ _ _ Hvo) as Hlv. split.
  - intros l o Ho. destruct (decide (l = lv)) as [-> | Hne].
    + assert (o = vo) as -> by congruence.
      exists (<["priority" := num 7]> vo).
      split; [by apply list_lookup_insert_eq |].
      split; [| split].
      * intros k _ Hk. by rewrite lookup_insert_ne.
      * right. apply lookup_insert_eq.
      * left. by rewrite lookup_insert_ne.
    + exists o. rewrite list_lookup_insert_ne by done. auto.
  - intros l o' Ho' Hl. apply lookup_valid in Ho'.
    rewrite length_insert in Ho'. lia.
Qed.

Lemma grows_pixel h l o : h !! l = Some o → grows h (pixelHeap h l o).
Proof.
  intros Ho. pose proof (lookup_valid _ _ _ Ho) as Hl.
  unfold pixelHeap.
  set (m := default VUndefined (o !! "model")).
  set (h2 := h ++ [pixelStyles m; pixelView (VRef (length h))]).
  assert (Hlen2 : length h2 = S (S (length h))).
  { unfold h2. rewrite length_app. simpl. lia. }
  split.
  - intros l1 o1 Ho1. pose proof (lookup_valid _ _ _ Ho1) as Hl1.
    rewrite list_lookup_insert_ne by lia.
    destruct (decide (l1 = l)) as [-> | Hne].
    + assert (o1 = o) as -> by congruence.
      exists (<["view" := VRef (S (length h))]> o).
      split; [apply list_lookup_insert_eq; lia |].
      split; [| split].
      * intros k Hk _. by rewrite lookup_insert_ne.
      * left. by rewrite lookup_insert_ne.
      * right. exists (S (length h)),
          (<["priority" := num 7]> (pixelView (VRef (length h)))).
        split; [apply lookup_insert_eq |]. split; [lia |].
        split; [| apply lookup_insert_eq].
        apply list_lookup_insert_eq. rewrite length_insert. lia.
    + exists o1. rewrite list_lookup_insert_ne by done.
      split; [by apply lookup_old | auto].
  - intros l1 o' Ho' Hl1.
    pose proof (lookup_valid _ _ _ Ho') as Hv.
    rewrite !length_insert, Hlen2 in Hv.
    destruct (decide (l1 = S (length h))) as [-> | Hne].
    + rewrite list_lookup_insert_eq in Ho'
        by (rewrite length_insert; lia).
      injection Ho' as <-. right. apply lookup_insert_eq.
    + assert (l1 = length h) as -> by lia.
      rewrite !list_lookup_insert_ne in Ho' by lia.
      unfold h2 in Ho'. rewrite lookup_new0 in Ho'.
      injection Ho' as <-. by left.
Qed.

End Growth.

(** ** One element of the configuration *)

Section Element.

Import Utils.

Implicit Types (h : Heap) (o : Obj) (l : nat) (k : string) (v x : Value).

Lemma readOnly_ret {A} (a : A) : readOnly (ret a).
Proof. by intros h r h' [= _ <-]. Qed.

Lemma readOnly_throw {A} e : readOnly (@throw A e).
Proof. by intros h r h' [= _ <-]. Qed.

Lemma readOnly_getProp v k : readOnly (getProp v k).
Proof. intros h r h'. apply getProp_heap. Qed.

Lemma readOnly_bind {A B} (m : M A) (f : A → M B) :
  readOnly m → (∀ a, readOnly (f a)) → readOnly (bind m f).
Proof.
  intros Hm Hf h r h'. unfold bind.
  destruct (m h) as [[a|e] h1] eqn:E; apply Hm in E as ->.
  - apply Hf.
  - by intros [= _ <-].
Qed.

Lemma readOnly_if {A} (b : bool) (m1 m2 : M A) :
  readOnly m1 → readOnly m2 → readOnly (if b then m1 else m2).
Proof. by destruct b. Qed.

Lemma isFullItemDefinition_readOnly x : readOnly (isFullItemDefinition x).
Proof.
  unfold isFullItemDefinition.
  repeat first [ apply readOnly_if | apply readOnly_bind; [| intros ?]
               | apply readOnly_getProp | apply readOnly_ret ].
Qed.

Lemma isNumericalDefinition_readOnly x : readOnly (isNumericalDefinition x).
Proof.
  unfold isNumericalDefinition.
  repeat first [ apply readOnly_if | apply readOnly_bind; [| intros ?]
               | apply readOnly_getProp | apply readOnly_ret
               | apply readOnly_throw ].
Qed.

(** The four ways [findPreset] ends. *)
Lemma findPreset_cases x h r h' :
  findPreset x h = (r, h') →
  (∃ title key classes,
     r = Ok (Own (VRef (S (length h))))
     ∧ h' = h ++ [ presetView classes;
                   presetOption title key (VRef (length h)) ])
  ∨ (∃ key, r = Ok (Inherited key) ∧ h' = h)
  ∨ (r = Ok (Own VUndefined) ∧ h' = h)
  ∨ (∃ e, r = Throw e ∧ h' = h).
Proof.
  unfold findPreset. intros H.
  destruct (namedPresets_run (ToString x) h)
    as [(title & classes & E) | [E | E]];
    rewrite (bind_step _ _ _ _ _ E) in H; simpl in H.
  - injection H as <- <-. left. eauto.
  - injection H as <- <-. right. left. eauto.
  - unfold bind in H.
    destruct (getProp x "model" h) as [[m|e] h1] eqn:Em;
      apply getProp_heap in Em as ->.
    + destruct (namedPresets_run (ToString m) h)
        as [(title & classes & E') | [E' | E']];
        rewrite E' in H; injection H as <- <-; eauto 10.
    + injection H as <- <-. eauto 10.
Qed.

(** The five ways [getOptionDefinition] returns. *)
Lemma getOptionDefinition_Ok x h v h' :
  getOptionDefinition x h = (Ok v, h') →
  attachPriority x h = (Ok v, h')
  ∨ (∃ title key classes,
       v = VRef (S (length h))
       ∧ h' = h ++ [ presetView classes;
                     presetOption title key (VRef (length h)) ])
  ∨ (x = VString "default" ∧ v = VRef (length h)
     ∧ h' = h ++ [defaultOption])
  ∨ (reachesNumericStep x h ∧ v = VUndefined ∧ h' = h
     ∧ isNumericalDefinition x h = (Ok true, h))
  ∨ (reachesPixelStep x h ∧ generatePixelPreset x h = (Ok v, h')).
Proof.
  unfold getOptionDefinition. intros H.
  apply bind_Ok in H as (full & h1 & Hfull & H).
  pose proof (isFullItemDefinition_readOnly _ _ _ _ Hfull) as ->.
  destruct (ToBoolean full) eqn:Efull; [by left |]. right.
  apply bind_Ok in H as (preset & h1 & Hpreset & H).
  destruct (findPreset_cases _ _ _ _ Hpreset)
    as [(title & key & classes & [= ->] & ->)
       | [(key & [= ->] & ->) | [[[= ->] ->] | (e & [=] & _)]]].
  - left. simpl in H.
    pose proof (attachPriority_set _ _ _ _ _
                  (lookup_new1 h (presetView classes)
                     (presetOption title key (VRef (length h))) [])
                  (presetOption_view _ _ _) (lookup_new0 _ _ _)) as Hap.
    rewrite (Hap eq_refl) in H. injection H as <- <-. eauto.
  - discriminate H.
  - right. simpl in H.
    assert (Hreach : strictEqualsString x "default" = false →
                     reachesNumericStep x h).
    { intros Hd. split; [eauto | split; [| done]].
      exists (Own VUndefined). done. }
    destruct (strictEqualsString x "default") eqn:Ed.
    + left. injection H as <- <-.
      destruct x; try discriminate Ed. simpl in Ed.
      apply String.eqb_eq in Ed as ->. done.
    + right. specialize (Hreach eq_refl).
      apply bind_Ok in H as (faulty & h1 & Hnum & H).
      pose proof (isNumericalDefinition_readOnly _ _ _ _ Hnum) as ->.
      destruct faulty.
      * left. injection H as <- <-. done.
      * right. done.
Qed.

(** An option that is returned satisfies the normaliser's promise, and
    the store has only grown. *)
Lemma getOptionDefinition_step x h v h' :
  getOptionDefinition x h = (Ok v, h') →
  grows h h' ∧ (v = VUndefined ∨ normalizedOption h' v).
Proof.
  intros H.
  destruct (getOptionDefinition_Ok _ _ _ _ H)
    as [Hfull | [(title & key & classes & -> & ->)
       | [(-> & -> & ->) | [(_ & -> & -> & _) | [_ Hpix]]]]].
  - apply attachPriority_Ok in Hfull
      as (-> & l & o & lv & vo & -> & Ho & Hv & Hvo & Hcase).
    destruct Hcase as [[Hp ->] | [Hp ->]].
    + split; [apply grows_refl |]. right. left.
      exists (default VUndefined (vo !! "priority")), lv.
      rewrite (getProp_ref _ _ _ "view" Ho), Hv.
      by rewrite (getProp_ref _ _ _ "priority" Hvo).
    + split; [by apply grows_priority |]. right. left.
      exists (num 7), lv.
      pose proof (lookup_valid _ _ _ Hvo) as Hlv.
      assert (Hvo' : <[lv := <["priority" := num 7]> vo]> h !! lv
                     = Some (<["priority" := num 7]> vo))
        by by apply list_lookup_insert_eq.
      rewrite (getProp_ref _ _ _ "priority" Hvo'), lookup_insert_eq.
      split; [| done].
      destruct (decide (l = lv)) as [-> | Hne].
      * assert (o = vo) as -> by congruence.
        rewrite (getProp_ref _ _ _ "view" Hvo').
        rewrite lookup_insert_ne by done. by rewrite Hv.
      * assert (Ho' : <[lv := <["priority" := num 7]> vo]> h !! l = Some o)
          by by rewrite list_lookup_insert_ne.
        rewrite (getProp_ref _ _ _ "view" Ho'). by rewrite Hv.
  - split.
    + change [presetView classes; presetOption title key (VRef (length h))]
        with ([presetView classes]
              ++ [presetOption title key (VRef (length h))]).
      rewrite app_assoc.
      eapply grows_trans; apply grows_alloc; [by right | by left].
    + right. left. exists (num 7), (length h).
      rewrite (getProp_ref _ _ _ "view" (lookup_new1 _ _ _ _)).
      by rewrite (getProp_ref _ _ _ "priority" (lookup_new0 _ _ _)).
  - split; [apply grows_alloc; by left |].
    right. right. unfold defaultSentinel.
    by rewrite !(getProp_ref _ _ _ _ (lookup_new0 _ _ _)).
  - split; [apply grows_refl | by left].
  - assert (∃ l o h0, h0 !! l = Some o ∧ grows h h0 ∧ v = VRef l
                      ∧ h' = pixelHeap h0 l o) as
      (l & o & h0 & Ho & G0 & -> & ->).
    { apply generatePixelPreset_Ok in Hpix
        as [(_ & -> & ->) | (l & o & -> & Ho & -> & ->)].
      - exists (length h), (shortDefinition x), (h ++ [shortDefinition x]).
        split; [apply lookup_new0 |].
        split; [apply grows_alloc; by left | done].
      - exists l, o, h. split; [done |]. split; [apply grows_refl | done]. }
    split; [eapply grows_trans; [done | by apply grows_pixel] |].
    right. left. exists (num 7), (S (length h0)).
    pose proof (lookup_valid _ _ _ Ho) as Hl.
    assert (Hlen : length (h0 ++ [pixelStyles (default VUndefined
                                                 (o !! "model"));
                                  pixelView (VRef (length h0))])
                   = S (S (length h0)))
      by (rewrite length_app; simpl; lia).
    unfold pixelHeap.
    erewrite (getProp_ref _ l _ "view"); cycle 1.
    { rewrite list_lookup_insert_ne by lia.
      apply list_lookup_insert_eq. lia. }
    erewrite (getProp_ref _ (S (length h0)) _ "priority"); cycle 1.
    { apply list_lookup_insert_eq. rewrite length_insert. lia. }
    by rewrite !lookup_insert_eq.
Qed.

End Element.

(** ** The normalised list *)

Section Normalized.

Import Utils.

Implicit Types (h : Heap) (o : Obj) (l : nat) (k : string) (v x : Value).

Lemma grows_normalized h h' v :
  grows h h' → normalizedOption h v → normalizedOption h' v.
Proof.
  intros [K _] [(p & lv & Hview & Hprio & Hp) | (Hview & Hmodel & Htitle)].
  - apply getProp_Ok in Hview as [_ [(l & o & -> & Ho & Hv) | [_ [=]]]].
    apply getProp_ref_Ok in Hprio as (_ & vo & Hvo & ->).
    destruct (K _ _ Ho) as (o' & Ho' & _ & _ & Hv').
    left. destruct Hv' as [E | (lv' & vo' & E & _ & Hvo' & Hp')].
    + destruct (K _ _ Hvo) as (vo' & Hvo' & _ & Hp' & _).
      exists (default VUndefined (vo' !! "priority")), lv.
      rewrite (getProp_ref _ _ _ "view" Ho'), E, <- Hv.
      rewrite (getProp_ref _ _ _ "priority" Hvo').
      repeat split. destruct Hp' as [-> | ->]; done.
    + exists (num 7), lv'.
      rewrite (getProp_ref _ _ _ "view" Ho'), E.
      by rewrite (getProp_ref _ _ _ "priority" Hvo'), Hp'.
  - apply getProp_Ok in Htitle as [_ [(l & o & -> & Ho & Ht) | [_ [=]]]].
    apply getProp_ref_Ok in Hview as (_ & o1 & Ho1 & Hv).
    apply getProp_ref_Ok in Hmodel as (_ & o2 & Ho2 & Hm).
    assert (o1 = o) as -> by congruence.
    assert (o2 = o) as -> by congruence.
    destruct (K _ _ Ho) as (o' & Ho' & Hk & _ & Hv').
    destruct Hv' as [E | (lv' & vo' & E & _ & Hvo' & Hp')].
    + right. unfold defaultSentinel.
      rewrite !(getProp_ref _ _ _ _ Ho'), E, !Hk by done.
      by rewrite <- Hv, <- Hm, <- Ht.
    + left. exists (num 7), lv'.
      rewrite (getProp_ref _ _ _ "view" Ho'), E.
      by rewrite (getProp_ref _ _ _ "priority" Hvo'), Hp'.
Qed.

Lemma mapM_getOptionDefinition xs : ∀ h outs h',
  mapM getOptionDefinition xs h = (Ok outs, h') →
  grows h h'
  ∧ Forall (λ v, v = VUndefined ∨ normalizedOption h' v) outs.
Proof.
  induction xs as [|x xs IH]; intros h outs h' H; simpl in H.
  - apply ret_Ok in H as [<- <-]. split; [apply grows_refl | constructor].
  - apply bind_Ok in H as (y & h1 & Hy & H).
    apply bind_Ok in H as (ys & h2 & Hys & H).
    apply ret_Ok in H as [<- <-].
    apply getOptionDefinition_step in Hy as [G1 Hy].
    apply IH in Hys as [G2 Hys].
    split; [by eapply grows_trans |].
    constructor; [| done].
    destruct Hy as [-> | Hy]; [by left | right].
    by eapply grows_normalized.
Qed.

(** A set priority is 7 unless the view came with one. *)
Lemma prioritySet_origin h h' v p :
  grows h h' → prioritySet h' v p →
  ∃ lv, getProp v "view" h' = (Ok (VRef lv), h')
        ∧ getProp (VRef lv) "priority" h' = (Ok p, h')
        ∧ ToBoolean p = true
        ∧ (p = num 7 ∨ ∃ vo, h !! lv = Some vo ∧ vo !! "priority" = Some p).
Proof.
  intros [K N] (lv & Hview & Hprio & Hp).
  exists lv. repeat split; try done.
  apply getProp_ref_Ok in Hprio as (_ & vo' & Hvo' & ->).
  destruct (vo' !! "priority") as [p|] eqn:Ep; [| discriminate Hp].
  simpl in *.
  destruct (h !! lv) as [vo|] eqn:Hvo.
  - destruct (K _ _ Hvo) as (vo2 & Hvo2 & _ & Hp2 & _).
    assert (vo2 = vo') as -> by congruence.
    rewrite Ep in Hp2. destruct Hp2 as [E | [= ->]]; [right | by left].
    by exists vo.
  - left. apply lookup_ge_None in Hvo.
    destruct (N _ _ Hvo' Hvo) as [E | E]; congruence.
Qed.

(** C8.  Every option [normalizeOptions] returns either is the default
    sentinel (no view, no model, title 'Default') or has a view whose
    priority is set; a set priority is the constant 7 unless the view
    handed in already carried that priority, so a view that came without a
    priority ends with priority 7. *)
Theorem normalized_views_have_priority
    (configuredOptions : list Value) (h : Heap)
    (options : list Value) (h' : Heap) :
  normalizeOptions configuredOptions h = (Ok options, h') →
  Forall (λ option,
    defaultSentinel h' option
    ∨ ∃ lv p,
        getProp option "view" h' = (Ok (VRef lv), h')
        ∧ getProp (VRef lv) "priority" h' = (Ok p, h')
        ∧ ToBoolean p = true
        ∧ (p = num 7 ∨ ∃ vo, h !! lv = Some vo ∧ vo !! "priority" = Some p)
        ∧ (∀ vo, h !! lv = Some vo →
                 ToBoolean (default VUndefined (vo !! "priority")) = false →
                 p = num 7)) options.
Proof.
  unfold normalizeOptions. intros H.
  apply bind_Ok in H as (outs & h1 & Hmap & H).
  apply ret_Ok in H as [<- <-].
  apply mapM_getOptionDefinition in Hmap as [G Hall].
  apply Forall_forall. intros v Hv.
  apply list_elem_of_In, filter_In in Hv as [Hin Htruthy].
  rewrite Forall_forall in Hall.
  destruct (Hall v (proj2 (list_elem_of_In _ _) Hin))
    as [-> | [(p & Hset) | Hsent]]; [discriminate Htruthy | | by left].
  right.
  destruct (prioritySet_origin _ _ _ _ G Hset)
    as (lv & Hview & Hprio & Hp & Horigin).
  exists lv, p. repeat split; try done.
  intros vo Hvo Hfalsy.
  destruct Horigin as [-> | (vo' & Hvo' & Ep)]; [done |].
  assert (vo' = vo) as -> by congruence.
  rewrite Ep in Hfalsy. simpl in Hfalsy. congruence.
Qed.

End Normalized.

(** ** Configuration errors and dropped elements *)

Section Errors.

Import Utils.

Implicit Types (h : Heap) (o : Obj) (l : nat) (k : string) (v x : Value).

Lemma noConfigError_ret {A} (a : A) : noConfigError (ret a).
Proof. intros h name data h'. discriminate. Qed.

Lemma noConfigError_alloc o : noConfigError (alloc o).
Proof. intros h name data h'. discriminate. Qed.

Lemma noConfigError_getProp v k : noConfigError (getProp v k).
Proof.
  intros h name data h'. unfold getProp.
  destruct v; try discriminate. destruct (h !! l); discriminate.
Qed.

Lemma noConfigError_setProp v k x : noConfigError (setProp v k x).
Proof.
  intros h name data h'. unfold setProp.
  destruct v; try discriminate. destruct (h !! l); discriminate.
Qed.

Lemma noConfigError_bind {A B} (m : M A) (f : A → M B) :
  noConfigError m → (∀ a, noConfigError (f a)) → noConfigError (bind m f).
Proof.
  intros Hm Hf h name data h' H.
  apply bind_Throw in H as [H | (a & h1 & _ & H)].
  - by apply Hm in H.
  - by apply Hf in H.
Qed.

Lemma noConfigError_if {A} (b : bool) (m1 m2 : M A) :
  noConfigError m1 → noConfigError m2 → noConfigError (if b then m1 else m2).
Proof. by destruct b. Qed.

Ltac no_config_error :=
  repeat first
    [ apply noConfigError_if
    | apply noConfigError_bind; [| intros ?]
    | apply noConfigError_getProp
    | apply noConfigError_setProp
    | apply noConfigError_alloc
    | apply noConfigError_ret ].

Lemma isFullItemDefinition_noConfigError x :
  noConfigError (isFullItemDefinition x).
Proof. unfold isFullItemDefinition. no_config_error. Qed.

Lemma attachPriority_noConfigError x : noConfigError (attachPriority x).
Proof. unfold attachPriority. no_config_error. Qed.

Lemma generatePixelPreset_noConfigError x :
  noConfigError (generatePixelPreset x).
Proof.
  unfold generatePixelPreset, attachPriority. no_config_error.
Qed.

Lemma findPreset_noConfigError x : noConfigError (findPreset x).
Proof.
  intros h name data h' H.
  destruct (findPreset_cases _ _ _ _ H)
    as [(? & ? & ? & [=] & _) | [(? & [=] & _) | [[[=] _] | (e & [= <-] & ->)]]].
  unfold findPreset in H.
  apply bind_Throw in H as [H | (a & h1 & Ha & H)].
  - destruct (namedPresets_run (ToString x) h)
      as [(? & ? & E) | [E | E]]; congruence.
  - destruct (lookedTruthy a); [discriminate H |].
    apply bind_Throw in H as [H | (m & h2 & _ & H)].
    + by apply noConfigError_getProp in H.
    + destruct (namedPresets_run (ToString m) h2)
        as [(? & ? & E) | [E | E]]; congruence.
Qed.

(** Past the preset lookup, [getOptionDefinition] is the numeric test
    followed by the pixel preset. *)
Lemma getOptionDefinition_numeric x h :
  reachesNumericStep x h →
  getOptionDefinition x h =
    (let* faulty := isNumericalDefinition x in
     if faulty then ret VUndefined else generatePixelPreset x) h.
Proof.
  intros ((full & Hf & Ef) & (preset & Hp & Ep) & Hd).
  unfold getOptionDefinition.
  rewrite (bind_step _ _ _ _ _ Hf), Ef.
  rewrite (bind_step _ _ _ _ _ Hp), Ep, Hd. reflexivity.
Qed.

(** When the numeric test throws. *)
Lemma isNumericalDefinition_Throw x h e h' :
  isNumericalDefinition x h = (Throw e, h') →
  h' = h ∧ typeof x = "object"
  ∧ (getProp x "model" h = (Throw e, h)
     ∨ (∃ model, getProp x "model" h = (Ok model, h)
                 ∧ ToBoolean model = false
                 ∧ e = CKEditorError "font-style-invalid-definition"
                                     (DataValue x))).
Proof.
  intros H. pose proof (isNumericalDefinition_readOnly _ _ _ _ H) as ->.
  split; [done |]. unfold isNumericalDefinition in H.
  destruct (String.eqb (typeof x) "object") eqn:Et.
  - apply String.eqb_eq in Et. split; [done |].
    apply bind_Throw in H as [H | (? & ? & _ & [=])].
    apply bind_Throw in H as [H | (m & h1 & Hm & H)]; [by left |].
    pose proof (getProp_heap _ _ _ _ _ Hm) as ->.
    destruct (ToBoolean m) eqn:Em; [discriminate H |].
    injection H as <-. right. eauto.
  - apply bind_Throw in H as [[=] | (? & ? & _ & [=])].
Qed.

Lemma isNumericalDefinition_invalid x h model :
  typeof x = "object" → getProp x "model" h = (Ok model, h) →
  ToBoolean model = false →
  isNumericalDefinition x h =
    (Throw (CKEditorError "font-style-invalid-definition" (DataValue x)), h).
Proof.
  intros Ht Hm Hf. unfold isNumericalDefinition. rewrite Ht. simpl.
  unfold bind at 1. unfold bind at 1. rewrite Hm, Hf. reflexivity.
Qed.

Lemma isNumericalDefinition_primitive x h :
  typeof x ≠ "object" →
  isNumericalDefinition x h
    = (Ok (JS.isNaN (JS.parseFloat (ToString x))), h).
Proof.
  intros Ht. unfold isNumericalDefinition.
  destruct (String.eqb (typeof x) "object") eqn:Et;
    [by apply String.eqb_eq in Et | reflexivity].
Qed.

(** A [CKEditorError] of [getOptionDefinition] comes from the numeric
    test. *)
Lemma getOptionDefinition_CKEditorError x h name data h' :
  getOptionDefinition x h = (Throw (CKEditorError name data), h') →
  reachesNumericStep x h
  ∧ isNumericalDefinition x h = (Throw (CKEditorError name data), h').
Proof.
  unfold getOptionDefinition. intros H.
  apply bind_Throw in H as [H | (full & h1 & Hfull & H)];
    [by apply isFullItemDefinition_noConfigError in H |].
  pose proof (isFullItemDefinition_readOnly _ _ _ _ Hfull) as ->.
  destruct (ToBoolean full) eqn:Efull;
    [by apply attachPriority_noConfigError in H |].
  apply bind_Throw in H as [H | (preset & h1 & Hpreset & H)];
    [by apply findPreset_noConfigError in H |].
  destruct (lookedTruthy preset) eqn:Ep.
  { destruct preset; [by apply attachPriority_noConfigError in H |].
    discriminate H. }
  assert (h1 = h) as ->.
  { destruct (findPreset_cases _ _ _ _ Hpreset)
      as [(? & ? & ? & [= ->] & _) | [(? & _ & ->) | [[_ ->] | (e & _ & ->)]]];
      [discriminate Ep | done..]. }
  destruct (strictEqualsString x "default") eqn:Ed; [discriminate H |].
  assert (Hreach : reachesNumericStep x h).
  { split; [eauto | split; [eauto | done]]. }
  split; [done |].
  apply bind_Throw in H as [H | (faulty & h1 & Hnum & H)]; [done |].
  pose proof (isNumericalDefinition_readOnly _ _ _ _ Hnum) as ->.
  destruct faulty; [discriminate H |].
  by apply generatePixelPreset_noConfigError in H.
Qed.

End Errors.

Section InvalidDefinition.

Import Utils.

Lemma mapM_Throw {A B} (f : A → M B) (xs : list A) : ∀ h e h',
  mapM f xs h = (Throw e, h') ↔
  ∃ pre x post outs h1,
    xs = pre ++ x :: post ∧ mapM f pre h = (Ok outs, h1)
    ∧ f x h1 = (Throw e, h').
Proof.
  induction xs as [|x xs IH]; intros h e h'; simpl.
  - split; [discriminate |].
    intros (pre & y & post & _ & _ & E & _). by destruct pre.
  - split.
    + intros H. apply bind_Throw in H as [H | (y & h1 & Hy & H)].
      * exists [], x, xs, [], h. done.
      * apply bind_Throw in H as [H | (ys & h2 & _ & [=])].
        apply IH in H as (pre & z & post & outs & h2 & -> & Hpre & Hz).
        exists (x :: pre), z, post, (y :: outs), h2.
        split; [done |]. split; [| done]. simpl.
        rewrite (bind_step _ _ _ _ _ Hy), (bind_step _ _ _ _ _ Hpre). done.
    + intros (pre & z & post & outs & h1 & E & Hpre & Hz).
      destruct pre as [|p pre]; simpl in E; injection E as -> ->.
      * apply ret_Ok in Hpre as [_ <-]. unfold bind. by rewrite Hz.
      * simpl in Hpre.
        apply bind_Ok in Hpre as (y & h2 & Hy & Hpre).
        apply bind_Ok in Hpre as (ys & h3 & Hys & Hpre).
        apply ret_Ok in Hpre as [_ <-].
        rewrite (bind_step _ _ _ _ _ Hy).
        assert (Hrest : mapM f (pre ++ z :: post) h2 = (Throw e, h'))
          by (apply IH; eauto 10).
        unfold bind. by rewrite Hrest.
Qed.

Lemma normalizeOptions_singleton x h v h' :
  getOptionDefinition x h = (Ok v, h') →
  normalizeOptions [x] h = (Ok (List.filter ToBoolean [v]), h').
Proof.
  intros E. unfold normalizeOptions. simpl mapM.
  rewrite (bind_step _ _ _ _ _ (bind_step _ _ _ _ _ E)). reflexivity.
Qed.

(** A primitive that reaches the numeric test and does not parse is
    dropped. *)
Lemma getOptionDefinition_dropped x h :
  reachesNumericStep x h → typeof x ≠ "object" →
  JS.isNaN (JS.parseFloat (ToString x)) = true →
  getOptionDefinition x h = (Ok VUndefined, h).
Proof.
  intros Hreach Ht Hnan.
  rewrite (getOptionDefinition_numeric _ _ Hreach). unfold bind.
  by rewrite (isNumericalDefinition_primitive _ _ Ht), Hnan.
Qed.

(** C5, as amended.  [getOptionDefinition], and with it [normalizeOptions],
    throws the invalid-definition configuration error exactly for an
    element that reaches the numeric-detection step and is an object whose
    [model] is missing or falsy (undefined, null, false, 0, NaN or the empty
    string); no other configuration error is thrown.  An element that is
    not an object and fails numeric parsing is dropped without an error.
    [normalize([{ title: "X" }])] throws the error. *)
Theorem invalid_definition_iff :
  (∀ option h,
     (∃ h', getOptionDefinition option h =
              (Throw (CKEditorError "font-style-invalid-definition"
                                    (DataValue option)), h'))
     ↔ reachesNumericStep option h ∧ typeof option = "object"
       ∧ ∃ model, getProp option "model" h = (Ok model, h)
                  ∧ ToBoolean model = false)
  ∧ (∀ option h name data h',
       getOptionDefinition option h = (Throw (CKEditorError name data), h') →
       name = "font-style-invalid-definition" ∧ data = DataValue option
       ∧ h' = h)
  ∧ (∀ options h name data h',
       normalizeOptions options h = (Throw (CKEditorError name data), h')
       ↔ ∃ pre option post outs,
           options = pre ++ option :: post
           ∧ mapM getOptionDefinition pre h = (Ok outs, h')
           ∧ getOptionDefinition option h'
             = (Throw (CKEditorError name data), h'))
  ∧ (∀ option h,
       reachesNumericStep option h → typeof option ≠ "object" →
       JS.isNaN (JS.parseFloat (ToString option)) = true →
       getOptionDefinition option h = (Ok VUndefined, h)
       ∧ normalizeOptions [option] h = (Ok [], h))
  ∧ (let h : Heap := [ {[ "title" := VString "X" ]} ] in
     normalizeOptions [VRef 0] h =
       (Throw (CKEditorError "font-style-invalid-definition"
                             (DataValue (VRef 0))), h)).
Proof.
  assert (Helem : ∀ option h name data h',
    getOptionDefinition option h = (Throw (CKEditorError name data), h') →
    name = "font-style-invalid-definition" ∧ data = DataValue option
    ∧ h' = h ∧ reachesNumericStep option h ∧ typeof option = "object"
    ∧ ∃ model, getProp option "model" h = (Ok model, h)
               ∧ ToBoolean model = false).
  { intros option h name data h' H.
    apply getOptionDefinition_CKEditorError in H as [Hreach H].
    apply isNumericalDefinition_Throw in H
      as (-> & Ht & [H | (model & Hm & Hf & [= -> ->])]).
    - by apply noConfigError_getProp in H.
    - do 5 (split; [done |]). by exists model. }
  split; [| split; [| split; [| split]]].
  - intros option h. split.
    + intros [h' H].
      apply Helem in H as (_ & _ & _ & Hreach & Ht & Hm). done.
    + intros (Hreach & Ht & model & Hm & Hf). exists h.
      rewrite (getOptionDefinition_numeric _ _ Hreach).
      unfold bind.
      by rewrite (isNumericalDefinition_invalid _ _ _ Ht Hm Hf).
  - intros option h name data h' H.
    apply Helem in H as (-> & -> & -> & _). done.
  - intros options h name data h'. unfold normalizeOptions. split.
    + intros H. apply bind_Throw in H as [H | (? & ? & _ & [=])].
      apply mapM_Throw in H as (pre & x & post & outs & h1 & -> & Hpre & Hx).
      pose proof (Helem _ _ _ _ _ Hx) as (_ & _ & -> & _).
      exists pre, x, post, outs. done.
    + intros (pre & x & post & outs & -> & Hpre & Hx).
      assert (Hm : mapM getOptionDefinition (pre ++ x :: post) h
                   = (Throw (CKEditorError name data), h'))
        by (apply mapM_Throw; eauto 10).
      unfold bind. by rewrite Hm.
  - intros option h Hreach Ht Hnan.
    pose proof (getOptionDefinition_dropped _ _ Hreach Ht Hnan) as E.
    split; [done |]. by rewrite (normalizeOptions_singleton _ _ _ _ E).
  - by vm_compute.
Qed.

(** C5 fails as stated: an object that has a [model] field, here the
    number 0, reaches the numeric-detection step and makes
    [normalizeOptions] throw the invalid-definition error. *)
Lemma invalid_definition_with_model_field :
  let h : Heap := [ {[ "title" := VString "X"; "model" := num 0 ]} ] in
  (∃ o, h !! 0%nat = Some o ∧ o !! "model" = Some (num 0))
  ∧ reachesNumericStep (VRef 0) h
  ∧ normalizeOptions [VRef 0] h =
      (Throw (CKEditorError "font-style-invalid-definition"
                            (DataValue (VRef 0))), h).
Proof.
  split; [eexists; split; reflexivity |].
  split; [| by vm_compute].
  split; [| split; [| reflexivity]].
  - exists (num 0). split; by vm_compute.
  - exists (Own VUndefined). split; by vm_compute.
Qed.

End InvalidDefinition.

(** ** Pixel presets *)

Section Pixel.

Import Utils.

Implicit Types (h : Heap) (o : Obj) (l : nat) (k : string) (v x : Value).

(** The three objects [generatePixelPreset] leaves behind. *)
Lemma pixelHeap_lookups h l o :
  h !! l = Some o →
  pixelHeap h l o !! l = Some (<["view" := VRef (S (length h))]> o)
  ∧ pixelHeap h l o !! S (length h)
    = Some (<["priority" := num 7]> (pixelView (VRef (length h))))
  ∧ pixelHeap h l o !! length h
    = Some (pixelStyles (default VUndefined (o !! "model"))).
Proof.
  intros Ho. pose proof (lookup_valid _ _ _ Ho) as Hl. unfold pixelHeap.
  set (h2 := h ++ [pixelStyles (default VUndefined (o !! "model"));
                   pixelView (VRef (length h))]).
  assert (Hlen2 : length h2 = S (S (length h)))
    by (unfold h2; rewrite length_app; simpl; lia).
  split; [| split].
  - rewrite list_lookup_insert_ne by lia.
    apply list_lookup_insert_eq. lia.
  - apply list_lookup_insert_eq. rewrite length_insert. lia.
  - rewrite !list_lookup_insert_ne by lia. apply lookup_new0.
Qed.

(** The option and view [generatePixelPreset] produces from the object
    [o] at [l]. *)
Lemma pixelHeap_shape h l o :
  h !! l = Some o →
  let h' := pixelHeap h l o in
  let model := default VUndefined (o !! "model") in
  getProp (VRef l) "model" h' = (Ok model, h')
  ∧ getProp (VRef l) "title" h'
    = (Ok (default VUndefined (o !! "title")), h')
  ∧ getProp (VRef l) "view" h' = (Ok (VRef (S (length h))), h')
  ∧ getProp (VRef (S (length h))) "name" h' = (Ok (VString "span"), h')
  ∧ getProp (VRef (S (length h))) "styles" h'
    = (Ok (VRef (length h)), h')
  ∧ getProp (VRef (S (length h))) "priority" h' = (Ok (num 7), h')
  ∧ h' !! length h = Some (pixelStyles model).
Proof.
  intros Ho h' model.
  destruct (pixelHeap_lookups _ _ _ Ho) as (Hopt & Hview & Hstyles).
  fold h' in Hopt, Hview, Hstyles.
  rewrite !(getProp_ref _ _ _ _ Hopt), !(getProp_ref _ _ _ _ Hview).
  rewrite lookup_insert_eq, !(lookup_insert_ne _ "view") by done.
  done.
Qed.

(** C7, as amended.  For every element that reaches the pixel-synthesis
    step the option returned has as view a new wrapper element [span] whose
    styles map [font-style] to the option's model, with priority 7.  For a
    number or a string the option is new, its model is the leniently
    parsed number followed by "px" and its title the element's text; for
    an object the option is the object itself and its model and title are
    left as they were. *)
Theorem pixel_preset_shape (option : Value) (h : Heap) :
  reachesPixelStep option h →
  ∃ l lv ls model h',
    getOptionDefinition option h = (Ok (VRef l), h')
    ∧ getProp (VRef l) "model" h' = (Ok model, h')
    ∧ getProp (VRef l) "view" h' = (Ok (VRef lv), h')
    ∧ getProp (VRef lv) "name" h' = (Ok (VString "span"), h')
    ∧ getProp (VRef lv) "styles" h' = (Ok (VRef ls), h')
    ∧ getProp (VRef lv) "priority" h' = (Ok (num 7), h')
    ∧ h' !! ls = Some ({[ "font-style" := model ]} : Obj)
    ∧ (length h <= ls)%nat ∧ (length h <= lv)%nat
    ∧ (((typeof option = "number" ∨ typeof option = "string")
        ∧ l = length h
        ∧ model = VString
            (JS.Number_toString (JS.parseFloat (ToString option)) +:+ "px")
        ∧ getProp (VRef l) "title" h'
          = (Ok (VString (ToString option)), h'))
       ∨ (option = VRef l
          ∧ getProp option "model" h = (Ok model, h)
          ∧ ∃ title, getProp option "title" h = (Ok title, h)
                     ∧ getProp option "title" h' = (Ok title, h'))).
Proof.
  intros [Hreach Hnum].
  rewrite (getOptionDefinition_numeric _ _ Hreach).
  rewrite (bind_step _ _ _ _ _ Hnum).
  destruct (generatePixelPreset option h) as [[v|e] h'] eqn:Hpix.
  - apply generatePixelPreset_Ok in Hpix
      as [(Ht & -> & ->) | (l & o & -> & Ho & -> & ->)].
    + pose proof (pixelHeap_shape (h ++ [shortDefinition option]) (length h)
                    (shortDefinition option) (lookup_new0 _ _ _))
        as (Hm & Htitle & Hv & Hn & Hs & Hp & Hst).
      rewrite length_app in *. simpl length in *.
      eexists (length h), _, _, _, _. split; [reflexivity |].
      do 6 (split; [eassumption |]). split; [lia |]. split; [lia |].
      left. split; [done |]. split; [done |]. split; [reflexivity |].
      exact Htitle.
    + pose proof (pixelHeap_shape _ _ _ Ho)
        as (Hm & Htitle & Hv & Hn & Hs & Hp & Hst).
      eexists l, _, _, _, _. split; [reflexivity |].
      do 6 (split; [eassumption |]). split; [lia |]. split; [lia |].
      right. split; [done |].
      rewrite !(getProp_ref _ _ _ _ Ho). split; [done |].
      eexists. split; [reflexivity | exact Htitle].
  - exfalso. destruct option as [| |b|n|s|l].
    + destruct Hreach as (_ & (preset & Hp & _) & _). discriminate Hp.
    + destruct Hreach as ((full & Hf & _) & _). discriminate Hf.
    + destruct b; discriminate Hnum.
    + rewrite generatePixelPreset_short in Hpix by auto. discriminate Hpix.
    + rewrite generatePixelPreset_short in Hpix by auto. discriminate Hpix.
    + destruct (h !! l) as [o|] eqn:Ho.
      * rewrite (generatePixelPreset_object _ _ _ Ho) in Hpix.
        discriminate Hpix.
      * unfold isNumericalDefinition, bind in Hnum. simpl in Hnum.
        rewrite Ho in Hnum. discriminate Hnum.
Qed.

End Pixel.

Lemma pixel_preset_shape_witness :
  let h : Heap := [ {[ "title" := VString "Big"; "model" := VString "14px" ]} ] in
  reachesPixelStep (VRef 0) h
  ∧ ∃ l lv ls model h',
      Utils.getOptionDefinition (VRef 0) h = (Ok (VRef l), h')
      ∧ getProp (VRef l) "model" h' = (Ok model, h')
      ∧ getProp (VRef l) "view" h' = (Ok (VRef lv), h')
      ∧ getProp (VRef lv) "name" h' = (Ok (VString "span"), h')
      ∧ getProp (VRef lv) "styles" h' = (Ok (VRef ls), h')
      ∧ getProp (VRef lv) "priority" h' = (Ok (num 7), h')
      ∧ h' !! ls = Some ({[ "font-style" := model ]} : Obj)
      ∧ (length h <= ls)%nat ∧ (length h <= lv)%nat
      ∧ (((typeof (VRef 0) = "number" ∨ typeof (VRef 0) = "string")
          ∧ l = length h
          ∧ model = VString
              (JS.Number_toString (JS.parseFloat (ToString (VRef 0)))
               +:+ "px")
          ∧ getProp (VRef l) "title" h'
            = (Ok (VString (ToString (VRef 0))), h'))
         ∨ (VRef 0 = VRef l
            ∧ getProp (VRef 0) "model" h = (Ok model, h)
            ∧ ∃ title, getProp (VRef 0) "title" h = (Ok title, h)
                       ∧ getProp (VRef 0) "title" h' = (Ok title, h'))).
Proof.
  intros h.
  assert (Hreach : reachesPixelStep (VRef 0) h).
  { split; [split; [| split; [| reflexivity]] | vm_compute; reflexivity].
    - exists VUndefined. split; vm_compute; reflexivity.
    - exists (Utils.Own VUndefined). split; vm_compute; reflexivity. }
  split; [exact Hreach |].
  exact (pixel_preset_shape (VRef 0) h Hreach).
Defined.

(** C7 fails as stated: the partial object [{ title: 'Big', model: '14' }]
    has a numeric-like model and reaches the pixel-synthesis step, and the
    option returned keeps the model ['14'], which is not ['14px']. *)
Lemma pixel_preset_keeps_object_model :
  let h : Heap := [ {[ "title" := VString "Big"; "model" := VString "14" ]} ] in
  reachesPixelStep (VRef 0) h
  ∧ JS.parseFloat "14" = JS.ofZ 14
  ∧ ∃ h', Utils.getOptionDefinition (VRef 0) h = (Ok (VRef 0), h')
          ∧ getProp (VRef 0) "model" h' = (Ok (VString "14"), h')
          ∧ VString "14"
            ≠ VString (JS.Number_toString (JS.parseFloat "14") +:+ "px").
Proof.
  intros h. split; [| split; [reflexivity |]].
  - split; [split; [| split; [| reflexivity]] | vm_compute; reflexivity].
    + exists VUndefined. split; vm_compute; reflexivity.
    + exists (Utils.Own VUndefined). split; vm_compute; reflexivity.
  - exists (Utils.getOptionDefinition (VRef 0) h).2.
    split; [vm_compute; reflexivity |].
    split; [vm_compute; reflexivity | discriminate].
Qed.

(** ** Numeric synthesis *)

Section Numeric.

Import Utils.



End Numeric.

(** ** Named presets *)

Section Presets.

Import Utils.

Implicit Types (h : Heap) (o : Obj) (l : nat) (k : string) (v x : Value).

Lemma attachPriority_preset key title classes h :
  attachPriority (VRef (S (length h)))
    (h ++ [ presetView classes; presetOption title key (VRef (length h)) ])
  = (Ok (VRef (S (length h))),
     h ++ [ presetView classes; presetOption title key (VRef (length h)) ]).
Proof.
  eapply attachPriority_set.
  - apply lookup_new1.
  - apply presetOption_view.
  - apply lookup_new0.
  - reflexivity.
Qed.

(** A preset name yields a new view object and a new option object. *)
Lemma getOptionDefinition_preset key title classes h :
  namedPresets key h =
    (Ok (Own (VRef (S (length h)))),
     h ++ [ presetView classes; presetOption title key (VRef (length h)) ]) →
  getOptionDefinition (VString key) h =
    (Ok (VRef (S (length h))),
     h ++ [ presetView classes; presetOption title key (VRef (length h)) ]).
Proof.
  intros E. unfold getOptionDefinition.
  rewrite (bind_step _ _ _ (VBool false) h eq_refl). cbv iota beta.
  change (ToBoolean (VBool false)) with false. cbv iota.
  assert (Ef : findPreset (VString key) h =
    (Ok (Own (VRef (S (length h)))),
     h ++ [ presetView classes; presetOption title key (VRef (length h)) ])).
  { unfold findPreset. change (ToString (VString key)) with key.
    by rewrite (bind_step _ _ _ _ _ E). }
  rewrite (bind_step _ _ _ _ _ Ef).
  change (lookedTruthy (Own (VRef (S (length h))))) with true. cbv iota.
  apply attachPriority_preset.
Qed.

Lemma normalizeOptions_tiny h :
  normalizeOptions [VString "tiny"] h =
    (Ok [VRef (S (length h))],
     h ++ [ presetView "text-tiny";
            presetOption "Tiny" "tiny" (VRef (length h)) ]).
Proof.
  apply (normalizeOptions_singleton _ _ (VRef (S (length h)))).
  apply getOptionDefinition_preset.
  unfold namedPresets. simpl. unfold bind. by rewrite presetGetter_run.
Qed.

Lemma normalizeOptions_small h :
  normalizeOptions [VString "small"] h =
    (Ok [VRef (S (length h))],
     h ++ [ presetView "text-small";
            presetOption "Small" "small" (VRef (length h)) ]).
Proof.
  apply (normalizeOptions_singleton _ _ (VRef (S (length h)))).
  apply getOptionDefinition_preset.
  unfold namedPresets. simpl. unfold bind. by rewrite presetGetter_run.
Qed.

(** C9.  Two calls [normalize(["tiny"])] return two different option
    objects with two different view objects, all four of them new; the
    views hold no further object.  Assigning the [title] of the first
    result leaves the second result's title 'Tiny', and a later call still
    returns a new option titled 'Tiny'. *)
Theorem clone_isolation (h : Heap) (newTitle : Value) :
  ∃ l1 l2 lv1 lv2 h1 h2 h3,
    normalizeOptions [VString "tiny"] h = (Ok [VRef l1], h1)
    ∧ normalizeOptions [VString "tiny"] h1 = (Ok [VRef l2], h2)
    ∧ getProp (VRef l1) "view" h2 = (Ok (VRef lv1), h2)
    ∧ getProp (VRef l2) "view" h2 = (Ok (VRef lv2), h2)
    ∧ NoDup [l1; lv1; l2; lv2]
    ∧ Forall (λ l, (length h <= l)%nat) [l1; lv1; l2; lv2]
    ∧ h2 !! lv1 = Some (presetView "text-tiny")
    ∧ h2 !! lv2 = Some (presetView "text-tiny")
    ∧ setProp (VRef l1) "title" newTitle h2 = (Ok (), h3)
    ∧ getProp (VRef l1) "title" h3 = (Ok newTitle, h3)
    ∧ getProp (VRef l2) "title" h3 = (Ok (VString "Tiny"), h3)
    ∧ h3 !! l2 = h2 !! l2 ∧ h3 !! lv2 = h2 !! lv2
    ∧ ∃ l3 h4,
        normalizeOptions [VString "tiny"] h3 = (Ok [VRef l3], h4)
        ∧ l3 ≠ l1 ∧ l3 ≠ l2
        ∧ getProp (VRef l3) "title" h4 = (Ok (VString "Tiny"), h4).
Proof.
  set (v := presetView "text-tiny").
  set (o1 := presetOption "Tiny" "tiny" (VRef (length h))).
  set (h1 := h ++ [v; o1]).
  assert (Hlen1 : length h1 = S (S (length h)))
    by (unfold h1; rewrite length_app; simpl; lia).
  set (o2 := presetOption "Tiny" "tiny" (VRef (length h1))).
  set (h2 := h1 ++ [v; o2]).
  assert (Hlen2 : length h2 = S (S (length h1)))
    by (unfold h2; rewrite length_app; simpl; lia).
  assert (Ho1 : h2 !! S (length h) = Some o1)
    by (apply lookup_old, lookup_new1).
  assert (Hv1 : h2 !! length h = Some v)
    by (apply lookup_old, lookup_new0).
  assert (Ho2 : h2 !! S (length h1) = Some o2) by apply lookup_new1.
  assert (Hv2 : h2 !! length h1 = Some v) by apply lookup_new0.
  set (h3 := <[S (length h) := <["title" := newTitle]> o1]> h2).
  assert (Hlen3 : length h3 = length h2) by apply length_insert.
  exists (S (length h)), (S (length h1)), (length h), (length h1), h1, h2, h3.
  split; [apply normalizeOptions_tiny |].
  split; [apply normalizeOptions_tiny |].
  split; [by rewrite (getProp_ref _ _ _ "view" Ho1) |].
  split; [by rewrite (getProp_ref _ _ _ "view" Ho2) |].
  split.
  { rewrite Hlen1.
    repeat (apply NoDup_cons; split;
            [rewrite ?elem_of_cons, elem_of_nil; lia |]).
    apply NoDup_nil_2. }
  split; [rewrite Hlen1; repeat constructor; lia |].
  split; [done |]. split; [done |].
  split; [by apply setProp_ref |].
  assert (Ho1' : h3 !! S (length h) = Some (<["title" := newTitle]> o1))
    by (apply list_lookup_insert_eq; lia).
  assert (Ho2' : h3 !! S (length h1) = Some o2)
    by (unfold h3; rewrite list_lookup_insert_ne by lia; done).
  split; [by rewrite (getProp_ref _ _ _ "title" Ho1'), lookup_insert_eq |].
  split; [by rewrite (getProp_ref _ _ _ "title" Ho2') |].
  split; [by rewrite Ho2', Ho2 |].
  split; [unfold h3; by rewrite list_lookup_insert_ne by lia |].
  eexists (S (length h3)), _.
  split; [apply normalizeOptions_tiny |].
  split; [lia |]. split; [lia |].
  by rewrite (getProp_ref _ _ _ "title" (lookup_new1 _ _ _ _)).
Qed.

End Presets.

(** ** Running [init] *)

Section Init.

Import Utils Editing.

Variables isLength isPercentage : string → bool.

Implicit Types (h : Heap) (o : Obj) (l : nat) (k : string) (v x : Value).

Lemma normalizedOption_ref h v :
  normalizedOption h v → ∃ l o, v = VRef l ∧ h !! l = Some o.
Proof.
  intros [(p & lv & Hview & _) | (_ & _ & Htitle)].
  - apply getProp_Ok in Hview as [_ [(l & o & -> & Ho & _) | [_ [=]]]]. eauto.
  - apply getProp_Ok in Htitle as [_ [(l & o & -> & Ho & _) | [_ [=]]]]. eauto.
Qed.

Lemma propAt_ref h l o k :
  h !! l = Some o → getProp (VRef l) k h = (Ok (propAt h k (VRef l)), h).
Proof.
  intros Ho. unfold propAt. by rewrite (getProp_ref _ _ _ k Ho).
Qed.

(** Every option [normalizeOptions] returns is an object of the store. *)
Lemma normalizeOptions_refs xs h out h' :
  normalizeOptions xs h = (Ok out, h') →
  Forall (λ v, ∃ l o, v = VRef l ∧ h' !! l = Some o) out.
Proof.
  unfold normalizeOptions. intros H.
  apply bind_Ok in H as (outs & h1 & Hmap & H).
  apply ret_Ok in H as [<- <-].
  apply mapM_getOptionDefinition in Hmap as [_ Hall].
  apply Forall_forall. intros v Hv.
  apply list_elem_of_In, filter_In in Hv as [Hin Htruthy].
  rewrite Forall_forall in Hall.
  destruct (Hall v (proj2 (list_elem_of_In _ _) Hin)) as [-> | Hn];
    [discriminate Htruthy |].
  by apply normalizedOption_ref.
Qed.

Lemma filterM_models out : ∀ h,
  Forall (λ v, ∃ l o, v = VRef l ∧ h !! l = Some o) out →
  filterM (λ item, let* model := getProp item "model" in
                   ret (ToBoolean model)) out h
  = (Ok (definedModels h out), h).
Proof.
  induction out as [|v out IH]; intros h Hall; [done |].
  apply Forall_cons in Hall as [(l & o & -> & Ho) Hall].
  simpl filterM.
  rewrite (bind_step _ _ _ (ToBoolean (modelAt h (VRef l))) h).
  - rewrite (bind_step _ _ _ _ _ (IH h Hall)). reflexivity.
  - unfold modelAt. by rewrite (bind_step _ _ _ _ _ (propAt_ref _ _ _ _ Ho)).
Qed.

Lemma mapM_getProp k opts : ∀ h,
  Forall (λ v, ∃ l o, v = VRef l ∧ h !! l = Some o) opts →
  mapM (λ item, getProp item k) opts h = (Ok (propAt h k <$> opts), h).
Proof.
  induction opts as [|v opts IH]; intros h Hall; [done |].
  apply Forall_cons in Hall as [(l & o & -> & Ho) Hall].
  simpl mapM.
  rewrite (bind_step _ _ _ _ _ (propAt_ref _ _ _ k Ho)).
  rewrite (bind_step _ _ _ _ _ (IH h Hall)). reflexivity.
Qed.

Lemma definedModels_refs h out :
  Forall (λ v, ∃ l o, v = VRef l ∧ h !! l = Some o) out →
  Forall (λ v, ∃ l o, v = VRef l ∧ h !! l = Some o) (definedModels h out).
Proof.
  rewrite !Forall_forall. intros Hall v Hv.
  apply list_elem_of_In, filter_In in Hv as [Hin _].
  by apply Hall, list_elem_of_In.
Qed.

(** [init], once normalisation has returned. *)
Lemma init_run options supportAllValues h out h1 :
  normalizeOptions options h = (Ok out, h1) →
  init isLength isPercentage (newEditor options supportAllValues) h =
    (if supportAllValues then
       match _prepareAnyValueConverters isLength isPercentage
               (definitionOf h1 out)
               (schemaEditor options supportAllValues) with
       | Ok editor =>
           Ok (add_command FONT_STYLE FONT_STYLE
                 (_prepareCompatibilityConverter editor))
       | Throw e => Throw e
       end
     else
       Ok (add_command FONT_STYLE FONT_STYLE
             (add_converter (AttributeToElement (definitionOf h1 out))
                (schemaEditor options supportAllValues))),
     h1).
Proof.
  intros Hnorm. pose proof (normalizeOptions_refs _ _ _ _ Hnorm) as Hrefs.
  pose proof (definedModels_refs _ _ Hrefs) as Hkept.
  unfold init. cbn [config_options config_supportAllValues add_schema
                    newEditor].
  rewrite (bind_step _ _ _ _ _ Hnorm).
  rewrite (bind_step _ _ _ _ _ (filterM_models _ _ Hrefs)).
  assert (Hbuild : buildDefinition FONT_STYLE (definedModels h1 out) h1
                   = (Ok (definitionOf h1 out), h1)).
  { unfold buildDefinition.
    rewrite (bind_step _ _ _ _ _ (mapM_getProp "model" _ _ Hkept)).
    rewrite (bind_step _ _ _ _ _ (mapM_getProp "view" _ _ Hkept)).
    reflexivity. }
  rewrite (bind_step _ _ _ _ _ Hbuild).
  destruct supportAllValues; [| reflexivity].
  unfold schemaEditor, add_schema, newEditor. simpl.
  destruct (_prepareAnyValueConverters _ _ _ _); reflexivity.
Qed.

Lemma definitionOf_values h out :
  Forall (λ m, ToBoolean m = true ∧ m ≠ VUndefined)
         (model_values (definitionOf h out)).
Proof.
  unfold definitionOf, definedModels. simpl.
  apply Forall_forall. intros m Hm.
  apply list_elem_of_fmap in Hm as (o & -> & Ho).
  apply list_elem_of_In, filter_In in Ho as [_ Ht].
  split; [done |]. intros E. by rewrite E in Ht.
Qed.

End Init.

(** ** The permissive mode *)

Section Permissive.

Import Utils Editing.

Variables isLength isPercentage : string → bool.

Lemma filter_nil_iff {A} (f : A → bool) (l : list A) :
  List.filter f l = [] ↔ ∀ x, In x l → f x = false.
Proof.
  induction l as [|a l IH]; simpl; [naive_solver |].
  destruct (f a) eqn:Ea; split.
  - discriminate.
  - intros H. specialize (H a (or_introl eq_refl)). congruence.
  - intros H x [<- | Hx]; [done | by apply IH].
  - intros H. apply IH. auto.
Qed.

Lemma isNamedPreset_true (value : Value) :
  isNamedPreset isLength isPercentage value = true ↔
  isLength (ToString value) = false ∧ isPercentage (ToString value) = false.
Proof.
  unfold isNamedPreset. rewrite andb_true_iff, !negb_true_iff. done.
Qed.

Lemma isNamedPreset_false (value : Value) :
  isNamedPreset isLength isPercentage value = false ↔
  isLength (ToString value) = true ∨ isPercentage (ToString value) = true.
Proof.
  unfold isNamedPreset. rewrite andb_false_iff, !negb_false_iff. done.
Qed.

Lemma filter_sublist {A} (f : A → bool) (l : list A) :
  sublist (List.filter f l) l.
Proof.
  induction l as [|a l IH]; simpl; [constructor |].
  destruct (f a); by constructor.
Qed.

Lemma prepareAnyValueConverters_Throw definition editor :
  List.filter (isNamedPreset isLength isPercentage) (model_values definition)
    ≠ [] →
  _prepareAnyValueConverters isLength isPercentage definition editor =
    Throw (CKEditorError "font-style-invalid-use-of-named-presets"
             (DataPresets
                (List.filter (isNamedPreset isLength isPercentage)
                             (model_values definition)))).
Proof.
  intros Hne. unfold _prepareAnyValueConverters.
  destruct (List.filter _ _) as [|p ps]; [done | reflexivity].
Qed.

Lemma prepareAnyValueConverters_accepts definition editor :
  (∀ value, In value (model_values definition) →
            isLength (ToString value) = true
            ∨ isPercentage (ToString value) = true) →
  ∃ editor',
    _prepareAnyValueConverters isLength isPercentage definition editor
      = Ok editor'.
Proof.
  intros Hall. unfold _prepareAnyValueConverters.
  replace (List.filter (isNamedPreset isLength isPercentage)
             (model_values definition)) with (@nil Value); [simpl; eauto |].
  symmetry. apply filter_nil_iff. intros v Hv.
  apply isNamedPreset_false. auto.
Qed.

(** C3.  With [supportAllValues] true, building the rule set throws the
    named-presets configuration error whenever some configured model is
    neither a length nor a percentage, and the payload is the list of
    exactly those models, in order; when every model is a length or a
    percentage, building succeeds.  For host predicates that reject
    "small", [init] over the options ["small"] throws the error with
    payload ["small"]. *)
Theorem permissive_mode_rejects_named_presets :
  (∀ (definition : ConverterDefinition) (editor : Editor),
     (∃ value, In value (model_values definition)
               ∧ isLength (ToString value) = false
               ∧ isPercentage (ToString value) = false) →
     ∃ presets,
       _prepareAnyValueConverters isLength isPercentage definition editor
         = Throw (CKEditorError "font-style-invalid-use-of-named-presets"
                                (DataPresets presets))
       ∧ presets ≠ []
       ∧ sublist presets (model_values definition)
       ∧ ∀ value, In value presets ↔
                   In value (model_values definition)
                   ∧ isLength (ToString value) = false
                   ∧ isPercentage (ToString value) = false)
  ∧ (∀ (definition : ConverterDefinition) (editor : Editor),
       (∀ value, In value (model_values definition) →
                 isLength (ToString value) = true
                 ∨ isPercentage (ToString value) = true) →
       ∃ editor',
         _prepareAnyValueConverters isLength isPercentage definition editor
           = Ok editor')
  ∧ (isLength "small" = false → isPercentage "small" = false →
     ∀ h, ∃ h',
       init isLength isPercentage (newEditor [VString "small"] true) h
       = (Throw (CKEditorError "font-style-invalid-use-of-named-presets"
                               (DataPresets [VString "small"])), h')).
Proof.
  split; [| split].
  - intros definition editor (value & Hin & Hl & Hp).
    exists (List.filter (isNamedPreset isLength isPercentage)
              (model_values definition)).
    assert (Hf : ∀ v,
      In v (List.filter (isNamedPreset isLength isPercentage)
              (model_values definition)) ↔
      In v (model_values definition)
      ∧ isLength (ToString v) = false ∧ isPercentage (ToString v) = false).
    { intros v. by rewrite filter_In, isNamedPreset_true. }
    assert (Hne : List.filter (isNamedPreset isLength isPercentage)
                    (model_values definition) ≠ []).
    { intros E. assert (Hv := proj2 (Hf value) (conj Hin (conj Hl Hp))).
      rewrite E in Hv. destruct Hv. }
    split; [by apply prepareAnyValueConverters_Throw |].
    split; [done |]. split; [apply filter_sublist | done].
  - apply prepareAnyValueConverters_accepts.
  - intros Hl Hp h. eexists.
    rewrite (init_run _ _ _ _ _ _ _ (normalizeOptions_small h)).
    f_equal.
    assert (Hm : modelAt
                   (h ++ [ presetView "text-small";
                           presetOption "Small" "small" (VRef (length h)) ])
                   (VRef (S (length h))) = VString "small").
    { unfold modelAt, propAt.
      by rewrite (getProp_ref _ _ _ "model" (lookup_new1 _ _ _ _)). }
    assert (Hv : model_values
                   (definitionOf
                      (h ++ [ presetView "text-small";
                              presetOption "Small" "small"
                                (VRef (length h)) ])
                      [VRef (S (length h))]) = [VString "small"]).
    { unfold definitionOf, definedModels. cbn [List.filter model_values].
      rewrite Hm. simpl. by rewrite Hm. }
    rewrite prepareAnyValueConverters_Throw; rewrite Hv; simpl;
      unfold isNamedPreset; simpl; rewrite Hl, Hp; done.
Qed.

(** C4.  Once the permissive converters are registered, the downcast
    converter renders every truthy (non-empty) canonical value as a [span]
    carrying [style="font-style:<value>"] at priority 7 and renders an
    empty or absent value as nothing; the upcast converter reads every
    [span] carrying a [font-style] style back as that raw style value,
    whatever the configured options are. *)
Theorem permissive_converters
    (definition : ConverterDefinition) (editor editor' : Editor) :
  _prepareAnyValueConverters isLength isPercentage definition editor
    = Ok editor' →
  ∃ down up,
    conversion editor' = conversion editor ++ [down; up]
    ∧ (∀ value, ToBoolean value = true →
         downcast down value =
           Some {| ae_name := "span";
                   ae_attributes :=
                     [("style", "font-style:" +:+ ToString value)];
                   ae_priority := 7 |})
    ∧ (∀ s, s ≠ EmptyString →
         downcast down (VString s) =
           Some {| ae_name := "span";
                   ae_attributes := [("style", "font-style:" +:+ s)];
                   ae_priority := 7 |})
    ∧ (∀ value, ToBoolean value = false → downcast down value = None)
    ∧ downcast down (VString "") = None
    ∧ downcast down VUndefined = None
    ∧ (∀ e raw,
         ve_name e = "span" → getStyle e "font-style" = Some raw →
         upcast up e = Some (FONT_STYLE, Ok (VString raw)))
    ∧ (∀ e, getStyle e "font-style" = None → upcast up e = None).
Proof.
  intros H. apply prepareAnyValueConverters_Ok in H.
  eexists _, _. split; [exact H |].
  split; [| split; [| split; [| split; [| split; [| split]]]]].
  - intros value Ht. simpl. unfold anyValueDowncastView. by rewrite Ht.
  - intros s Hs. simpl. unfold anyValueDowncastView. simpl.
    destruct s; [done | reflexivity].
  - intros value Hf. simpl. unfold anyValueDowncastView. by rewrite Hf.
  - reflexivity.
  - reflexivity.
  - intros e raw Hn Hs. unfold upcast, matches, anyValueUpcastValue.
    simpl. rewrite Hn, Hs. reflexivity.
  - intros e Hs. unfold upcast, matches. simpl. rewrite Hs.
    by rewrite andb_false_r.
Qed.

End Permissive.

(** ** The default sentinel and the rule builder *)

Section Sentinel.

Import Utils Editing.

Variables isLength isPercentage : string → bool.

(** C10.  [init] keeps of the normalised options those whose model is
    defined (truthy) and builds the definition from them: every model value
    the rule builder and the permissive check see is truthy, so never the
    undefined model of the default sentinel, which is dropped.  With
    [supportAllValues] false the definition registered is that one; with
    [supportAllValues] true the permissive check runs on that one, hence
    [init] succeeds as soon as every option with a defined model has a
    length or a percentage as model, whether or not a default sentinel is
    among the options. *)
Theorem default_sentinel_not_checked
    (options : list Value) (supportAllValues : bool) (h : Heap)
    (normalized : list Value) (h1 : Heap) :
  normalizeOptions options h = (Ok normalized, h1) →
  let definition := definitionOf h1 normalized in
  model_values definition
    = modelAt h1 <$> List.filter (λ o, ToBoolean (modelAt h1 o)) normalized
  ∧ Forall (λ m, ToBoolean m = true ∧ m ≠ VUndefined)
           (model_values definition)
  ∧ (∀ o, In o normalized → defaultSentinel h1 o →
          modelAt h1 o = VUndefined
          ∧ ¬ In o (List.filter (λ o, ToBoolean (modelAt h1 o)) normalized))
  ∧ (supportAllValues = false →
     ∃ editor,
       init isLength isPercentage (newEditor options supportAllValues) h
         = (Ok editor, h1)
       ∧ conversion editor = [ AttributeToElement definition ])
  ∧ (supportAllValues = true →
     ∃ editor0,
       init isLength isPercentage (newEditor options supportAllValues) h
       = (match _prepareAnyValueConverters isLength isPercentage
                  definition editor0 with
          | Ok editor =>
              Ok (add_command FONT_STYLE FONT_STYLE
                    (_prepareCompatibilityConverter editor))
          | Throw e => Throw e
          end, h1))
  ∧ (supportAllValues = true →
     (∀ o, In o normalized →
           ToBoolean (modelAt h1 o) = false
           ∨ isLength (ToString (modelAt h1 o)) = true
           ∨ isPercentage (ToString (modelAt h1 o)) = true) →
     ∃ editor,
       init isLength isPercentage (newEditor options supportAllValues) h
         = (Ok editor, h1)).
Proof.
  intros Hnorm definition.
  pose proof (init_run isLength isPercentage options supportAllValues
                _ _ _ Hnorm) as Hinit.
  fold definition in Hinit.
  split; [reflexivity |].
  split; [apply definitionOf_values |].
  split; [| split; [| split]].
  - intros o Hin (_ & Hmodel & _).
    assert (Hm : modelAt h1 o = VUndefined)
      by (unfold modelAt, propAt; by rewrite Hmodel).
    split; [done |]. intros Hf. apply filter_In in Hf as [_ Ht].
    by rewrite Hm in Ht.
  - intros ->. eexists. split; [exact Hinit |]. reflexivity.
  - intros ->. eexists. exact Hinit.
  - intros -> Hall.
    destruct (prepareAnyValueConverters_accepts isLength isPercentage
                definition (schemaEditor options true)) as [editor' E].
    { intros m Hm. unfold definition, definitionOf in Hm. simpl in Hm.
      apply list_elem_of_In, list_elem_of_fmap in Hm as (o & -> & Ho).
      apply list_elem_of_In, filter_In in Ho as [Hin Ht].
      destruct (Hall o Hin) as [Hf | Hlp]; [congruence | done]. }
    rewrite E in Hinit. eauto.
Qed.

End Sentinel.

Lemma default_sentinel_not_checked_witness :
  let options := [num 9; num 10; num 11; VString "default"; num 14] in
  let run := Utils.normalizeOptions options [] in
  let normalized := valueOf [] run.1 in
  let h1 := run.2 in
  run = (Ok normalized, h1)
  ∧ (In (VRef 9) normalized ∧ h1 !! 9%nat = Some Utils.defaultOption)
  ∧ Editing.isNamedPreset Editing.sampleIsLength
      Editing.sampleIsPercentage VUndefined = true
  ∧ (∀ o, In o normalized →
          ToBoolean (modelAt h1 o) = false
          ∨ Editing.sampleIsLength (ToString (modelAt h1 o)) = true
          ∨ Editing.sampleIsPercentage (ToString (modelAt h1 o)) = true)
  ∧ ∃ editor,
      Editing.init Editing.sampleIsLength Editing.sampleIsPercentage
        (Editing.newEditor options true) [] = (Ok editor, h1).
Proof.
  intros options run normalized h1.
  assert (E : run = (Ok normalized, h1))
    by (apply isOk_run; vm_compute; reflexivity).
  assert (Hb : forallb
            (λ o, negb (ToBoolean (modelAt h1 o))
                  || Editing.sampleIsLength (ToString (modelAt h1 o))
                  || Editing.sampleIsPercentage (ToString (modelAt h1 o)))
            normalized = true)
    by (vm_compute; reflexivity).
  assert (Hall : ∀ o, In o normalized →
            ToBoolean (modelAt h1 o) = false
            ∨ Editing.sampleIsLength (ToString (modelAt h1 o)) = true
            ∨ Editing.sampleIsPercentage (ToString (modelAt h1 o)) = true).
  { intros o Hin. apply (proj1 (forallb_forall _ _) Hb) in Hin.
    apply orb_true_iff in Hin as [Hin | Hin]; [| auto].
    apply orb_true_iff in Hin as [Hin | Hin]; [| auto].
    apply negb_true_iff in Hin. auto. }
  split; [exact E |].
  split.
  { split; [vm_compute; auto 10 | vm_compute; reflexivity]. }
  split; [reflexivity |]. split; [exact Hall |].
  exact (proj2 (proj2 (proj2 (proj2 (proj2
           (default_sentinel_not_checked Editing.sampleIsLength
              Editing.sampleIsPercentage options true [] normalized h1 E)))))
           eq_refl Hall).
Defined.

(** ** Worked instances *)

Lemma permissive_mode_rejects_named_presets_witness :
  let definition :=
    {| model_key := Editing.FONT_STYLE;
       model_values := [VString "12px"; VString "small"; VString "50%"];
       view := [] |} in
  let editor := Editing.newEditor [] true in
  (∃ value, In value (model_values definition)
            ∧ Editing.sampleIsLength (ToString value) = false
            ∧ Editing.sampleIsPercentage (ToString value) = false)
  ∧ ∃ presets,
      Editing._prepareAnyValueConverters Editing.sampleIsLength
        Editing.sampleIsPercentage definition editor
        = Throw (CKEditorError "font-style-invalid-use-of-named-presets"
                               (DataPresets presets))
      ∧ presets ≠ []
      ∧ sublist presets (model_values definition)
      ∧ ∀ value, In value presets ↔
                  In value (model_values definition)
                  ∧ Editing.sampleIsLength (ToString value) = false
                  ∧ Editing.sampleIsPercentage (ToString value) = false.
Proof.
  intros definition editor.
  assert (H : ∃ value, In value (model_values definition)
            ∧ Editing.sampleIsLength (ToString value) = false
            ∧ Editing.sampleIsPercentage (ToString value) = false).
  { exists (VString "small"). split; [simpl; auto |].
    split; reflexivity. }
  split; [exact H |].
  exact (proj1 (permissive_mode_rejects_named_presets
                  Editing.sampleIsLength Editing.sampleIsPercentage)
           definition editor H).
Defined.

Lemma permissive_converters_witness :
  let definition :=
    {| model_key := Editing.FONT_STYLE;
       model_values := [VString "9px"; VString "14px"];
       view := [] |} in
  let editor := Editing.newEditor [num 9; num 14] true in
  let outcome :=
    Editing._prepareAnyValueConverters Editing.sampleIsLength
      Editing.sampleIsPercentage definition editor in
  let editor' := valueOf editor outcome in
  outcome = Ok editor'
  ∧ ¬ In (VString "13px") (model_values definition)
  ∧ ∃ down up,
      conversion editor' = conversion editor ++ [down; up]
      ∧ downcast down (VString "13px") =
          Some {| ae_name := "span";
                  ae_attributes := [("style", "font-style:13px")];
                  ae_priority := 7 |}
      ∧ downcast down VUndefined = None
      ∧ upcast up (Editing.spanElement "13px")
        = Some (Editing.FONT_STYLE, Ok (VString "13px")).
Proof.
  intros definition editor outcome editor'.
  assert (E : outcome = Ok editor')
    by (apply isOk_value; vm_compute; reflexivity).
  split; [exact E |].
  split; [intros [H | [H | []]]; discriminate H |].
  destruct (permissive_converters Editing.sampleIsLength
              Editing.sampleIsPercentage definition editor editor' E)
    as (down & up & Hc & _ & Hdown & _ & _ & Hundef & Hup & _).
  exists down, up. split; [exact Hc |].
  split; [apply (Hdown "13px"); discriminate |].
  split; [exact Hundef |].
  apply (Hup (Editing.spanElement "13px") "13px"); reflexivity.
Defined.

Lemma invalid_definition_iff_witness :
  let h : Heap := [ {[ "title" := VString "X" ]} ] in
  (reachesNumericStep (VRef 0) h ∧ typeof (VRef 0) = "object"
   ∧ ∃ model, getProp (VRef 0) "model" h = (Ok model, h)
              ∧ ToBoolean model = false)
  ∧ ∃ h', Utils.getOptionDefinition (VRef 0) h =
            (Throw (CKEditorError "font-style-invalid-definition"
                                  (DataValue (VRef 0))), h').
Proof.
  intros h.
  assert (H : reachesNumericStep (VRef 0) h ∧ typeof (VRef 0) = "object"
              ∧ ∃ model, getProp (VRef 0) "model" h = (Ok model, h)
                         ∧ ToBoolean model = false).
  { split; [| split; [reflexivity |]].
    - split; [| split; [| reflexivity]].
      + exists VUndefined. split; vm_compute; reflexivity.
      + exists (Utils.Own VUndefined). split; vm_compute; reflexivity.
    - exists VUndefined. split; vm_compute; reflexivity. }
  split; [exact H |].
  exact (proj2 (proj1 invalid_definition_iff (VRef 0) h) H).
Defined.

Lemma normalized_views_have_priority_witness :
  let h : Heap :=
    [ {[ "name" := VString "span"; "classes" := VString "text-wide" ]};
      {[ "title" := VString "Wide"; "model" := VString "wide";
         "view" := VRef 0 ]};
      {[ "title" := VString "Big"; "model" := VString "14px" ]} ] in
  let configuredOptions :=
    [VRef 1; VString "tiny"; VString "default"; num 12; VRef 2;
     VString "abc"] in
  let run := Utils.normalizeOptions configuredOptions h in
  let options := valueOf [] run.1 in
  let h' := run.2 in
  run = (Ok options, h')
  ∧ length options = 5%nat
  ∧ Forall (λ option,
      defaultSentinel h' option
      ∨ ∃ lv p,
          getProp option "view" h' = (Ok (VRef lv), h')
          ∧ getProp (VRef lv) "priority" h' = (Ok p, h')
          ∧ ToBoolean p = true
          ∧ (p = num 7
             ∨ ∃ vo, h !! lv = Some vo ∧ vo !! "priority" = Some p)
          ∧ (∀ vo, h !! lv = Some vo →
                   ToBoolean (default VUndefined (vo !! "priority")) = false →
                   p = num 7)) options.
Proof.
  intros h configuredOptions run options h'.
  assert (E : run = (Ok options, h'))
    by (apply isOk_run; vm_compute; reflexivity).
  split; [exact E |].
  split; [vm_compute; reflexivity |].
  exact (normalized_views_have_priority configuredOptions h options h' E).
Defined.

(** * Further properties of the normaliser *)

(** ** Composition and order *)

Section Composition.

Import Utils.

Implicit Types (h : Heap) (o : Obj) (l : nat) (k : string) (v x : Value).

Lemma mapM_app {A B} (f : A → M B) (xs ys : list A) : ∀ h,
  mapM f (xs ++ ys) h =
    (let* a := mapM f xs in let* b := mapM f ys in ret (a ++ b)) h.
Proof.
  induction xs as [|x xs IH]; intros h; simpl.
  - unfold bind, ret. destruct (mapM f ys h) as [[b|e] h']; reflexivity.
  - unfold bind at 1 3 4. destruct (f x h) as [[y|e] h1]; [| reflexivity].
    fold (mapM f (xs ++ ys)). unfold bind at 1. rewrite IH.
    unfold bind, ret.
    destruct (mapM f xs h1) as [[a|e] h2]; [| reflexivity].
    destruct (mapM f ys h2) as [[b|e] h3]; reflexivity.
Qed.

Lemma bind_throw_step {A B} (m : M A) (f : A → M B) h e h1 :
  m h = (Throw e, h1) → bind m f h = (Throw e, h1).
Proof. unfold bind. by intros ->. Qed.

Lemma normalizeOptions_concat (xs ys : list Value) (h : Heap) :
  normalizeOptions (xs ++ ys) h =
    (let* a := normalizeOptions xs in
     let* b := normalizeOptions ys in
     ret (a ++ b)) h.
Proof.
  unfold normalizeOptions. unfold bind at 1. rewrite mapM_app.
  unfold bind, ret.
  destruct (mapM getOptionDefinition xs h) as [[a|e] h1]; [| reflexivity].
  destruct (mapM getOptionDefinition ys h1) as [[b|e] h2]; [| reflexivity].
  by rewrite List.filter_app.
Qed.

(** X1.  Normalising a concatenation is normalising the first part, then
    the second part in the store the first left, and concatenating the
    results; an error of either part is the error of the whole, with the
    store as that part left it.  So the options come out in the order of the
    elements they come from. *)
Theorem normalizeOptions_app (xs ys : list Value) (h : Heap) :
  normalizeOptions (xs ++ ys) h =
    (let* a := normalizeOptions xs in
     let* b := normalizeOptions ys in
     ret (a ++ b)) h.
Proof. apply normalizeOptions_concat. Qed.

Lemma getOptionDefinition_default h :
  getOptionDefinition (VString "default") h = alloc defaultOption h.
Proof. reflexivity. Qed.

Lemma normalizeOptions_one x h :
  normalizeOptions [x] h =
    (let* y := getOptionDefinition x in ret (List.filter ToBoolean [y])) h.
Proof.
  unfold normalizeOptions. simpl mapM. unfold bind, ret.
  destruct (getOptionDefinition x h) as [[y|e] h1]; reflexivity.
Qed.

(** X2.  Wherever the string 'default' stands in the configuration, the
    option at its place is a new object [{ model: undefined, title:
    'Default' }], whatever surrounds it: the elements before it are
    normalised first, then the sentinel is allocated, then the elements
    after it are normalised. *)
Theorem default_sentinel_position (before after : list Value) (h : Heap) :
  normalizeOptions (before ++ VString "default" :: after) h =
    (let* a := normalizeOptions before in
     let* d := alloc defaultOption in
     let* b := normalizeOptions after in
     ret (a ++ d :: b)) h.
Proof.
  change (before ++ VString "default" :: after)
    with (before ++ [VString "default"] ++ after).
  rewrite normalizeOptions_concat.
  destruct (normalizeOptions before h) as [[a|e] h1] eqn:E1.
  - rewrite !(bind_step _ _ _ _ _ E1).
    assert (E2 : normalizeOptions [VString "default"] h1
                 = (Ok [VRef (length h1)], h1 ++ [defaultOption]))
      by reflexivity.
    pose proof (normalizeOptions_concat [VString "default"] after h1) as E3.
    rewrite (bind_step _ _ _ _ _ E2) in E3.
    unfold bind at 1. rewrite E3.
    rewrite (bind_step _ _ _ _ _ (alloc_run defaultOption h1)).
    unfold bind, ret.
    destruct (normalizeOptions after (h1 ++ [defaultOption])) as [[b|e] h2];
      reflexivity.
  - rewrite !(bind_throw_step _ _ _ _ _ E1). reflexivity.
Qed.

End Composition.

(** ** Named presets, by name or by model *)

Section PresetTable.

Import Utils.

Implicit Types (h : Heap) (o : Obj) (l : nat) (k : string) (v x : Value).

Lemma namedPresets_table key title classes h :
  In (key, title, classes) presetTable →
  namedPresets key h =
    (Ok (Own (VRef (S (length h)))),
     h ++ [ presetView classes; presetOption title key (VRef (length h)) ]).
Proof.
  intros Hin. simpl in Hin.
  destruct Hin as [[= <- <- <-] | [[= <- <- <-] | [[= <- <- <-]
                  | [[= <- <- <-] | []]]]];
    unfold namedPresets; simpl; unfold bind; by rewrite presetGetter_run.
Qed.


End PresetTable.

(** ** What the normaliser returns and what it leaves alone *)

Section Shape.

Import Utils.

Implicit Types (h : Heap) (o : Obj) (l : nat) (k : string) (v x : Value).

Lemma length_pixelHeap h l o :
  length (pixelHeap h l o) = S (S (length h)).
Proof.
  unfold pixelHeap. rewrite !length_insert, length_app. simpl. lia.
Qed.

(** An option returned is the element itself or a new object. *)
Lemma getOptionDefinition_origin x h v h' :
  getOptionDefinition x h = (Ok v, h') →
  v = VUndefined
  ∨ ∃ l, v = VRef l ∧ (l < length h')%nat ∧ (v = x ∨ (length h <= l)%nat).
Proof.
  intros H.
  destruct (getOptionDefinition_Ok _ _ _ _ H)
    as [Hfull | [(title & key & classes & -> & ->)
       | [(-> & -> & ->) | [(_ & -> & -> & _) | [_ Hpix]]]]].
  - apply attachPriority_Ok in Hfull
      as (-> & l & o & lv & vo & -> & Ho & Hv & Hvo & Hcase).
    right. exists l. split; [done |]. split; [| by left].
    apply lookup_valid in Ho.
    destruct Hcase as [[_ ->] | [_ ->]]; [done |].
    by rewrite length_insert.
  - right. exists (S (length h)). split; [done |].
    rewrite length_app. simpl. split; [lia | right; lia].
  - right. exists (length h). split; [done |].
    rewrite length_app. simpl. split; [lia | right; lia].
  - by left.
  - right. apply generatePixelPreset_Ok in Hpix
      as [(_ & -> & ->) | (l & o & -> & Ho & -> & ->)].
    + exists (length h). split; [done |].
      rewrite length_pixelHeap, length_app. simpl. split; [lia | right; lia].
    + exists l. split; [done |]. apply lookup_valid in Ho.
      rewrite length_pixelHeap. split; [lia | by left].
Qed.

Lemma mapM_getOptionDefinition_origin xs : ∀ h outs h',
  mapM getOptionDefinition xs h = (Ok outs, h') →
  length outs = length xs
  ∧ Forall (λ v, v = VUndefined
                 ∨ ∃ l, v = VRef l ∧ (l < length h')%nat
                        ∧ (In v xs ∨ (length h <= l)%nat)) outs.
Proof.
  induction xs as [|x xs IH]; intros h outs h' H; simpl in H.
  - apply ret_Ok in H as [<- <-]. split; [done | constructor].
  - apply bind_Ok in H as (y & h1 & Hy & H).
    apply bind_Ok in H as (ys & h2 & Hys & H).
    apply ret_Ok in H as [<- <-].
    pose proof (getOptionDefinition_step _ _ _ _ Hy) as [G1 _].
    pose proof (mapM_getOptionDefinition _ _ _ _ Hys) as [G2 _].
    apply grows_length in G1, G2.
    apply getOptionDefinition_origin in Hy.
    apply IH in Hys as [Hlen Hall].
    split; [simpl; by rewrite Hlen |].
    constructor.
    + destruct Hy as [-> | (l & -> & Hl & Hor)]; [by left | right].
      exists l. split; [done |]. split; [lia |].
      destruct Hor as [<- | Hnew]; [left; by left | right; lia].
    + eapply Forall_impl; [exact Hall |].
      intros v [-> | (l & -> & Hl & Hor)]; [by left | right].
      exists l. split; [done |]. split; [done |].
      destruct Hor as [Hin | Hnew]; [left; by right | right; lia].
Qed.

(** X4.  The normalised list is never longer than the configuration, the
    store never shrinks, and every option returned is an object of the
    final store that either is one of the configured elements itself or was
    allocated by this call. *)
Theorem normalized_options_origin
    (configuredOptions : list Value) (h : Heap)
    (options : list Value) (h' : Heap) :
  normalizeOptions configuredOptions h = (Ok options, h') →
  (length options <= length configuredOptions)%nat
  ∧ (length h <= length h')%nat
  ∧ Forall (λ option,
      ∃ l, option = VRef l ∧ (l < length h')%nat
           ∧ (In option configuredOptions ∨ (length h <= l)%nat)) options.
Proof.
  unfold normalizeOptions. intros H.
  apply bind_Ok in H as (outs & h1 & Hmap & H).
  apply ret_Ok in H as [<- <-].
  pose proof (mapM_getOptionDefinition _ _ _ _ Hmap) as [G _].
  apply mapM_getOptionDefinition_origin in Hmap as [Hlen Hall].
  split; [rewrite <- Hlen; apply List.filter_length_le |].
  split; [by apply grows_length |].
  apply Forall_forall. intros v Hv.
  apply list_elem_of_In, filter_In in Hv as [Hin Htruthy].
  rewrite Forall_forall in Hall.
  destruct (Hall v (proj2 (list_elem_of_In _ _) Hin)) as [-> | Hv];
    [discriminate Htruthy | done].
Qed.

(** X5.  Normalisation removes no object and, on the objects that were in
    the store, writes nothing but [view] and [priority]: every other
    property, in particular every title and model, is as before; a priority
    is either as before or 7; a view is either as before or a new object
    whose priority is 7.  An object allocated by the call has no priority
    or priority 7. *)
Theorem normalizeOptions_frame
    (configuredOptions : list Value) (h : Heap)
    (options : list Value) (h' : Heap) :
  normalizeOptions configuredOptions h = (Ok options, h') →
  (∀ l o, h !! l = Some o →
     ∃ o', h' !! l = Some o'
       ∧ (∀ k, k ≠ "view" → k ≠ "priority" → o' !! k = o !! k)
       ∧ (o' !! "priority" = o !! "priority"
          ∨ o' !! "priority" = Some (num 7))
       ∧ (o' !! "view" = o !! "view"
          ∨ ∃ lv vo, o' !! "view" = Some (VRef lv)
                     ∧ (length h <= lv)%nat
                     ∧ h' !! lv = Some vo
                     ∧ vo !! "priority" = Some (num 7)))
  ∧ (∀ l o', h' !! l = Some o' → (length h <= l)%nat →
       o' !! "priority" = None ∨ o' !! "priority" = Some (num 7)).
Proof.
  unfold normalizeOptions. intros H.
  apply bind_Ok in H as (outs & h1 & Hmap & H).
  apply ret_Ok in H as [_ <-].
  apply mapM_getOptionDefinition in Hmap as [[K N] _]. by split.
Qed.

End Shape.

(** ** Full definitions *)

Section FullDefinitions.

Import Utils.

Implicit Types (h : Heap) (o : Obj) (l : nat) (k : string) (v x : Value).

Lemma priorityOnly_refl h : priorityOnly h h.
Proof. split; [done |]. intros l o Ho. exists o. auto. Qed.

Lemma priorityOnly_trans h1 h2 h3 :
  priorityOnly h1 h2 → priorityOnly h2 h3 → priorityOnly h1 h3.
Proof.
  intros [L12 K12] [L23 K23]. split; [congruence |].
  intros l o Ho.
  destruct (K12 _ _ Ho) as (o2 & Ho2 & Hk2 & Hp2).
  destruct (K23 _ _ Ho2) as (o3 & Ho3 & Hk3 & Hp3).
  exists o3. split; [done |]. split.
  - intros k Hk. rewrite Hk3, Hk2; done.
  - destruct Hp3 as [E3 | [F3 E3]].
    + rewrite E3. exact Hp2.
    + destruct Hp2 as [E2 | [F2 E2]].
      * right. by rewrite <- E2.
      * rewrite E2 in F3. discriminate F3.
Qed.

Lemma priorityOnly_set h lv vo :
  h !! lv = Some vo →
  ToBoolean (default VUndefined (vo !! "priority")) = false →
  priorityOnly h (<[lv := <["priority" := num 7]> vo]> h).
Proof.
  intros Hvo Hf. pose proof (lookup_valid _ _ _ Hvo) as Hlv.
  split; [apply length_insert |].
  intros l o Ho. destruct (decide (l = lv)) as [-> | Hne].
  - assert (o = vo) as -> by congruence.
    exists (<["priority" := num 7]> vo).
    split; [by apply list_lookup_insert_eq |]. split.
    + intros k Hk. by rewrite lookup_insert_ne.
    + right. split; [done | apply lookup_insert_eq].
  - exists o. rewrite list_lookup_insert_ne by done. auto.
Qed.

Lemma fullDefinition_priorityOnly h h' v :
  priorityOnly h h' → fullDefinition h v → fullDefinition h' v.
Proof.
  intros [_ K] (l & o & lv & vo & -> & Ho & Ht & Hm & Hv & Hvo).
  destruct (K _ _ Ho) as (o' & Ho' & Hk & _).
  destruct (K _ _ Hvo) as (vo' & Hvo' & _).
  exists l, o', lv, vo'. rewrite !Hk by done. done.
Qed.

Lemma settledDefinition_priorityOnly h h' v :
  priorityOnly h h' → settledDefinition h v → settledDefinition h' v.
Proof.
  intros [_ K] (l & o & lv & vo & -> & Ho & Ht & Hm & Hv & Hvo & Hp).
  destruct (K _ _ Ho) as (o' & Ho' & Hk & _).
  destruct (K _ _ Hvo) as (vo' & Hvo' & _ & Hp').
  exists l, o', lv, vo'. rewrite !Hk by done.
  repeat split; try done.
  destruct Hp' as [-> | [F _]]; [done | congruence].
Qed.

Lemma isFullItemDefinition_full h l o :
  h !! l = Some o →
  ToBoolean (default VUndefined (o !! "title")) = true →
  ToBoolean (default VUndefined (o !! "model")) = true →
  isFullItemDefinition (VRef l) h = (Ok (default VUndefined (o !! "view")), h).
Proof.
  intros Ho Ht Hm. unfold isFullItemDefinition.
  change (String.eqb (typeof (VRef l)) "object") with true. cbv iota.
  rewrite (bind_step _ _ _ _ _ (getProp_ref _ _ _ "title" Ho)), Ht.
  cbn [negb].
  rewrite (bind_step _ _ _ _ _ (getProp_ref _ _ _ "model" Ho)), Hm.
  cbn [negb]. by apply getProp_ref.
Qed.

(** A full definition is returned as it is; its view's priority is set
    when it was falsy. *)
Lemma getOptionDefinition_full h v :
  fullDefinition h v →
  ∃ h', getOptionDefinition v h = (Ok v, h')
        ∧ priorityOnly h h' ∧ settledDefinition h' v.
Proof.
  intros (l & o & lv & vo & -> & Ho & Ht & Hm & Hv & Hvo).
  unfold getOptionDefinition.
  rewrite (bind_step _ _ _ _ _ (isFullItemDefinition_full _ _ _ Ho Ht Hm)).
  rewrite Hv. change (ToBoolean (default VUndefined (Some (VRef lv))))
    with true. cbv iota.
  destruct (ToBoolean (default VUndefined (vo !! "priority"))) eqn:Hp.
  - exists h. split; [by eapply attachPriority_set |].
    split; [apply priorityOnly_refl |].
    by exists l, o, lv, vo.
  - exists (<[lv := <["priority" := num 7]> vo]> h).
    split; [by eapply attachPriority_unset |].
    split; [by apply priorityOnly_set |].
    pose proof (lookup_valid _ _ _ Hvo) as Hlv.
    destruct (decide (l = lv)) as [-> | Hne].
    + assert (o = vo) as -> by congruence.
      exists lv, (<["priority" := num 7]> vo), lv,
        (<["priority" := num 7]> vo).
      rewrite list_lookup_insert_eq by done.
      rewrite !(lookup_insert_ne _ "priority") by done.
      by rewrite lookup_insert_eq.
    + exists l, o, lv, (<["priority" := num 7]> vo).
      rewrite list_lookup_insert_ne by done.
      rewrite list_lookup_insert_eq by done.
      by rewrite lookup_insert_eq.
Qed.

Lemma getOptionDefinition_settled h v :
  settledDefinition h v → getOptionDefinition v h = (Ok v, h).
Proof.
  intros (l & o & lv & vo & -> & Ho & Ht & Hm & Hv & Hvo & Hp).
  unfold getOptionDefinition.
  rewrite (bind_step _ _ _ _ _ (isFullItemDefinition_full _ _ _ Ho Ht Hm)).
  rewrite Hv. change (ToBoolean (default VUndefined (Some (VRef lv))))
    with true. cbv iota.
  by eapply attachPriority_set.
Qed.

Lemma filter_refs (xs : list Value) :
  Forall (λ v, ∃ l, v = VRef l) xs → List.filter ToBoolean xs = xs.
Proof.
  induction 1 as [|x xs [l ->] _ IH]; [done |]. simpl. by rewrite IH.
Qed.

Lemma mapM_full xs : ∀ h,
  Forall (fullDefinition h) xs →
  ∃ h', mapM getOptionDefinition xs h = (Ok xs, h')
        ∧ priorityOnly h h' ∧ Forall (settledDefinition h') xs.
Proof.
  induction xs as [|x xs IH]; intros h Hall.
  - exists h. split; [done |]. split; [apply priorityOnly_refl | constructor].
  - apply Forall_cons in Hall as [Hx Hall].
    destruct (getOptionDefinition_full _ _ Hx) as (h1 & E1 & P1 & S1).
    destruct (IH h1) as (h2 & E2 & P2 & S2).
    { eapply Forall_impl; [exact Hall |]. intros v.
      by apply fullDefinition_priorityOnly. }
    exists h2. split; [| split].
    + simpl. rewrite (bind_step _ _ _ _ _ E1), (bind_step _ _ _ _ _ E2).
      reflexivity.
    + by eapply priorityOnly_trans.
    + constructor; [by eapply settledDefinition_priorityOnly | done].
Qed.

Lemma mapM_settled xs h :
  Forall (settledDefinition h) xs →
  mapM getOptionDefinition xs h = (Ok xs, h).
Proof.
  induction 1 as [|x xs Hx _ IH]; [done |]. simpl.
  rewrite (bind_step _ _ _ _ _ (getOptionDefinition_settled _ _ Hx)).
  by rewrite (bind_step _ _ _ _ _ IH).
Qed.

Lemma settled_refs h xs :
  Forall (settledDefinition h) xs → Forall (λ v, ∃ l, v = VRef l) xs.
Proof.
  intros H. eapply Forall_impl; [exact H |].
  intros v (l & _ & _ & _ & -> & _). eauto.
Qed.

(** X6.  A configuration of full definitions (objects with truthy title
    and model whose view is an object) is returned as it is, the same
    objects in the same order.  Nothing is allocated and nothing is written
    except that a view priority that was falsy becomes 7.  Normalising the
    same configuration again returns the same list and leaves the store
    unchanged. *)
Theorem full_definitions_pass_through
    (configuredOptions : list Value) (h : Heap) :
  Forall (fullDefinition h) configuredOptions →
  ∃ h',
    normalizeOptions configuredOptions h = (Ok configuredOptions, h')
    ∧ length h' = length h
    ∧ (∀ l o, h !! l = Some o →
         ∃ o', h' !! l = Some o'
           ∧ (∀ k, k ≠ "priority" → o' !! k = o !! k)
           ∧ (o' !! "priority" = o !! "priority"
              ∨ (ToBoolean (default VUndefined (o !! "priority")) = false
                 ∧ o' !! "priority" = Some (num 7))))
    ∧ normalizeOptions configuredOptions h' = (Ok configuredOptions, h').
Proof.
  intros Hall.
  destruct (mapM_full _ _ Hall) as (h' & E & [Hlen K] & Hs).
  pose proof (filter_refs _ (settled_refs _ _ Hs)) as Hf.
  exists h'. split; [| split; [done | split; [done |]]].
  - unfold normalizeOptions. rewrite (bind_step _ _ _ _ _ E).
    unfold ret. by rewrite Hf.
  - unfold normalizeOptions.
    rewrite (bind_step _ _ _ _ _ (mapM_settled _ _ Hs)).
    unfold ret. by rewrite Hf.
Qed.

End FullDefinitions.

(** ** Elements that make the normaliser throw a TypeError *)

Section TypeErrors.

Import Utils.

Implicit Types (h : Heap) (o : Obj) (l : nat) (k : string) (v x : Value).

Lemma namedPresets_inherited key h :
  In key objectPrototypeKeys → namedPresets key h = (Ok (Inherited key), h).
Proof.
  intros Hin. simpl in Hin.
  repeat (destruct Hin as [<- | Hin]; [reflexivity |]). destruct Hin.
Qed.

Lemma normalizeOptions_first_throws x rest h e h' :
  getOptionDefinition x h = (Throw e, h') →
  normalizeOptions (x :: rest) h = (Throw e, h').
Proof.
  intros E. unfold normalizeOptions. simpl mapM.
  by rewrite (bind_throw_step _ _ _ _ _ (bind_throw_step _ _ _ _ _ E)).
Qed.

(** X7.  Four kinds of element make [normalizeOptions] throw a TypeError
    and leave the store as it was: [null] and [undefined]; a string that
    names a member [namedPresets] inherits from [Object.prototype], such as
    'toString' or 'constructor'; an object that is not a full definition
    and whose model is such a string; and a full definition whose view is a
    truthy primitive, such as the string 'span'. *)
Theorem normalizeOptions_type_errors (rest : list Value) (h : Heap) :
  normalizeOptions (VNull :: rest) h = (Throw TypeError, h)
  ∧ normalizeOptions (VUndefined :: rest) h = (Throw TypeError, h)
  ∧ (∀ key, In key objectPrototypeKeys →
       normalizeOptions (VString key :: rest) h = (Throw TypeError, h))
  ∧ (∀ key l o full,
       In key objectPrototypeKeys →
       h !! l = Some o → o !! "model" = Some (VString key) →
       isFullItemDefinition (VRef l) h = (Ok full, h) →
       ToBoolean full = false →
       normalizeOptions (VRef l :: rest) h = (Throw TypeError, h))
  ∧ (∀ l o view,
       h !! l = Some o →
       ToBoolean (default VUndefined (o !! "title")) = true →
       ToBoolean (default VUndefined (o !! "model")) = true →
       o !! "view" = Some view → ToBoolean view = true →
       (∀ lv, view ≠ VRef lv) →
       normalizeOptions (VRef l :: rest) h = (Throw TypeError, h)).
Proof.
  split; [| split; [| split; [| split]]].
  - by apply normalizeOptions_first_throws.
  - by apply normalizeOptions_first_throws.
  - intros key Hin. apply normalizeOptions_first_throws.
    unfold getOptionDefinition.
    rewrite (bind_step _ _ _ (VBool false) h eq_refl).
    change (ToBoolean (VBool false)) with false. cbv iota.
    assert (Ef : findPreset (VString key) h = (Ok (Inherited key), h)).
    { unfold findPreset. change (ToString (VString key)) with key.
      by rewrite (bind_step _ _ _ _ _ (namedPresets_inherited _ _ Hin)). }
    by rewrite (bind_step _ _ _ _ _ Ef).
  - intros key l o full Hin Ho Hm Hfull Hfalsy.
    apply normalizeOptions_first_throws. unfold getOptionDefinition.
    rewrite (bind_step _ _ _ _ _ Hfull), Hfalsy.
    assert (Ef : findPreset (VRef l) h = (Ok (Inherited key), h)).
    { unfold findPreset.
      rewrite (bind_step _ _ _ (Own VUndefined) h eq_refl).
      change (lookedTruthy (Own VUndefined)) with false. cbv iota.
      rewrite (bind_step _ _ _ _ _ (getProp_ref _ _ _ "model" Ho)), Hm.
      by apply namedPresets_inherited. }
    by rewrite (bind_step _ _ _ _ _ Ef).
  - intros l o view Ho Ht Hm Hv Htruthy Hprim.
    apply normalizeOptions_first_throws. unfold getOptionDefinition.
    rewrite (bind_step _ _ _ _ _ (isFullItemDefinition_full _ _ _ Ho Ht Hm)).
    rewrite Hv.
    change (default VUndefined (Some view)) with view. rewrite Htruthy.
    unfold attachPriority.
    rewrite (bind_step _ _ _ _ _ (getProp_ref _ _ _ "view" Ho)), Hv.
    change (default VUndefined (Some view)) with view.
    destruct view as [| |b|n|s|lv]; try discriminate Htruthy;
      try reflexivity.
    by destruct (Hprim lv).
Qed.

End TypeErrors.

(** ** The numeric test *)

Section NumericStep.

Import Utils.

Implicit Types (h : Heap) (o : Obj) (l : nat) (k : string) (v x : Value).

(** An element that reaches the pixel step becomes an option. *)
Lemma generatePixelPreset_returns x h :
  reachesPixelStep x h →
  ∃ l h', generatePixelPreset x h = (Ok (VRef l), h').
Proof.
  intros [Hreach Hnum]. destruct x as [| |b|n|s|l].
  - destruct Hreach as (_ & (preset & Hp & _) & _). discriminate Hp.
  - destruct Hreach as ((full & Hf & _) & _). discriminate Hf.
  - destruct b; discriminate Hnum.
  - rewrite generatePixelPreset_short by auto. eauto.
  - rewrite generatePixelPreset_short by auto. eauto.
  - destruct (h !! l) as [o|] eqn:Ho.
    + rewrite (generatePixelPreset_object _ _ _ Ho). eauto.
    + unfold isNumericalDefinition, bind in Hnum. simpl in Hnum.
      rewrite Ho in Hnum. discriminate Hnum.
Qed.

(** X8.  An element that reaches the numeric test and is a primitive, or an
    object with a truthy model, is never an error: it is dropped, with the
    store unchanged, exactly when [parseFloat] of its text (the model's
    text for an object) is NaN, and it becomes an option otherwise.  So an
    object whose model does not parse is dropped silently, and so is every
    boolean. *)
Theorem numeric_step_outcome (option : Value) (h : Heap) :
  reachesNumericStep option h →
  (typeof option = "object" → ToBoolean (modelAt h option) = true) →
  let text :=
    if String.eqb (typeof option) "object"
    then ToString (modelAt h option) else ToString option in
  (JS.isNaN (JS.parseFloat text) = true →
     getOptionDefinition option h = (Ok VUndefined, h)
     ∧ normalizeOptions [option] h = (Ok [], h))
  ∧ (JS.isNaN (JS.parseFloat text) = false →
     ∃ l h', getOptionDefinition option h = (Ok (VRef l), h')
             ∧ normalizeOptions [option] h = (Ok [VRef l], h'))
  ∧ (∀ b, option = VBool b → JS.isNaN (JS.parseFloat text) = true).
Proof.
  intros Hreach Hmodel text.
  assert (Hnum : isNumericalDefinition option h
                 = (Ok (JS.isNaN (JS.parseFloat text)), h)).
  { unfold text. destruct (String.eqb (typeof option) "object") eqn:Et.
    - apply String.eqb_eq in Et. specialize (Hmodel Et).
      destruct option as [| |b|n|s|l]; try discriminate Et.
      + destruct Hreach as ((full & Hf & _) & _). discriminate Hf.
      + destruct (h !! l) as [o|] eqn:Ho.
        * unfold modelAt, propAt in *.
          rewrite (getProp_ref _ _ _ "model" Ho) in *.
          unfold isNumericalDefinition.
          change (String.eqb (typeof (VRef l)) "object") with true.
          cbv iota. unfold bind at 1. unfold bind at 1.
          rewrite (getProp_ref _ _ _ "model" Ho), Hmodel. reflexivity.
        * destruct Hreach as ((full & Hf & _) & _).
          unfold isFullItemDefinition, bind, getProp in Hf. simpl in Hf.
          rewrite Ho in Hf. discriminate Hf.
    - apply isNumericalDefinition_primitive. intros E.
      rewrite E in Et. discriminate Et. }
  rewrite (getOptionDefinition_numeric _ _ Hreach).
  rewrite (bind_step _ _ _ _ _ Hnum).
  split; [| split].
  - intros Hnan. rewrite Hnan.
    split; [done |].
    apply (normalizeOptions_singleton _ _ VUndefined).
    rewrite (getOptionDefinition_numeric _ _ Hreach).
    by rewrite (bind_step _ _ _ _ _ Hnum), Hnan.
  - intros Hnan. rewrite Hnan. rewrite Hnan in Hnum.
    assert (Hpix : reachesPixelStep option h) by done.
    destruct (generatePixelPreset_returns _ _ Hpix) as (l & h' & E).
    exists l, h'. split; [done |].
    apply (normalizeOptions_singleton _ _ (VRef l)).
    rewrite (getOptionDefinition_numeric _ _ Hreach).
    by rewrite (bind_step _ _ _ _ _ Hnum).
  - intros b ->. by destruct b.
Qed.

End NumericStep.

(** * Further properties of the editing feature *)

(** ** The legacy decoder on any element *)

Section LegacyTotal.

Import Editing.

(** X9.  The legacy decoder on any element: without a [style] attribute
    it throws a TypeError; with an attribute that [parseInt] does not read
    it returns undefined; otherwise it returns a keyword of the table,
    which is 'x-small' for every level up to 1 and 'xxx-large' for every
    level from 7 on, and the table entry of the level in between. *)
Theorem legacy_decoder_total (e : ViewElement) :
  (getAttribute e "style" = None → legacyValue e = Throw TypeError)
  ∧ (∀ value,
       getAttribute e "style" = Some value → JS.parseInt value = None →
       legacyValue e = Ok VUndefined)
  ∧ (∀ value n,
       getAttribute e "style" = Some value → JS.parseInt value = Some n →
       let level := if isRelative value then 3 + n else n in
       ∃ keyword,
         legacyValue e = Ok (VString keyword)
         ∧ In keyword styleFontStyle
         ∧ (level <= 1 → keyword = "x-small")
         ∧ (7 <= level → keyword = "xxx-large")
         ∧ (0 <= level <= 7 →
            styleFontStyle !! Z.to_nat level = Some keyword)).
Proof.
  split; [| split].
  - intros Ha. unfold legacyValue. by rewrite Ha.
  - intros value Ha Hn. unfold legacyValue. rewrite Ha, Hn.
    by destruct (isRelative value).
  - intros value n Ha Hn level.
    destruct (clamp_in_table level) as (Hi & keyword & Hk).
    exists keyword.
    assert (Ev : legacyValue e = Ok (VString keyword)).
    { unfold legacyValue. rewrite Ha, Hn.
      replace (if isRelative value then Z.add 3 <$> Some n else Some n)
        with (Some level) by (unfold level; by destruct (isRelative value)).
      change (Z.of_nat (length styleFontStyle) - 1) with 7.
      simpl. by rewrite Hk. }
    split; [exact Ev |].
    split; [apply list_elem_of_In; by eapply list_elem_of_lookup_2 |].
    set (i := Z.min (Z.max level 0) 7) in *.
    assert (Hcases : i = 0 ∨ i = 1 ∨ i = 2 ∨ i = 3 ∨ i = 4 ∨ i = 5
                     ∨ i = 6 ∨ i = 7) by lia.
    split; [| split].
    + intros Hle.
      assert (Hi01 : i = 0 ∨ i = 1) by (unfold i; lia).
      destruct Hi01 as [E | E]; rewrite E in Hk; simpl in Hk; congruence.
    + intros Hge. assert (E : i = 7) by (unfold i; lia).
      rewrite E in Hk. simpl in Hk. congruence.
    + intros Hin. replace level with i by (unfold i; lia). exact Hk.
Qed.

End LegacyTotal.

(** ** What [init] does and when it fails *)

Section InitEffects.

Import Utils Editing.

Variables isLength isPercentage : string → bool.

Lemma prepareAnyValueConverters_fields definition editor editor' :
  _prepareAnyValueConverters isLength isPercentage definition editor
    = Ok editor' →
  config_options editor' = config_options editor
  ∧ config_supportAllValues editor' = config_supportAllValues editor
  ∧ schema editor' = schema editor
  ∧ commands editor' = commands editor
  ∧ length (conversion editor') = (length (conversion editor) + 2)%nat.
Proof.
  unfold _prepareAnyValueConverters.
  destruct (negb _); [discriminate |].
  intros [= <-]. simpl. rewrite !length_app. simpl. repeat split. lia.
Qed.


Lemma init_normalize_throws options supportAllValues h e h' :
  normalizeOptions options h = (Throw e, h') →
  init isLength isPercentage (newEditor options supportAllValues) h
    = (Throw e, h').
Proof.
  intros E. unfold init.
  cbn [config_options config_supportAllValues add_schema newEditor].
  by rewrite (bind_throw_step _ _ _ _ _ E).
Qed.

(** X10.  When [init] returns, the configuration is untouched, the schema
    has been extended by exactly the two calls for the [fontStyle]
    attribute, exactly one command, [fontStyle], has been added, and the
    converters registered are one in strict mode and three in permissive
    mode; the store is the one normalisation of the options left. *)
Theorem init_effects (options : list Value) (supportAllValues : bool)
    (h : Heap) (editor : Editor) (h' : Heap) :
  init isLength isPercentage (newEditor options supportAllValues) h
    = (Ok editor, h') →
  config_options editor = options
  ∧ config_supportAllValues editor = supportAllValues
  ∧ schema editor = [ Extend "$text" FONT_STYLE;
                      SetAttributeProperties FONT_STYLE true true ]
  ∧ commands editor = [ (FONT_STYLE, FONT_STYLE) ]
  ∧ length (conversion editor) = (if supportAllValues then 3 else 1)%nat
  ∧ ∃ normalized, normalizeOptions options h = (Ok normalized, h').
Proof.
  intros H.
  destruct (normalizeOptions options h) as [[out|e] h1] eqn:Hnorm.
  - rewrite (init_run _ _ _ _ _ _ _ Hnorm) in H.
    destruct supportAllValues.
    + destruct (_prepareAnyValueConverters _ _ _ _) as [e1|err] eqn:E;
        [| discriminate H].
      injection H as <- <-.
      apply prepareAnyValueConverters_fields in E
        as (Ho & Hs & Hsch & Hc & Hlen).
      simpl. rewrite Ho, Hs, Hsch, Hc, length_app, Hlen. simpl.
      repeat split. eauto.
    + injection H as <- <-. simpl. repeat split. eauto.
  - rewrite (init_normalize_throws _ _ _ _ _ Hnorm) in H. discriminate H.
Qed.




End InitEffects.

(** ** Strings and numbers as configuration elements *)

Section Primitives.

Import JS Utils.

Lemma keywords_not_numeric s :
  s ∈ keywords → isNaN (parseFloat s) = true.
Proof.
  intros Hin. apply list_elem_of_In in Hin.
  assert (H : forallb (λ k, isNaN (parseFloat k)) keywords = true)
    by (vm_compute; reflexivity).
  by apply (proj1 (forallb_forall _ _) H).
Qed.

Lemma namedPresets_plain s h :
  s ∉ keywords → namedPresets s h = (Ok (Own VUndefined), h).
Proof.
  intros Hn. unfold namedPresets.
  assert (E : ∀ k, k ∈ keywords → String.eqb s k = false).
  { intros k Hk. apply String.eqb_neq. by intros ->. }
  rewrite !E
    by (unfold keywords; simpl;
        repeat (apply elem_of_cons; first [left; reflexivity | right])).
  rewrite bool_decide_eq_false_2; [done |].
  intros Hin. apply Hn. unfold keywords. simpl.
  do 5 (apply elem_of_cons; right). exact Hin.
Qed.

Lemma reachesNumericStep_plain x h :
  typeof x = "number" ∨ typeof x = "string" →
  ToString x ∉ keywords →
  reachesNumericStep x h.
Proof.
  intros Ht Hn.
  assert (Hu : namedPresets "undefined" h = (Ok (Own VUndefined), h))
    by reflexivity.
  split; [| split].
  - exists (VBool false). split; [| done].
    unfold isFullItemDefinition. by destruct Ht as [-> | ->].
  - exists (Own VUndefined). split; [| done].
    unfold findPreset.
    rewrite (bind_step _ _ _ _ _ (namedPresets_plain _ h Hn)). simpl.
    destruct x; try (by destruct Ht); exact Hu.
  - destruct x; try done. simpl in *. apply String.eqb_neq.
    intros ->. apply Hn. unfold keywords. simpl.
    do 4 (apply elem_of_cons; right). apply elem_of_cons. by left.
Qed.

Lemma primitive_option x h :
  typeof x = "number" ∨ typeof x = "string" →
  isNaN (parseFloat (ToString x)) = false →
  ∃ h', normalizeOptions [x] h = (Ok [VRef (length h)], h')
        ∧ getProp (VRef (length h)) "model" h'
          = (Ok (VString (Number_toString (parseFloat (ToString x))
                          +:+ "px")), h')
        ∧ getProp (VRef (length h)) "title" h'
          = (Ok (VString (ToString x)), h')
        ∧ length h' = (length h + 3)%nat.
Proof.
  intros Ht Hnum.
  assert (Hn : ToString x ∉ keywords).
  { intros Hin. apply keywords_not_numeric in Hin. congruence. }
  pose proof (reachesNumericStep_plain x h Ht Hn) as Hreach.
  assert (Hto : typeof x ≠ "object") by (destruct Ht as [-> | ->]; done).
  pose proof (pixelHeap_shape (h ++ [shortDefinition x]) (length h)
                (shortDefinition x) (lookup_new0 _ _ _)) as (Hm & Hti & _).
  eexists. split; [| split; [exact Hm | split; [exact Hti |]]].
  - apply normalizeOptions_singleton with (v := VRef (length h)).
    rewrite (getOptionDefinition_numeric _ _ Hreach).
    rewrite (bind_step _ _ _ _ _ (isNumericalDefinition_primitive _ h Hto)).
    rewrite Hnum. by apply generatePixelPreset_short.
  - rewrite length_pixelHeap, !length_app by apply lookup_new0.
    simpl. lia.
Qed.

Lemma primitive_dropped x h :
  typeof x = "number" ∨ typeof x = "string" →
  ToString x ∉ keywords →
  isNaN (parseFloat (ToString x)) = true →
  normalizeOptions [x] h = (Ok [], h).
Proof.
  intros Ht Hn Hnan.
  assert (Hto : typeof x ≠ "object") by (destruct Ht as [-> | ->]; done).
  rewrite (normalizeOptions_singleton _ _ _ _
             (getOptionDefinition_dropped _ _
                (reachesNumericStep_plain x h Ht Hn) Hto Hnan)).
  reflexivity.
Qed.

(** X13.  A string element whose text [parseFloat] reads becomes one new
    option, whose title is the string and whose model is the number read
    followed by "px"; three objects are allocated for it.  No preset name,
    no inherited name and not ['default'] is such a string.  A string that
    is none of those names and that [parseFloat] does not read is dropped
    and leaves the store as it was. *)
Theorem string_elements (s : string) (h : Heap) :
  (isNaN (parseFloat s) = false →
   ∃ h', normalizeOptions [VString s] h = (Ok [VRef (length h)], h')
         ∧ getProp (VRef (length h)) "model" h'
           = (Ok (VString (Number_toString (parseFloat s) +:+ "px")), h')
         ∧ getProp (VRef (length h)) "title" h' = (Ok (VString s), h')
         ∧ length h' = (length h + 3)%nat)
  ∧ (s ∈ keywords → isNaN (parseFloat s) = true)
  ∧ (s ∉ keywords → isNaN (parseFloat s) = true →
     normalizeOptions [VString s] h = (Ok [], h)).
Proof.
  split; [| split].
  - intros Hnum. apply (primitive_option (VString s)); [by right | done].
  - apply keywords_not_numeric.
  - intros Hn Hnan. apply primitive_dropped; [by right | done | done].
Qed.

Lemma scanDigits_count s : ∀ acc cnt,
  (cnt <= (scanDigits s acc cnt).1.2)%nat.
Proof.
  induction s as [|c r IH]; intros acc cnt; simpl; [lia |].
  destruct (isDigit c); simpl; [| lia].
  specialize (IH (acc * 10 + digitValue c)%N (S cnt)). lia.
Qed.

Lemma mkFinite_isNaN neg m e : isNaN (mkFinite neg m e) = false.
Proof. unfold mkFinite. by destruct (canonical m e). Qed.

(** After the sign, a digit or [Infinity] is enough for a number. *)
Lemma parseFloat_unsigned neg s1 :
  numeralStart s1 = true →
  isNaN
    (if startsWith "Infinity" s1 then Infinity neg else
     let '(ip, icnt, s2) := scanDigits s1 0%N 0%nat in
     let '(m, fcnt, s3) :=
       match s2 with
       | String c r =>
           if Ascii.eqb c "." then scanDigits r ip 0%nat else (ip, 0%nat, s2)
       | EmptyString => (ip, 0%nat, s2)
       end in
     if (icnt + fcnt =? 0)%nat then NaN
     else mkFinite neg m (scanExponent s3 - Z.of_nat fcnt)) = false.
Proof.
  intros H. destruct (startsWith "Infinity" s1) eqn:Einf; [done |].
  destruct s1 as [|c r]; [done |].
  unfold numeralStart in H. rewrite Einf, orb_false_r in H.
  pose proof (scanDigits_count r (0 * 10 + digitValue c)%N 1) as Hc.
  cbn [scanDigits]. rewrite H.
  destruct (scanDigits r _ 1) as [[ip icnt] s2]. simpl in Hc.
  assert (Hfin : ∀ m fcnt s3,
            isNaN (if (icnt + fcnt =? 0)%nat then NaN
                   else mkFinite neg m (scanExponent s3 - Z.of_nat fcnt))
              = false).
  { intros m fcnt s3.
    destruct (icnt + fcnt =? 0)%nat eqn:E;
      [apply Nat.eqb_eq in E; lia | apply mkFinite_isNaN]. }
  destruct s2 as [|d r2]; [apply Hfin |].
  destruct (Ascii.eqb d "."); [| apply Hfin].
  destruct (scanDigits r2 ip 0) as [[m fcnt] s3]. apply Hfin.
Qed.

Lemma numeralStart_head s :
  numeralStart s = true →
  ∃ c r, s = String c r ∧ isWhiteSpace c = false
         ∧ Ascii.eqb c "-" = false ∧ Ascii.eqb c "+" = false.
Proof.
  destruct s as [|c r]; [done |]. intros H. exists c, r.
  split; [done |]. unfold numeralStart in H.
  apply orb_true_iff in H as [H | H].
  - split; [by apply isDigit_not_space | by apply isDigit_not_sign].
  - simpl in H. apply andb_true_iff in H as [H _].
    apply Ascii.eqb_eq in H as ->. done.
Qed.

Lemma parseFloat_signedNumeralStart s :
  signedNumeralStart s = true → isNaN (parseFloat s) = false.
Proof.
  destruct s as [|c r]; [done |]. unfold signedNumeralStart.
  destruct (Ascii.eqb c "-") eqn:Ec; intros H.
  - apply Ascii.eqb_eq in Ec as ->.
    unfold parseFloat. cbn [trimStart isWhiteSpace nat_of_ascii].
    change (trimStart (String "-" r)) with (String "-"%char r).
    cbn [scanSign Ascii.eqb]. simpl Ascii.eqb.
    by apply parseFloat_unsigned.
  - destruct (numeralStart_head _ H) as (c' & r' & [= <- <-] & Hw & _ & Hp).
    unfold parseFloat. cbn [trimStart]. rewrite Hw.
    cbn [scanSign]. rewrite Ec, Hp.
    by apply parseFloat_unsigned.
Qed.

Lemma digits_head m : ∃ c r, digits m = String c r ∧ isDigit c = true.
Proof.
  unfold digits, NilZero.string_of_uint.
  destruct (N.to_uint m); simpl; eauto.
Qed.

Lemma numeralStart_app c r t :
  isDigit c = true → numeralStart (String c r +:+ t) = true.
Proof. intros H. simpl. by rewrite H. Qed.

Lemma Number_toString_start x :
  isNaN x = false → signedNumeralStart (Number_toString x) = true.
Proof.
  destruct x as [|neg|neg m0 e0]; [done | by destruct neg |]. intros _.
  unfold Number_toString.
  destruct (canonical m0 e0) as [m e].
  destruct (m =? 0)%N; [done |].
  destruct (digits_head m) as (c & r & Es & Hc).
  rewrite Es.
  set (k := Z.of_nat (String.length (String c r))).
  assert (Hbody : ∀ body,
            numeralStart body = true →
            signedNumeralStart (if neg then "-" +:+ body else body) = true).
  { intros body Hb. destruct neg; [exact Hb |].
    destruct (numeralStart_head _ Hb) as (c' & r' & -> & _ & E & _).
    unfold signedNumeralStart. by rewrite E. }
  apply Hbody.
  destruct ((k <=? k + e) && (k + e <=? 21));
    [by apply numeralStart_app |].
  destruct ((0 <? k + e) && (k + e <=? 21)) eqn:En.
  { apply andb_true_iff in En as [En _]. apply Z.ltb_lt in En.
    destruct (Z.to_nat (k + e)) as [|n] eqn:E; [lia |].
    simpl. by rewrite Hc. }
  destruct ((-6 <? k + e) && (k + e <=? 0)); [done |].
  destruct (k =? 1); [by apply numeralStart_app |].
  simpl. by rewrite Hc.
Qed.

(** X14.  A number element other than NaN becomes one new option, whose
    title is the number's text and whose model is that text read back by
    [parseFloat], printed, and followed by "px"; three objects are
    allocated for it.  NaN is dropped and leaves the store as it was. *)
Theorem number_elements (x : Number) (h : Heap) :
  (isNaN x = false →
   ∃ h', normalizeOptions [VNumber x] h = (Ok [VRef (length h)], h')
         ∧ getProp (VRef (length h)) "model" h'
           = (Ok (VString (Number_toString (parseFloat (Number_toString x))
                           +:+ "px")), h')
         ∧ getProp (VRef (length h)) "title" h'
           = (Ok (VString (Number_toString x)), h')
         ∧ length h' = (length h + 3)%nat)
  ∧ (isNaN x = true → normalizeOptions [VNumber x] h = (Ok [], h)).
Proof.
  split.
  - intros Hx. apply (primitive_option (VNumber x)); [by left |].
    by apply parseFloat_signedNumeralStart, Number_toString_start.
  - intros Hx. destruct x; try discriminate Hx.
    apply primitive_dropped; [by left | | by vm_compute].
    intros Hin. apply list_elem_of_In in Hin.
    assert (H : forallb (λ k, negb (String.eqb "NaN" k)) keywords = true)
      by (vm_compute; reflexivity).
    apply (proj1 (forallb_forall _ _) H) in Hin.
    by rewrite String.eqb_refl in Hin.
Qed.

End Primitives.

(** ** Numerals followed by other text *)

Section Numerals.

Import JS Utils.

Lemma append_cons c a b : String c a +:+ b = String c (a +:+ b).
Proof. reflexivity. Qed.

Lemma append_nil_r a : a +:+ "" = a.
Proof. induction a as [|c a IH]; [done |]. by rewrite append_cons, IH. Qed.
















End Numerals.

(** * The dropdown *)

Section Localisation.

Import JS Utils UI.

Variable t : string → string.
Variable StringToNumber : string → Number.

Ltac in_list :=
  repeat (apply elem_of_cons; first [left; reflexivity | right]).

Lemma ToString_not_title v :
  (∀ s, v ≠ VString s) →
  (ToString v ∉ ownTitles) ∧ (ToString v ∉ objectPrototypeKeys).
Proof.
  intros Hv.
  assert (Hk : ∀ s, s ∈ ownTitles ++ objectPrototypeKeys →
                    signedNumeralStart s = false
                    ∧ s ∉ ["undefined"; "null"; "true"; "false"; "NaN";
                           "[object Object]"]).
  { intros s Hs. apply list_elem_of_In in Hs.
    assert (H : forallb
                  (λ k, negb (signedNumeralStart k)
                        && forallb (λ w, negb (String.eqb k w))
                             ["undefined"; "null"; "true"; "false"; "NaN";
                              "[object Object]"])
                  (ownTitles ++ objectPrototypeKeys) = true)
      by (vm_compute; reflexivity).
    apply (proj1 (forallb_forall _ _) H) in Hs.
    apply andb_true_iff in Hs as [H1 H2].
    split; [by apply negb_true_iff in H1 |].
    intros Hin. apply list_elem_of_In in Hin.
    apply (proj1 (forallb_forall _ _) H2) in Hin.
    by rewrite String.eqb_refl in Hin. }
  assert (Hno : ToString v ∉ ownTitles ++ objectPrototypeKeys).
  { intros Hin. destruct (Hk _ Hin) as [Hs Hw].
    destruct v as [| |b|n|s|l]; simpl in *.
    - apply Hw. in_list.
    - apply Hw. in_list.
    - apply Hw. destruct b; in_list.
    - destruct (isNaN n) eqn:En.
      + destruct n; try discriminate En. apply Hw. in_list.
      + rewrite (Number_toString_start _ En) in Hs. discriminate Hs.
    - by apply (Hv s).
    - apply Hw. in_list. }
  split; intros Hin; apply Hno; apply elem_of_app; [by left | by right].
Qed.

Lemma localizedTitles_own k :
  k ∈ ownTitles → localizedTitles t k = Own (VString (t k)).
Proof.
  intros Hk. unfold localizedTitles. by rewrite bool_decide_eq_true_2.
Qed.

Lemma localizedTitles_inherited k :
  k ∈ objectPrototypeKeys → localizedTitles t k = Inherited k.
Proof.
  intros Hk. unfold localizedTitles.
  rewrite bool_decide_eq_false_2.
  - by rewrite bool_decide_eq_true_2.
  - intros Hin. apply list_elem_of_In in Hin, Hk.
    assert (H : forallb (λ a, forallb (λ b, negb (String.eqb a b))
                                      objectPrototypeKeys)
                        ownTitles = true) by (vm_compute; reflexivity).
    apply (proj1 (forallb_forall _ _) H) in Hin.
    apply (proj1 (forallb_forall _ _) Hin) in Hk.
    by rewrite String.eqb_refl in Hk.
Qed.

Lemma localizedTitles_none k :
  k ∉ ownTitles → k ∉ objectPrototypeKeys →
  localizedTitles t k = Own VUndefined.
Proof.
  intros H1 H2. unfold localizedTitles.
  by rewrite !bool_decide_eq_false_2.
Qed.

Lemma ubind_step {A B} (m : UM A) (k : A → UM B) s a s1 :
  m s = (Ok a, s1) → ubind m k s = k a s1.
Proof. unfold ubind. by intros ->. Qed.

Lemma ubind_throw_step {A B} (m : UM A) (k : A → UM B) s e s1 :
  m s = (Throw e, s1) → ubind m k s = (Throw e, s1).
Proof. unfold ubind. by intros ->. Qed.

Lemma getTitle_plain s l obj :
  objects s !! l = Some obj → memberTitles s !! l = None →
  getTitle (VRef l) s = (Ok (Own (default VUndefined (obj !! "title"))), s).
Proof.
  intros Hl Hm. unfold getTitle.
  by rewrite (getProp_ref _ _ _ "title" Hl), Hm.
Qed.


(** What the callback does with an option that is an object of the store
    whose title is a value of the configuration. *)
Lemma localizeOption_cases l obj h mt :
  h !! l = Some obj → mt !! l = None →
  let s := {| objects := h; memberTitles := mt |} in
  (localizeOption t StringToNumber (VRef l) s = (Ok (VRef l), s)
   ∧ ∀ k, obj !! "title" = Some (VString k) →
          (k ∉ objectPrototypeKeys)
          ∧ (k ∈ ownTitles → t k = "" ∨ t k = k))
  ∨ (∃ k, obj !! "title" = Some (VString k) ∧ k ∈ ownTitles
          ∧ t k ≠ "" ∧ t k ≠ k
          ∧ localizeOption t StringToNumber (VRef l) s
            = (Ok (VRef (length h)),
               {| objects := h ++ [<["title" := VString (t k)]> obj];
                  memberTitles := delete (length h) mt |}))
  ∨ (∃ k, obj !! "title" = Some (VString k) ∧ k ∈ objectPrototypeKeys
          ∧ localizeOption t StringToNumber (VRef l) s
            = (Ok (VRef (length h)),
               {| objects := h ++ [delete "title" obj];
                  memberTitles := <[length h := k]> mt |})).
Proof.
  intros Hl Hm s.
  assert (Hl' : objects s !! l = Some obj) by exact Hl.
  assert (Hm' : memberTitles s !! l = None) by exact Hm.
  unfold localizeOption.
  rewrite (ubind_step _ _ _ _ _ (getTitle_plain _ _ _ Hl' Hm')).
  assert (Hother : ∀ ti, (∀ k, ti ≠ VString k) →
            match localizedTitles t (ToString ti) with
            | Own title =>
                if ToBoolean title
                   && negb (looseEquals StringToNumber title ti)
                then assign (VRef l) (Own title)
                else uret (VRef l)
            | Inherited key => assign (VRef l) (Inherited key)
            end s = (Ok (VRef l), s)).
  { intros ti Hv. destruct (ToString_not_title _ Hv) as [H1 H2].
    by rewrite (localizedTitles_none _ H1 H2). }
  destruct (obj !! "title") as [ti|] eqn:Eti;
    [| left; split; [by apply Hother | intros k [=]]].
  change (default VUndefined (Some ti)) with ti.
  destruct ti as [| |b|n|k|l'];
    try (left; split; [by apply Hother | by intros k [=]]).
  clear Hother. change (ToString (VString k)) with k.
  destruct (decide (k ∈ ownTitles)) as [Hown | Hown].
  - rewrite (localizedTitles_own _ Hown).
    change (looseEquals StringToNumber (VString (t k)) (VString k))
      with (String.eqb (t k) k).
    destruct (decide (t k = "")) as [E | E].
    { left. rewrite E. split; [reflexivity |].
      intros ? [= <-]. split; [| by left].
      intros Hin. pose proof (localizedTitles_inherited _ Hin) as Hi.
      rewrite (localizedTitles_own _ Hown) in Hi. discriminate Hi. }
    assert (Ht : ToBoolean (VString (t k)) = true)
      by (simpl; destruct (t k); done).
    rewrite Ht.
    destruct (String.eqb (t k) k) eqn:Eq; cbn [negb andb].
    + apply String.eqb_eq in Eq. left. split; [reflexivity |].
      intros ? [= <-]. split; [| by right].
      intros Hin. pose proof (localizedTitles_inherited _ Hin) as Hi.
      rewrite (localizedTitles_own _ Hown) in Hi. discriminate Hi.
    + apply String.eqb_neq in Eq. right. left. exists k.
      repeat (split; [done |]).
      unfold assign. cbn [objects memberTitles s]. by rewrite Hl.
  - destruct (decide (k ∈ objectPrototypeKeys)) as [Hinh | Hinh].
    + right. right. exists k. repeat (split; [done |]).
      rewrite (localizedTitles_inherited _ Hinh).
      unfold assign. cbn [objects memberTitles s]. by rewrite Hl.
    + left. rewrite (localizedTitles_none _ Hown Hinh).
      split; [reflexivity |]. intros ? [= <-]. done.
Qed.

Lemma titled_unique h1 l obj k :
  h1 !! l = Some obj → titled h1 (VRef l) k →
  obj !! "title" = Some (VString k).
Proof.
  intros Hl (l' & obj' & [= <-] & Hl' & Hk).
  rewrite Hl in Hl'. by injection Hl' as <-.
Qed.

(** The callback over a list of options that are objects of [h1], run
    after the copies [cl] have been made. *)
Lemma umapM_localizeOption h1 os : ∀ cl mt,
  (∀ l, (l < length h1)%nat → mt !! l = None) →
  Forall (λ o, ∃ l, o = VRef l ∧ is_Some (h1 !! l)) os →
  ∃ outs cl' mt',
    let s2 := {| objects := h1 ++ cl ++ cl'; memberTitles := mt' |} in
    umapM (localizeOption t StringToNumber) os
      {| objects := h1 ++ cl; memberTitles := mt |} = (Ok outs, s2)
    ∧ (∀ l, (l < length (h1 ++ cl))%nat → mt' !! l = mt !! l)
    ∧ Forall2 (localizedFrom t h1 s2) os outs
    ∧ ((∀ k, k ∈ ownTitles → t k = "" ∨ t k = k) →
       Forall (λ o, ∀ k, titled h1 o k → k ∉ objectPrototypeKeys) os →
       cl' = [] ∧ mt' = mt ∧ outs = os).
Proof.
  induction os as [|o os IH]; intros cl mt Hmt Hos.
  - exists [], [], mt. rewrite !app_nil_r.
    split; [reflexivity |]. split; [done |]. split; [constructor | done].
  - apply Forall_cons in Hos as [(l & -> & [obj Hl]) Hos].
    assert (Hl' : (h1 ++ cl) !! l = Some obj) by by apply lookup_app_l_Some.
    pose proof (lookup_lt_Some _ _ _ Hl) as Hlt.
    destruct (localizeOption_cases l obj (h1 ++ cl) mt Hl' (Hmt l Hlt))
      as [[E Hk] | [(k & Hti & Hown & Hne & Hd & E) | (k & Hti & Hinh & E)]].
    + destruct (IH cl mt Hmt Hos) as (outs & cl' & mt' & Hrun & Hkeep
                                      & Hshape & Hid).
      exists (VRef l :: outs), cl', mt'.
      split; [| split; [done | split]].
      * simpl umapM. rewrite (ubind_step _ _ _ _ _ E).
        by rewrite (ubind_step _ _ _ _ _ Hrun).
      * constructor; [| done]. left. split; [done |].
        intros k Hk'. apply Hk. exact (titled_unique _ _ _ _ Hl Hk').
      * intros Ht Hno. apply Forall_cons in Hno as [_ Hno].
        destruct (Hid Ht Hno) as (-> & -> & ->). done.
    + set (c := <["title" := VString (t k)]> obj) in *.
      assert (Hmt1 : ∀ l0, (l0 < length h1)%nat →
                           delete (length (h1 ++ cl)) mt !! l0 = None).
      { intros l0 Hl0. rewrite lookup_delete_ne; [by apply Hmt |].
        rewrite length_app. lia. }
      destruct (IH (cl ++ [c]) _ Hmt1 Hos)
        as (outs & cl' & mt' & Hrun & Hkeep & Hshape & Hid).
      assert (Ecl : h1 ++ (cl ++ [c]) ++ cl' = h1 ++ cl ++ c :: cl')
        by (by rewrite <- !app_assoc).
      assert (Ecl1 : h1 ++ cl ++ [c] = (h1 ++ cl) ++ [c])
        by (by rewrite app_assoc).
      rewrite Ecl in *. rewrite Ecl1 in *.
      exists (VRef (length (h1 ++ cl)) :: outs), (c :: cl'), mt'.
      split; [| split; [| split]].
      * simpl umapM. rewrite (ubind_step _ _ _ _ _ E).
        by rewrite (ubind_step _ _ _ _ _ Hrun).
      * intros l0 Hl0. rewrite Hkeep by (rewrite (length_app (h1 ++ cl)); simpl; lia).
        rewrite lookup_delete_ne; [done | lia].
      * constructor; [| done]. right. left. exists k.
        split; [by exists l, obj |]. repeat (split; [done |]).
        exists l, obj, (length (h1 ++ cl)).
        repeat (split; [done |]).
        split; [rewrite length_app; lia |]. cbn [objects memberTitles].
        split.
        -- rewrite (app_assoc h1 cl). by apply list_lookup_middle.
        -- rewrite Hkeep by (rewrite (length_app (h1 ++ cl)); simpl; lia).
           by rewrite lookup_delete_eq.
      * intros Ht _. destruct (Ht k Hown); done.
    + set (c := delete "title" obj) in *.
      assert (Hmt1 : ∀ l0, (l0 < length h1)%nat →
                           <[length (h1 ++ cl) := k]> mt !! l0 = None).
      { intros l0 Hl0. rewrite lookup_insert_ne; [by apply Hmt |].
        rewrite length_app. lia. }
      destruct (IH (cl ++ [c]) _ Hmt1 Hos)
        as (outs & cl' & mt' & Hrun & Hkeep & Hshape & Hid).
      assert (Ecl : h1 ++ (cl ++ [c]) ++ cl' = h1 ++ cl ++ c :: cl')
        by (by rewrite <- !app_assoc).
      assert (Ecl1 : h1 ++ cl ++ [c] = (h1 ++ cl) ++ [c])
        by (by rewrite app_assoc).
      rewrite Ecl in *. rewrite Ecl1 in *.
      exists (VRef (length (h1 ++ cl)) :: outs), (c :: cl'), mt'.
      split; [| split; [| split]].
      * simpl umapM. rewrite (ubind_step _ _ _ _ _ E).
        by rewrite (ubind_step _ _ _ _ _ Hrun).
      * intros l0 Hl0. rewrite Hkeep by (rewrite (length_app (h1 ++ cl)); simpl; lia).
        rewrite lookup_insert_ne; [done | lia].
      * constructor; [| done]. right. right. exists k.
        split; [by exists l, obj |]. split; [done |].
        exists l, obj, (length (h1 ++ cl)).
        repeat (split; [done |]).
        split; [rewrite length_app; lia |]. cbn [objects memberTitles].
        split.
        -- rewrite (app_assoc h1 cl). by apply list_lookup_middle.
        -- rewrite Hkeep by (rewrite (length_app (h1 ++ cl)); simpl; lia).
           by rewrite lookup_insert_eq.
      * intros _ Hno. apply Forall_cons in Hno as [Hno _].
        destruct (Hno k); [by exists l, obj | done].
Qed.

Lemma normalizeOptions_objects xs h outs h' :
  normalizeOptions xs h = (Ok outs, h') →
  Forall (λ o, ∃ l, o = VRef l ∧ is_Some (h' !! l)) outs.
Proof.
  unfold normalizeOptions. intros H.
  apply bind_Ok in H as (vs & h1 & Hmap & H).
  apply ret_Ok in H as [<- <-].
  apply mapM_getOptionDefinition_origin in Hmap as [_ Hall].
  apply Forall_forall. intros v Hv.
  apply list_elem_of_In, filter_In in Hv as [Hin Htruthy].
  rewrite Forall_forall in Hall.
  destruct (Hall v (proj2 (list_elem_of_In _ _) Hin))
    as [-> | (l & -> & Hl & _)]; [discriminate Htruthy |].
  exists l. split; [done |]. by apply lookup_lt_is_Some_2.
Qed.

(** The run of [_getLocalizedOptions] once normalisation has returned. *)
Lemma getLocalizedOptions_run editor h normalized h1 :
  normalizeOptions (config_options editor) h = (Ok normalized, h1) →
  ∃ localized clones mt,
    let s2 := {| objects := h1 ++ clones; memberTitles := mt |} in
    _getLocalizedOptions t StringToNumber editor h = (Ok localized, s2)
    ∧ (∀ l, (l < length h1)%nat → mt !! l = None)
    ∧ Forall2 (localizedFrom t h1 s2) normalized localized
    ∧ ((∀ k, k ∈ ownTitles → t k = "" ∨ t k = k) →
       Forall (λ o, ∀ k, titled h1 o k → k ∉ objectPrototypeKeys)
              normalized →
       clones = [] ∧ mt = ∅ ∧ localized = normalized).
Proof.
  intros Hnorm.
  destruct (umapM_localizeOption h1 normalized [] ∅
              (λ l _, lookup_empty l)
              (normalizeOptions_objects _ _ _ _ Hnorm))
    as (outs & clones & mt & Hrun & Hkeep & Hshape & Hid).
  rewrite app_nil_r in Hrun, Hkeep. simpl in Hrun, Hshape.
  exists outs, clones, mt. split; [| split; [| split; [done |]]].
  - unfold _getLocalizedOptions. rewrite Hnorm. exact Hrun.
  - intros l Hl. rewrite (Hkeep l Hl). apply lookup_empty.
  - exact Hid.
Qed.

(** X15.  When [_getLocalizedOptions] returns, its list has one entry for
    each normalised option, in order; the store holds the objects
    normalisation left, unchanged, followed by the copies made; and each
    entry is the normalised option itself or a copy made by this call,
    which has every property of the option (the same model and the same
    view object) except the title.  A copy is made in two cases: for one
    of the five titles 'Default', 'Tiny', 'Small', 'Big', 'Huge' whose
    translation is not empty and differs from it, and the copy's title is
    the translation; and for a title that names a member of
    [Object.prototype], and the copy's title is that member. *)
Theorem localized_options (editor : Editor) (h : Heap)
    (localized : list Value) (s2 : Store) :
  _getLocalizedOptions t StringToNumber editor h = (Ok localized, s2) →
  ∃ normalized h1 clones,
    normalizeOptions (config_options editor) h = (Ok normalized, h1)
    ∧ objects s2 = h1 ++ clones
    ∧ (∀ l, (l < length h1)%nat → memberTitles s2 !! l = None)
    ∧ Forall2 (localizedFrom t h1 s2) normalized localized.
Proof.
  intros H.
  destruct (normalizeOptions (config_options editor) h)
    as [[normalized|e] h1] eqn:Hnorm.
  - destruct (getLocalizedOptions_run _ _ _ _ Hnorm)
      as (outs & clones & mt & Hrun & Hmt & Hshape & _).
    rewrite Hrun in H. injection H as <- <-.
    exists normalized, h1, clones. done.
  - unfold _getLocalizedOptions in H. rewrite Hnorm in H. discriminate H.
Qed.



End Localisation.

(** ** The item definitions *)

Section Items.

Import Utils UI.

Lemma get_read v k s : get v k s = (read (objects s) v k, s).
Proof. reflexivity. Qed.

Lemma getTitle_readTitle option s :
  getTitle option s = (readTitle s option, s).
Proof.
  unfold readTitle, getTitle.
  by destruct (getProp option "title" (objects s)) as [[title|e] h].
Qed.

Lemma read_frame h ext v k x :
  read h v k = Ok x → read (h ++ ext) v k = Ok x.
Proof.
  unfold read, getProp. destruct v; try done.
  destruct (h !! l) as [o|] eqn:E; [| discriminate].
  by rewrite (lookup_app_l_Some _ _ _ _ E).
Qed.

Lemma read_ref h l o k :
  h !! l = Some o → read h (VRef l) k = Ok (default VUndefined (o !! k)).
Proof. intros E. unfold read. by rewrite (getProp_ref _ _ _ _ E). Qed.

Lemma readTitle_plain s l obj :
  objects s !! l = Some obj → memberTitles s !! l = None →
  readTitle s (VRef l) = Ok (Own (default VUndefined (obj !! "title"))).
Proof.
  intros Hl Hm. unfold readTitle. by rewrite (getTitle_plain _ _ _ Hl Hm).
Qed.


Lemma get_of_read v k s x :
  read (objects s) v k = Ok x → get v k s = (Ok x, s).
Proof. intros E. by rewrite get_read, E. Qed.

Lemma getTitle_of_read option s title :
  readTitle s option = Ok title → getTitle option s = (Ok title, s).
Proof. intros E. by rewrite getTitle_readTitle, E. Qed.

Lemma viewProp_read option k s view :
  read (objects s) option "view" = Ok view →
  viewProp option k s
    = ((if ToBoolean view then read (objects s) view k else Ok view), s).
Proof.
  intros Hv. unfold viewProp.
  rewrite (ubind_step _ _ _ _ _ (get_of_read _ _ _ _ Hv)).
  destruct (ToBoolean view); [| reflexivity].
  rewrite (ubind_step _ _ _ _ _ (get_of_read _ _ _ _ Hv)).
  apply get_read.
Qed.

(** A truthy [option.view && option.view[k]] is [option.view[k]]. *)
Lemma viewProp_truthy h view k x :
  (if ToBoolean view then read h view k else Ok view) = Ok x →
  ToBoolean x = true →
  read h view k = Ok x.
Proof.
  destruct (ToBoolean view) eqn:E; [done |].
  intros [= <-] Hx. congruence.
Qed.

Lemma labelStyle_read option s view styles def :
  read (objects s) option "view" = Ok view →
  read (objects s) view "styles" = Ok styles →
  (let+ view := get option "view" in
   let+ styles := get view "styles" in
   let+ fontStyle := get styles "font-style" in
   uret (set_labelStyle ("font-style:" +:+ ToString fontStyle) def)) s
  = (match read (objects s) styles "font-style" with
     | Ok fontStyle =>
         Ok (set_labelStyle ("font-style:" +:+ ToString fontStyle) def)
     | Throw e => Throw e
     end, s).
Proof.
  intros Hv Hs.
  rewrite (ubind_step _ _ _ _ _ (get_of_read _ _ _ _ Hv)).
  rewrite (ubind_step _ _ _ _ _ (get_of_read _ _ _ _ Hs)).
  pose proof (get_read styles "font-style" s) as E.
  destruct (read (objects s) styles "font-style") as [fs|e].
  - by rewrite (ubind_step _ _ _ _ _ E).
  - by rewrite (ubind_throw_step _ _ _ _ _ E).
Qed.

Lemma class_read option s view classes def :
  read (objects s) option "view" = Ok view →
  read (objects s) view "classes" = Ok classes →
  (let+ view := get option "view" in
   let+ classes := get view "classes" in
   uret (set_class (class def +:+ " " +:+ ToString classes) def)) s
  = (Ok (set_class (class def +:+ " " +:+ ToString classes) def), s).
Proof.
  intros Hv Hc.
  rewrite (ubind_step _ _ _ _ _ (get_of_read _ _ _ _ Hv)).
  by rewrite (ubind_step _ _ _ _ _ (get_of_read _ _ _ _ Hc)).
Qed.

(** [listItem] in terms of what it reads. *)
Lemma listItem_view option s model title view :
  read (objects s) option "model" = Ok model →
  readTitle s option = Ok title →
  read (objects s) option "view" = Ok view →
  listItem option s
  = (viewItem (objects s) (plainItem option model title) view, s).
Proof.
  intros Hm Ht Hv. unfold listItem.
  rewrite (ubind_step _ _ _ _ _ (get_of_read _ _ _ _ Hm)).
  rewrite (ubind_step _ _ _ _ _ (getTitle_of_read _ _ _ Ht)).
  cbv zeta. fold (plainItem option model title).
  set (def := plainItem option model title).
  unfold viewItem.
  pose proof (viewProp_read option "styles" s view Hv) as Es.
  destruct (if ToBoolean view then read (objects s) view "styles"
            else Ok view) as [styles|e] eqn:ES;
    [| by rewrite (ubind_throw_step _ _ _ _ _ Es)].
  rewrite (ubind_step _ _ _ _ _ Es).
  assert (E1 :
    (if ToBoolean styles then
       let+ view := get option "view" in
       let+ styles := get view "styles" in
       let+ fontStyle := get styles "font-style" in
       uret (set_labelStyle ("font-style:" +:+ ToString fontStyle) def)
     else uret def) s
    = ((if ToBoolean styles then
          match read (objects s) styles "font-style" with
          | Ok fontStyle =>
              Ok (set_labelStyle ("font-style:" +:+ ToString fontStyle) def)
          | Throw e => Throw e
          end
        else Ok def), s)).
  { destruct (ToBoolean styles) eqn:Ets; [| reflexivity].
    apply (labelStyle_read _ _ view); [exact Hv |].
    by apply viewProp_truthy. }
  destruct (if ToBoolean styles then _ else Ok def) as [def1|e];
    [| by rewrite (ubind_throw_step _ _ _ _ _ E1)].
  rewrite (ubind_step _ _ _ _ _ E1).
  pose proof (viewProp_read option "classes" s view Hv) as Ec.
  destruct (if ToBoolean view then read (objects s) view "classes"
            else Ok view) as [classes|e] eqn:EC;
    [| by rewrite (ubind_throw_step _ _ _ _ _ Ec)].
  rewrite (ubind_step _ _ _ _ _ Ec).
  destruct (ToBoolean classes) eqn:Etc; [| reflexivity].
  apply (class_read _ _ view); [exact Hv |]. by apply viewProp_truthy.
Qed.

Lemma read_error h v k e :
  read h v k = Throw e → e = TypeError ∨ e = InvalidReference.
Proof.
  unfold read, getProp. destruct v; try (intros [= <-]; by left); try done.
  destruct (h !! l); [done | intros [= <-]; by right].
Qed.

Lemma readTitle_error s option e :
  readTitle s option = Throw e → e = TypeError ∨ e = InvalidReference.
Proof.
  unfold readTitle, getTitle.
  destruct (getProp option "title" (objects s)) as [[title|e0] h] eqn:E;
    [done |].
  intros [= <-]. apply (read_error (objects s) option "title").
  unfold read. by rewrite E.
Qed.

(** What [listItem] has read when it returns. *)
Lemma listItem_inv option s r s' :
  listItem option s = (r, s') →
  s' = s
  ∧ (∀ e, r = Throw e → e = TypeError ∨ e = InvalidReference)
  ∧ (∀ item, r = Ok item →
       ∃ model title view,
         read (objects s) option "model" = Ok model
         ∧ readTitle s option = Ok title
         ∧ read (objects s) option "view" = Ok view
         ∧ viewItem (objects s) (plainItem option model title) view
           = Ok item).
Proof.
  intros H.
  destruct (read (objects s) option "model") as [model|e] eqn:Hm.
  2: { unfold listItem in H.
       pose proof (get_read option "model" s) as E. rewrite Hm in E.
       rewrite (ubind_throw_step _ _ _ _ _ E) in H. injection H as <- <-.
       split; [done |]. split; [| done].
       intros ? [= <-]. by eapply read_error. }
  destruct (readTitle s option) as [title|e] eqn:Ht.
  2: { unfold listItem in H.
       rewrite (ubind_step _ _ _ _ _ (get_of_read _ _ _ _ Hm)) in H.
       pose proof (getTitle_readTitle option s) as E. rewrite Ht in E.
       rewrite (ubind_throw_step _ _ _ _ _ E) in H. injection H as <- <-.
       split; [done |]. split; [| done].
       intros ? [= <-]. by eapply readTitle_error. }
  destruct (read (objects s) option "view") as [view|e] eqn:Hv.
  2: { unfold listItem in H.
       rewrite (ubind_step _ _ _ _ _ (get_of_read _ _ _ _ Hm)) in H.
       rewrite (ubind_step _ _ _ _ _ (getTitle_of_read _ _ _ Ht)) in H.
       cbv zeta in H. unfold viewProp in H.
       pose proof (get_read option "view" s) as E. rewrite Hv in E.
       rewrite (ubind_throw_step _ _ _ _ _
                  (ubind_throw_step _ _ _ _ _ E)) in H.
       injection H as <- <-.
       split; [done |]. split; [| done].
       intros ? [= <-]. by eapply read_error. }
  rewrite (listItem_view _ _ _ _ _ Hm Ht Hv) in H. injection H as <- <-.
  split; [done |]. split.
  - intros e He. unfold viewItem in He.
    repeat match type of He with
    | context [if ?b then _ else _] => destruct b
    | context [match read ?a ?b ?c with _ => _ end] =>
        let E := fresh "E" in
        destruct (read a b c) eqn:E;
        try (injection He as <-; by eapply read_error)
    end; discriminate He.
  - intros item Hi. exists model, title, view. done.
Qed.

(** The fields of an item definition that its view decides. *)
Lemma viewItem_Ok h def view item :
  viewItem h def view = Ok item →
  item_type item = item_type def
  ∧ commandName item = commandName def
  ∧ commandParam item = commandParam def
  ∧ label item = label def
  ∧ withText item = withText def
  ∧ isOn item = isOn def
  ∧ (labelStyle item = labelStyle def
     ∨ ∃ rest, labelStyle item = Some ("font-style:" +:+ rest))
  ∧ (∃ rest, class item = class def +:+ rest)
  ∧ ∀ def' ext,
      class def' = class def → labelStyle def' = labelStyle def →
      ∃ item',
        viewItem (h ++ ext) def' view = Ok item'
        ∧ class item' = class item ∧ labelStyle item' = labelStyle item.
Proof.
  unfold viewItem. intros H.
  destruct (if ToBoolean view then read h view "styles" else Ok view)
    as [styles|e] eqn:ES; [| discriminate H].
  destruct (if ToBoolean view then read h view "classes" else Ok view)
    as [classes|e] eqn:EC.
  2: { destruct (ToBoolean styles); [| discriminate H].
       destruct (read h styles "font-style"); discriminate H. }
  assert (ES' : ∀ ext, (if ToBoolean view
                        then read (h ++ ext) view "styles" else Ok view)
                       = Ok styles).
  { intros ext. destruct (ToBoolean view); [| done]. by apply read_frame. }
  assert (EC' : ∀ ext, (if ToBoolean view
                        then read (h ++ ext) view "classes" else Ok view)
                       = Ok classes).
  { intros ext. destruct (ToBoolean view); [| done]. by apply read_frame. }
  assert (Happ : ∀ a : string, a = a +:+ "").
  { induction a as [|c a IH]; [done |].
    change (String c a = String c (a +:+ "")). by f_equal. }
  destruct (ToBoolean styles) eqn:Ets.
  - destruct (read h styles "font-style") as [fs|e] eqn:Efs;
      [| discriminate H].
    injection H as <-.
    destruct (ToBoolean classes) eqn:Etc; simpl;
      (repeat (split; [done |]));
      (split; [right; by eexists |]);
      (split; [first [by eexists | by exists ""] |]);
      intros def' ext Hc Hl; eexists;
      rewrite ES', EC', Ets, Etc, (read_frame _ ext _ _ _ Efs);
      (split; [reflexivity |]); simpl; by rewrite ?Hc.
  - injection H as <-.
    destruct (ToBoolean classes) eqn:Etc; simpl;
      (repeat (split; [done |]));
      (split; [by left |]);
      (split; [first [by eexists | by exists ""] |]);
      intros def' ext Hc Hl; eexists;
      rewrite ES', EC', Ets, Etc;
      (split; [reflexivity |]); simpl; by rewrite ?Hc, ?Hl.
Qed.

Lemma umapM_listItem options : ∀ s r s',
  umapM listItem options s = (r, s') →
  s' = s
  ∧ (∀ e, r = Throw e → e = TypeError ∨ e = InvalidReference)
  ∧ (∀ items, r = Ok items →
       Forall2 (λ option item, listItem option s = (Ok item, s))
               options items).
Proof.
  induction options as [|o os IH]; intros s r s' H; simpl in H.
  - injection H as <- <-. split; [done |]. split; [done |].
    intros items [= <-]. constructor.
  - destruct (listItem o s) as [[item|e] s1] eqn:E.
    + pose proof (listItem_inv _ _ _ _ E) as (-> & _).
      rewrite (ubind_step _ _ _ _ _ E) in H.
      destruct (umapM listItem os s) as [[items|e] s2] eqn:E2.
      * destruct (IH _ _ _ E2) as (-> & _ & Hall).
        rewrite (ubind_step _ _ _ _ _ E2) in H. injection H as <- <-.
        split; [done |]. split; [done |].
        intros ? [= <-]. constructor; [done | by apply Hall].
      * destruct (IH _ _ _ E2) as (-> & Herr & _).
        rewrite (ubind_throw_step _ _ _ _ _ E2) in H. injection H as <- <-.
        split; [done |]. split; [| done]. intros ? [= <-]. by apply Herr.
    + pose proof (listItem_inv _ _ _ _ E) as (-> & Herr & _).
      rewrite (ubind_throw_step _ _ _ _ _ E) in H. injection H as <- <-.
      split; [done |]. split; [| done]. intros ? [= <-]. by apply Herr.
Qed.


(** X18.  [_prepareListOptions] never writes to the store and throws no
    configuration error.  When it returns, there is one item definition
    for each option, in order; each is a button of the [fontStyle] command
    with text, whose parameter is the option's model and whose label is the
    option's title; its class starts with 'ck-fontstyle-option'; its label
    style, when it has one, starts with 'font-style:'; and its [isOn]
    answers, for any value of the command, whether that value is strictly
    equal to the option's model. *)
Theorem prepared_items (options : list Value) (s : Store)
    (r : Outcome (list ListItem)) (s' : Store) :
  _prepareListOptions options s = (r, s') →
  s' = s
  ∧ (∀ e, r = Throw e → e = TypeError ∨ e = InvalidReference)
  ∧ (∀ items, r = Ok items →
       Forall2 (λ option item,
         item_type item = "button"
         ∧ commandName item = "fontStyle"
         ∧ withText item = true
         ∧ read (objects s) option "model" = Ok (commandParam item)
         ∧ readTitle s option = Ok (label item)
         ∧ (∃ rest, class item = "ck-fontstyle-option" +:+ rest)
         ∧ (labelStyle item = None
            ∨ ∃ rest, labelStyle item = Some ("font-style:" +:+ rest))
         ∧ ∀ value,
             isOn item value s
             = (Ok (strictEquals value (commandParam item)), s))
         options items).
Proof.
  intros H. apply umapM_listItem in H as (-> & Herr & Hall).
  split; [done |]. split; [exact Herr |].
  intros items Hr. eapply Forall2_impl; [by apply Hall |].
  intros option item Hitem. simpl in Hitem.
  apply listItem_inv in Hitem as (_ & _ & Hitem).
  destruct (Hitem item eq_refl) as (model & title & view & Hm & Ht & Hv & Hi).
  apply viewItem_Ok in Hi
    as (E1 & E2 & E3 & E4 & E5 & E6 & Hls & Hcl & _).
  simpl in *. rewrite E1, E2, E3, E4, E5, E6.
  repeat (split; [done |]).
  intros value. by rewrite (ubind_step _ _ _ _ _ (get_of_read _ _ _ _ Hm)).
Qed.


Section Labels.

Variable t : string → string.
Variable StringToNumber : string → JS.Number.


End Labels.

End Items.

(** ** From a configured element to its dropdown item *)

Section Dropdown.

Import JS Utils UI.

Variable t : string → string.
Variable StringToNumber : string → Number.

Lemma dropdownItems_one editor h o h1 c s2 item :
  normalizeOptions (config_options editor) h = (Ok [o], h1) →
  localizeOption t StringToNumber o (plainStore h1) = (Ok c, s2) →
  listItem c s2 = (Ok item, s2) →
  dropdownItems t StringToNumber editor h = (Ok [item], s2).
Proof.
  intros Hnorm Hloc Hitem.
  unfold dropdownItems, _getLocalizedOptions. rewrite Hnorm.
  simpl umapM. rewrite (ubind_step _ _ _ _ _ Hloc).
  unfold ubind at 1. unfold uret at 1 2.
  unfold _prepareListOptions. simpl umapM.
  by rewrite (ubind_step _ _ _ _ _ Hitem).
Qed.

Lemma primitive_option_run x h :
  typeof x = "number" ∨ typeof x = "string" →
  isNaN (parseFloat (ToString x)) = false →
  normalizeOptions [x] h
  = (Ok [VRef (length h)],
     pixelHeap (h ++ [shortDefinition x]) (length h) (shortDefinition x)).
Proof.
  intros Ht Hnum.
  assert (Hn : ToString x ∉ keywords).
  { intros Hin. apply keywords_not_numeric in Hin. congruence. }
  pose proof (reachesNumericStep_plain x h Ht Hn) as Hreach.
  assert (Hto : typeof x ≠ "object") by (destruct Ht as [-> | ->]; done).
  apply normalizeOptions_singleton with (v := VRef (length h)).
  rewrite (getOptionDefinition_numeric _ _ Hreach).
  rewrite (bind_step _ _ _ _ _ (isNumericalDefinition_primitive _ h Hto)).
  rewrite Hnum. by apply generatePixelPreset_short.
Qed.

(** X20.  A configuration of one number or one string that [parseFloat]
    reads gives a dropdown of one item, whatever the locale: its label is
    the element's text, its command parameter the number read followed by
    "px", its label style 'font-style:' followed by that parameter, and
    its class the plain 'ck-fontstyle-option'. *)
Theorem dropdown_item_of_size (editor : Editor) (x : Value) (h : Heap) :
  config_options editor = [x] →
  typeof x = "number" ∨ typeof x = "string" →
  isNaN (parseFloat (ToString x)) = false →
  let size := Number_toString (parseFloat (ToString x)) +:+ "px" in
  ∃ item s2,
    dropdownItems t StringToNumber editor h = (Ok [item], s2)
    ∧ label item = Own (VString (ToString x))
    ∧ commandParam item = VString size
    ∧ labelStyle item = Some ("font-style:" +:+ size)
    ∧ class item = "ck-fontstyle-option".
Proof.
  intros Hcfg Ht Hnum size.
  pose proof (primitive_option_run x h Ht Hnum) as Hnorm.
  set (h0 := h ++ [shortDefinition x]) in *.
  set (h1 := pixelHeap h0 (length h) (shortDefinition x)) in *.
  destruct (pixelHeap_lookups h0 (length h) (shortDefinition x)
              (lookup_new0 _ _ _)) as (Hopt & Hview & Hstyles).
  fold h1 in Hopt, Hview, Hstyles.
  assert (Htitle : (ToString x ∉ ownTitles)
                   ∧ (ToString x ∉ objectPrototypeKeys)).
  { assert (H : forallb (λ k, isNaN (parseFloat k))
                        (ownTitles ++ objectPrototypeKeys) = true)
      by (vm_compute; reflexivity).
    split; intros Hin;
      (assert (Hin' : In (ToString x) (ownTitles ++ objectPrototypeKeys))
         by (apply in_or_app; apply list_elem_of_In in Hin; auto));
      apply (proj1 (forallb_forall _ _) H) in Hin'; congruence. }
  assert (Hloc : localizeOption t StringToNumber (VRef (length h))
                   (plainStore h1)
                 = (Ok (VRef (length h)), plainStore h1)).
  { destruct (localizeOption_cases t StringToNumber _ _ h1 ∅ Hopt
                (lookup_empty _))
      as [[E _] | [(k & Hk & Hown & _) | (k & Hk & Hinh & _)]]; [done | |].
    - change (Some (VString (ToString x)) = Some (VString k)) in Hk.
      injection Hk as <-. by destruct (proj1 Htitle).
    - change (Some (VString (ToString x)) = Some (VString k)) in Hk.
      injection Hk as <-. by destruct (proj2 Htitle). }
  eexists. exists (plainStore h1). split.
  - rewrite <- Hcfg in Hnorm.
    apply (dropdownItems_one _ _ _ _ _ _ _ Hnorm Hloc).
    rewrite (listItem_view _ _ (VString size) (Own (VString (ToString x)))
               (VRef (S (length h0))));
      [| by rewrite (read_ref _ _ _ _ Hopt)
       | by rewrite (readTitle_plain (plainStore h1) _ _ Hopt
                       (lookup_empty _))
       | by rewrite (read_ref _ _ _ _ Hopt)].
    unfold viewItem. cbn [objects plainStore].
    rewrite !(read_ref _ _ _ _ Hview).
    change (default VUndefined
              (<["priority":=num 7]> (pixelView (VRef (length h0)))
                 !! "styles")) with (VRef (length h0)).
    change (default VUndefined
              (<["priority":=num 7]> (pixelView (VRef (length h0)))
                 !! "classes")) with VUndefined.
    cbn [ToBoolean].
    rewrite (read_ref _ _ _ _ Hstyles).
    reflexivity.
  - simpl. done.
Qed.

Lemma presetTable_titles key title classes :
  In (key, title, classes) presetTable →
  title ∈ ownTitles ∧ (title ∉ objectPrototypeKeys)
  ∧ title ≠ "" ∧ classes ≠ "" ∧ key ≠ "".
Proof.
  intros Hin. simpl in Hin.
  assert (H : forallb (λ k, negb (bool_decide (k ∈ objectPrototypeKeys)))
                      ownTitles = true) by (vm_compute; reflexivity).
  destruct Hin as [E | [E | [E | [E | []]]]]; injection E as <- <- <-;
    (split; [repeat (apply elem_of_cons; first [left; reflexivity | right])
            |]);
    (split; [| done]);
    intros Hi; apply list_elem_of_In in Hi; revert Hi;
    vm_compute; intuition discriminate.
Qed.

(** X21.  A configuration of one preset name gives a dropdown of one
    item: its command parameter is the name, its class is
    'ck-fontstyle-option' followed by a space and the preset's class, it
    has no label style, and its label is the translation of the preset's
    title, or the title itself when the translation is empty.  The option
    is copied exactly when the translation is not empty and differs from
    the title. *)
Theorem dropdown_item_of_preset (editor : Editor)
    (key title classes : string) (h : Heap) :
  In (key, title, classes) presetTable →
  config_options editor = [VString key] →
  ∃ item s2,
    dropdownItems t StringToNumber editor h = (Ok [item], s2)
    ∧ commandParam item = VString key
    ∧ label item
      = Own (VString (if String.eqb (t title) "" then title else t title))
    ∧ labelStyle item = None
    ∧ class item = "ck-fontstyle-option " +:+ classes
    ∧ length (objects s2)
      = (if String.eqb (t title) "" || String.eqb (t title) title
         then length h + 2 else length h + 3)%nat.
Proof.
  intros Htab Hcfg.
  destruct (presetTable_titles _ _ _ Htab) as (Hown & Hninh & Hti & Hcl & Hk).
  set (view := presetView classes).
  set (opt := presetOption title key (VRef (length h))).
  set (h1 := h ++ [view; opt]).
  assert (Hnorm : normalizeOptions (config_options editor) h
                  = (Ok [VRef (S (length h))], h1)).
  { rewrite Hcfg.
    rewrite (normalizeOptions_singleton _ _ _ _
               (getOptionDefinition_preset _ _ _ _
                  (namedPresets_table _ _ _ h Htab))).
    reflexivity. }
  assert (Hopt : h1 !! S (length h) = Some opt) by apply lookup_new1.
  assert (Hview : h1 !! length h = Some view) by apply lookup_new0.
  assert (Hclasses : ToBoolean (VString classes) = true)
    by (destruct classes; done).
  assert (Hitem : ∀ s l o ti ext,
            objects s = h1 ++ ext →
            (h1 ++ ext) !! l = Some o →
            memberTitles s !! l = None →
            o !! "model" = Some (VString key) →
            o !! "title" = Some ti →
            o !! "view" = Some (VRef (length h)) →
            listItem (VRef l) s
            = (Ok (set_class ("ck-fontstyle-option" +:+ " " +:+ classes)
                     (plainItem (VRef l) (VString key) (Own ti))), s)).
  { intros s l o ti ext Hobj Hl Hmt Hm Ht Hv.
    rewrite <- Hobj in Hl.
    rewrite (listItem_view _ _ (VString key) (Own ti) (VRef (length h)));
      [| rewrite (read_ref _ _ _ _ Hl); by rewrite Hm
       | rewrite (readTitle_plain _ _ _ Hl Hmt); by rewrite Ht
       | rewrite (read_ref _ _ _ _ Hl); by rewrite Hv].
    unfold viewItem. rewrite Hobj.
    rewrite !(read_ref _ _ _ _ (lookup_old _ ext _ _ Hview)).
    change (default VUndefined (view !! "styles")) with VUndefined.
    change (default VUndefined (view !! "classes")) with (VString classes).
    cbn [ToBoolean]. fold (ToBoolean (VString classes)).
    by rewrite Hclasses. }
  destruct (localizeOption_cases t StringToNumber _ _ h1 ∅ Hopt
              (lookup_empty _))
    as [[E Hkeep] | [(k & Hkt & _ & Hne & Hd & E) | (k & Hkt & Hinh & _)]].
  - destruct (Hkeep title eq_refl) as [_ Hsame].
    specialize (Hsame Hown).
    pose proof (Hitem (plainStore h1) (S (length h)) opt (VString title) [])
      as Hi.
    rewrite app_nil_r in Hi.
    specialize (Hi eq_refl Hopt (lookup_empty _) eq_refl eq_refl eq_refl).
    eexists. exists (plainStore h1).
    split; [exact (dropdownItems_one _ _ _ _ _ _ _ Hnorm E Hi) |].
    simpl.
    replace (String.eqb (t title) "" || String.eqb (t title) title)
      with true.
    + repeat split.
      * destruct Hsame as [E1 | E1]; rewrite E1; [done |].
        by destruct (String.eqb title "").
      * unfold h1. rewrite length_app. simpl. lia.
    + symmetry. apply orb_true_iff.
      destruct Hsame as [E1 | E1]; [left | right]; by apply String.eqb_eq.
  - change (Some (VString title) = Some (VString k)) in Hkt.
    injection Hkt as <-.
    set (c := <["title" := VString (t title)]> opt) in *.
    set (s2 := {| objects := h1 ++ [c];
                  memberTitles := delete (length h1) ∅ |}) in *.
    assert (Hmc : memberTitles s2 !! length h1 = None)
      by apply lookup_delete_eq.
    pose proof (Hitem s2 (length h1) c (VString (t title)) [c] eq_refl
                  (lookup_new0 _ _ _) Hmc eq_refl eq_refl eq_refl) as Hi.
    eexists. exists s2.
    split; [exact (dropdownItems_one _ _ _ _ _ _ _ Hnorm E Hi) |].
    simpl.
    apply String.eqb_neq in Hne, Hd. rewrite Hne, Hd. simpl.
    repeat split. unfold h1. rewrite !length_app. simpl. lia.
  - change (Some (VString title) = Some (VString k)) in Hkt.
    injection Hkt as <-. done.
Qed.

(** X22.  A configuration of the string 'default' alone gives a dropdown
    of one item with the plain class and no label style, whose command
    parameter is undefined, whose label is the translation of 'Default'
    (or 'Default' when the translation is empty), and whose [isOn]
    answers true exactly when the command has no value (undefined). *)
Theorem dropdown_item_of_default (editor : Editor) (h : Heap) :
  config_options editor = [VString "default"] →
  ∃ item s2,
    dropdownItems t StringToNumber editor h = (Ok [item], s2)
    ∧ commandParam item = VUndefined
    ∧ label item
      = Own (VString (if String.eqb (t "Default") "" then "Default"
                      else t "Default"))
    ∧ labelStyle item = None
    ∧ class item = "ck-fontstyle-option"
    ∧ ∀ value,
        isOn item value s2
        = (Ok (match value with VUndefined => true | _ => false end), s2).
Proof.
  intros Hcfg.
  set (h1 := h ++ [defaultOption]).
  assert (Hnorm : normalizeOptions (config_options editor) h
                  = (Ok [VRef (length h)], h1)).
  { rewrite Hcfg.
    by rewrite (normalizeOptions_singleton _ _ (VRef (length h)) h1). }
  assert (Hopt : h1 !! length h = Some defaultOption) by apply lookup_new0.
  assert (Hown : "Default" ∈ ownTitles) by (apply elem_of_cons; by left).
  assert (Hitem : ∀ s l o ti,
            objects s !! l = Some o →
            memberTitles s !! l = None →
            o !! "model" = Some VUndefined →
            o !! "title" = Some ti →
            o !! "view" = None →
            listItem (VRef l) s
            = (Ok (plainItem (VRef l) VUndefined (Own ti)), s)
            ∧ ∀ value,
                isOn (plainItem (VRef l) VUndefined (Own ti)) value s
                = (Ok (match value with VUndefined => true | _ => false end),
                   s)).
  { intros s l o ti Hl Hmt Hm Ht Hv. split.
    - rewrite (listItem_view _ _ VUndefined (Own ti) VUndefined);
        [reflexivity
        | rewrite (read_ref _ _ _ _ Hl); by rewrite Hm
        | rewrite (readTitle_plain _ _ _ Hl Hmt); by rewrite Ht
        | rewrite (read_ref _ _ _ _ Hl); by rewrite Hv].
    - intros value. simpl.
      assert (Hm0 : read (objects s) (VRef l) "model" = Ok VUndefined)
        by (rewrite (read_ref _ _ _ _ Hl); by rewrite Hm).
      rewrite (ubind_step _ _ _ _ _ (get_of_read _ _ _ _ Hm0)).
      by destruct value. }
  destruct (localizeOption_cases t StringToNumber _ _ h1 ∅ Hopt
              (lookup_empty _))
    as [[E Hkeep] | [(k & Hkt & _ & Hne & Hd & E) | (k & Hkt & Hinh & _)]].
  - destruct (Hkeep "Default" eq_refl) as [_ Hsame].
    specialize (Hsame Hown).
    destruct (Hitem (plainStore h1) (length h) defaultOption
                (VString "Default") Hopt (lookup_empty _)
                eq_refl eq_refl eq_refl) as [Hrun Hon].
    eexists. exists (plainStore h1).
    split; [exact (dropdownItems_one _ _ _ _ _ _ _ Hnorm E Hrun) |].
    simpl. repeat split; [| exact Hon].
    destruct Hsame as [E1 | E1]; rewrite E1; done.
  - change (Some (VString "Default") = Some (VString k)) in Hkt.
    injection Hkt as <-.
    set (c := <["title" := VString (t "Default")]> defaultOption) in *.
    set (s2 := {| objects := h1 ++ [c];
                  memberTitles := delete (length h1) ∅ |}) in *.
    assert (Hmc : memberTitles s2 !! length h1 = None)
      by apply lookup_delete_eq.
    destruct (Hitem s2 (length h1) c (VString (t "Default"))
                (lookup_new0 _ _ _) Hmc eq_refl eq_refl eq_refl)
      as [Hrun Hon].
    eexists. exists s2.
    split; [exact (dropdownItems_one _ _ _ _ _ _ _ Hnorm E Hrun) |].
    simpl. apply String.eqb_neq in Hne. rewrite Hne.
    repeat split. exact Hon.
  - change (Some (VString "Default") = Some (VString k)) in Hkt.
    injection Hkt as <-.
    pose proof (localizedTitles_inherited t _ Hinh) as Hi.
    rewrite (localizedTitles_own t _ Hown) in Hi. discriminate Hi.
Qed.

End Dropdown.

(** ** Configurations of plain elements *)

Section PlainConfigurations.

Import JS Utils Editing.

Variables isLength isPercentage : string → bool.

Lemma plainElement_option x h :
  plainElement x →
  ∃ l h', normalizeOptions [x] h = (Ok [VRef l], h').
Proof.
  intros [(key & title & classes & Htab & ->) | [-> | [Ht Hnum]]].
  - eexists _, _.
    apply (normalizeOptions_singleton _ _ (VRef (S (length h)))).
    apply getOptionDefinition_preset. by apply namedPresets_table.
  - exists (length h), (h ++ [defaultOption]).
    by apply (normalizeOptions_singleton _ _ (VRef (length h))).
  - eexists _, _. by apply primitive_option_run.
Qed.

Lemma plain_configuration xs : ∀ h,
  Forall plainElement xs →
  ∃ normalized h',
    normalizeOptions xs h = (Ok normalized, h')
    ∧ length normalized = length xs.
Proof.
  induction xs as [|x xs IH]; intros h Hall.
  - by exists [], h.
  - apply Forall_cons in Hall as [Hx Hall].
    destruct (plainElement_option x h Hx) as (l & h1 & E1).
    destruct (IH h1 Hall) as (outs & h2 & E2 & Hlen).
    exists (VRef l :: outs), h2. split; [| simpl; by rewrite Hlen].
    change (x :: xs) with ([x] ++ xs).
    rewrite normalizeOptions_concat.
    rewrite (bind_step _ _ _ _ _ E1).
    by rewrite (bind_step _ _ _ _ _ E2).
Qed.

(** X23.  A configuration made only of preset names, ['default'], and
    numbers and strings that [parseFloat] reads always normalises, to one
    option for each element, and [init] in strict mode returns for it,
    whatever the store and the host's predicates. *)
Theorem plain_configuration_initialises (options : list Value) (h : Heap) :
  Forall plainElement options →
  ∃ normalized h' editor,
    normalizeOptions options h = (Ok normalized, h')
    ∧ length normalized = length options
    ∧ init isLength isPercentage (newEditor options false) h
      = (Ok editor, h').
Proof.
  intros Hall.
  destruct (plain_configuration options h Hall)
    as (normalized & h' & Hnorm & Hlen).
  exists normalized, h'. eexists. split; [exact Hnorm |].
  split; [exact Hlen |].
  by rewrite (init_run _ _ _ _ _ _ _ Hnorm).
Qed.

End PlainConfigurations.

(** * Worked examples of the further properties *)

Lemma isOk_outcome {A S} (d : A) (r : Outcome A * S) :
  isOk r.1 = true → r = (Ok (valueOf d r.1), r.2).
Proof. destruct r as [[a|e] s]; [done | discriminate]. Qed.



Lemma normalized_options_origin_witness :
  let h : Heap :=
    [ {[ "name" := VString "span"; "classes" := VString "text-wide" ]};
      {[ "title" := VString "Wide"; "model" := VString "wide";
         "view" := VRef 0 ]} ] in
  let configuredOptions :=
    [VRef 1; VString "tiny"; num 12; VString "abc"] in
  let run := Utils.normalizeOptions configuredOptions h in
  let options := valueOf [] run.1 in
  let h' := run.2 in
  run = (Ok options, h')
  ∧ (length options <= length configuredOptions)%nat
  ∧ (length h <= length h')%nat
  ∧ Forall (λ option,
      ∃ l, option = VRef l ∧ (l < length h')%nat
           ∧ (In option configuredOptions ∨ (length h <= l)%nat)) options.
Proof.
  intros h configuredOptions run options h'.
  assert (E : run = (Ok options, h'))
    by (apply isOk_run; vm_compute; reflexivity).
  split; [exact E |].
  exact (normalized_options_origin configuredOptions h options h' E).
Defined.

Lemma normalizeOptions_frame_witness :
  let h : Heap :=
    [ {[ "name" := VString "span"; "classes" := VString "text-wide" ]};
      {[ "title" := VString "Wide"; "model" := VString "wide";
         "view" := VRef 0 ]};
      {[ "title" := VString "Custom"; "model" := VString "14px" ]} ] in
  let configuredOptions := [VRef 1; VString "tiny"; VRef 2] in
  let run := Utils.normalizeOptions configuredOptions h in
  let options := valueOf [] run.1 in
  let h' := run.2 in
  run = (Ok options, h')
  ∧ (∀ l o, h !! l = Some o →
       ∃ o', h' !! l = Some o'
         ∧ (∀ k, k ≠ "view" → k ≠ "priority" → o' !! k = o !! k)
         ∧ (o' !! "priority" = o !! "priority"
            ∨ o' !! "priority" = Some (num 7))
         ∧ (o' !! "view" = o !! "view"
            ∨ ∃ lv vo, o' !! "view" = Some (VRef lv)
                       ∧ (length h <= lv)%nat
                       ∧ h' !! lv = Some vo
                       ∧ vo !! "priority" = Some (num 7)))
  ∧ (∀ l o', h' !! l = Some o' → (length h <= l)%nat →
       o' !! "priority" = None ∨ o' !! "priority" = Some (num 7)).
Proof.
  intros h configuredOptions run options h'.
  assert (E : run = (Ok options, h'))
    by (apply isOk_run; vm_compute; reflexivity).
  split; [exact E |].
  exact (normalizeOptions_frame configuredOptions h options h' E).
Defined.

Lemma full_definitions_pass_through_witness :
  let h : Heap :=
    [ {[ "name" := VString "span"; "classes" := VString "text-wide" ]};
      {[ "title" := VString "Wide"; "model" := VString "wide";
         "view" := VRef 0 ]} ] in
  Forall (fullDefinition h) [VRef 1]
  ∧ ∃ h',
      Utils.normalizeOptions [VRef 1] h = (Ok [VRef 1], h')
      ∧ length h' = length h
      ∧ Utils.normalizeOptions [VRef 1] h' = (Ok [VRef 1], h').
Proof.
  intros h.
  assert (Hfull : Forall (fullDefinition h) [VRef 1]).
  { constructor; [| constructor].
    exists 1%nat,
      {[ "title" := VString "Wide"; "model" := VString "wide";
         "view" := VRef 0 ]}, 0%nat,
      {[ "name" := VString "span"; "classes" := VString "text-wide" ]}.
    repeat split; vm_compute; reflexivity. }
  split; [exact Hfull |].
  destruct (full_definitions_pass_through [VRef 1] h Hfull)
    as (h' & E & Hlen & _ & E').
  exists h'. repeat split; assumption.
Defined.

Lemma normalizeOptions_type_errors_witness :
  let h : Heap :=
    [ {[ "model" := VString "valueOf" ]};
      {[ "title" := VString "Wide"; "model" := VString "wide";
         "view" := VString "span" ]} ] in
  In "toString" Utils.objectPrototypeKeys
  ∧ Utils.normalizeOptions [VString "toString"; num 12] h
    = (Throw TypeError, h)
  ∧ Utils.normalizeOptions [VRef 0] h = (Throw TypeError, h)
  ∧ Utils.normalizeOptions [VRef 1] h = (Throw TypeError, h).
Proof.
  intros h.
  assert (Hin : In "toString" Utils.objectPrototypeKeys)
    by (vm_compute; tauto).
  assert (Hin' : In "valueOf" Utils.objectPrototypeKeys)
    by (vm_compute; tauto).
  destruct (normalizeOptions_type_errors [num 12] h) as (_ & _ & Hkey & _).
  destruct (normalizeOptions_type_errors [] h) as (_ & _ & _ & Hobj & Hview).
  split; [exact Hin |].
  split; [exact (Hkey "toString" Hin) |].
  split.
  - apply (Hobj "valueOf" 0%nat {[ "model" := VString "valueOf" ]}
             VUndefined Hin').
    + reflexivity.
    + vm_compute; reflexivity.
    + vm_compute; reflexivity.
    + reflexivity.
  - apply (Hview 1%nat
             {[ "title" := VString "Wide"; "model" := VString "wide";
                "view" := VString "span" ]} (VString "span")).
    + reflexivity.
    + vm_compute; reflexivity.
    + vm_compute; reflexivity.
    + vm_compute; reflexivity.
    + reflexivity.
    + intros lv. discriminate.
Defined.

Lemma numeric_step_outcome_witness :
  let h : Heap := [ {[ "model" := VString "12px" ]} ] in
  reachesNumericStep (VRef 0) h
  ∧ ToBoolean (modelAt h (VRef 0)) = true
  ∧ ∃ l h', Utils.normalizeOptions [VRef 0] h = (Ok [VRef l], h').
Proof.
  intros h.
  assert (Hreach : reachesNumericStep (VRef 0) h).
  { split; [| split; [| reflexivity]].
    - exists VUndefined. split; vm_compute; reflexivity.
    - exists (Utils.Own VUndefined). split; vm_compute; reflexivity. }
  assert (Hmodel : ToBoolean (modelAt h (VRef 0)) = true)
    by (vm_compute; reflexivity).
  split; [exact Hreach |]. split; [exact Hmodel |].
  destruct (numeric_step_outcome (VRef 0) h Hreach (λ _, Hmodel))
    as (_ & Hnum & _).
  destruct (Hnum ltac:(vm_compute; reflexivity)) as (l & h' & _ & E).
  exists l, h'. exact E.
Defined.

Lemma legacy_decoder_total_witness :
  let e := Editing.fontElement "+5" in
  getAttribute e "style" = Some "+5"
  ∧ JS.parseInt "+5" = Some 5
  ∧ Editing.legacyValue e = Ok (VString "xxx-large").
Proof.
  intros e.
  assert (Ha : getAttribute e "style" = Some "+5")
    by (vm_compute; reflexivity).
  assert (Hn : JS.parseInt "+5" = Some 5) by (vm_compute; reflexivity).
  split; [exact Ha |]. split; [exact Hn |].
  destruct (proj2 (proj2 (legacy_decoder_total e)) "+5" 5 Ha Hn)
    as (keyword & E & _ & _ & Hhigh & _).
  rewrite E, (Hhigh ltac:(vm_compute; discriminate)). reflexivity.
Defined.

Lemma init_effects_witness :
  let run :=
    Editing.init Editing.sampleIsLength Editing.sampleIsPercentage
      (Editing.newEditor [VString "12px"; VString "1.5em"] true) [] in
  let editor := valueOf (Editing.newEditor [] false) run.1 in
  run = (Ok editor, run.2)
  ∧ commands editor = [ (Editing.FONT_STYLE, Editing.FONT_STYLE) ]
  ∧ length (conversion editor) = 3%nat.
Proof.
  intros run editor.
  assert (E : run = (Ok editor, run.2))
    by (apply isOk_run; vm_compute; reflexivity).
  split; [exact E |].
  destruct (init_effects Editing.sampleIsLength Editing.sampleIsPercentage
              [VString "12px"; VString "1.5em"] true [] editor run.2 E)
    as (_ & _ & _ & Hc & Hl & _).
  split; [exact Hc | exact Hl].
Defined.


Lemma string_elements_witness :
  ∃ h', Utils.normalizeOptions [VString "1.5em"] [] = (Ok [VRef 0], h')
        ∧ getProp (VRef 0) "model" h' = (Ok (VString "1.5px"), h')
        ∧ getProp (VRef 0) "title" h' = (Ok (VString "1.5em"), h').
Proof.
  destruct (proj1 (string_elements "1.5em" [])
              ltac:(vm_compute; reflexivity)) as (h' & E & Hm & Ht & _).
  exists h'. split; [exact E |]. split; [exact Hm | exact Ht].
Defined.

Lemma number_elements_witness :
  ∃ h', Utils.normalizeOptions [num 12] [] = (Ok [VRef 0], h')
        ∧ getProp (VRef 0) "model" h' = (Ok (VString "12px"), h')
        ∧ getProp (VRef 0) "title" h' = (Ok (VString "12"), h').
Proof.
  destruct (proj1 (number_elements (JS.ofZ 12) [])
              ltac:(vm_compute; reflexivity)) as (h' & E & Hm & Ht & _).
  exists h'. split; [exact E |]. split; [exact Hm | exact Ht].
Defined.

Lemma localized_options_witness :
  let h : Heap :=
    [ {[ "name" := VString "span"; "classes" := VString "text-wide" ]};
      {[ "title" := VString "toString"; "model" := VString "wide";
         "view" := VRef 0 ]} ] in
  let editor := Editing.newEditor [VRef 1; VString "tiny"; num 12] false in
  let run := UI._getLocalizedOptions sampleT sampleStringToNumber editor h in
  let localized := valueOf [] run.1 in
  run = (Ok localized, run.2)
  ∧ localized = [VRef 7; VRef 8; VRef 4]
  ∧ UI.memberTitles run.2 !! 7%nat = Some "toString"
  ∧ ∃ normalized h1 clones,
      Utils.normalizeOptions (config_options editor) h
        = (Ok normalized, h1)
      ∧ UI.objects run.2 = h1 ++ clones
      ∧ (∀ l, (l < length h1)%nat → UI.memberTitles run.2 !! l = None)
      ∧ Forall2 (localizedFrom sampleT h1 run.2) normalized localized.
Proof.
  intros h editor run localized.
  assert (E : run = (Ok localized, run.2))
    by (apply isOk_outcome; vm_compute; reflexivity).
  split; [exact E |].
  split; [vm_compute; reflexivity |].
  split; [vm_compute; reflexivity |].
  exact (localized_options sampleT sampleStringToNumber editor h localized
           run.2 E).
Defined.



Lemma prepared_items_witness :
  let option := Utils.presetOption "Tiny" "tiny" (VRef 0) in
  let s : UI.Store :=
    {| UI.objects := [ Utils.presetView "text-tiny"; option;
                       delete "title" option ];
       UI.memberTitles := {[ 2%nat := "toString" ]} |} in
  let run := UI._prepareListOptions [VRef 1; VRef 2] s in
  let items := valueOf [] run.1 in
  run = (Ok items, run.2)
  ∧ run.2 = s
  ∧ Forall2 (λ option item,
      UI.commandName item = "fontStyle"
      ∧ read (UI.objects s) option "model" = Ok (UI.commandParam item)
      ∧ readTitle s option = Ok (UI.label item)) [VRef 1; VRef 2] items
  ∧ UI.label <$> items
    = [Utils.Own (VString "Tiny"); Utils.Inherited "toString"].
Proof.
  intros option s run items.
  assert (E : run = (Ok items, run.2))
    by (apply isOk_outcome; vm_compute; reflexivity).
  split; [exact E |].
  destruct (prepared_items [VRef 1; VRef 2] s (Ok items) run.2 E)
    as (Hs & _ & Hall).
  split; [exact Hs |]. split; [| vm_compute; reflexivity].
  eapply Forall2_impl; [exact (Hall items eq_refl) |].
  intros o item (_ & Hc & _ & Hm & Ht & _). repeat split; assumption.
Defined.


Lemma dropdown_item_of_size_witness :
  let editor := Editing.newEditor [VString "12.5"] false in
  let size := JS.Number_toString (JS.parseFloat "12.5") +:+ "px" in
  size = "12.5px"
  ∧ ∃ item s2,
      UI.dropdownItems sampleT sampleStringToNumber editor []
        = (Ok [item], s2)
      ∧ UI.label item = Utils.Own (VString "12.5")
      ∧ UI.commandParam item = VString size
      ∧ UI.labelStyle item = Some ("font-style:" +:+ size)
      ∧ UI.class item = "ck-fontstyle-option".
Proof.
  intros editor size.
  split; [vm_compute; reflexivity |].
  apply (dropdown_item_of_size sampleT sampleStringToNumber editor
           (VString "12.5") []).
  - reflexivity.
  - right; reflexivity.
  - vm_compute; reflexivity.
Defined.

Lemma dropdown_item_of_preset_witness :
  let editor := Editing.newEditor [VString "tiny"] false in
  ∃ item s2,
    UI.dropdownItems sampleT sampleStringToNumber editor []
      = (Ok [item], s2)
    ∧ UI.commandParam item = VString "tiny"
    ∧ UI.label item = Utils.Own (VString "Sehr klein")
    ∧ UI.labelStyle item = None
    ∧ UI.class item = "ck-fontstyle-option text-tiny"
    ∧ length (UI.objects s2) = 3%nat.
Proof.
  intros editor.
  apply (dropdown_item_of_preset sampleT sampleStringToNumber editor
           "tiny" "Tiny" "text-tiny" []).
  - left; reflexivity.
  - reflexivity.
Defined.

Lemma dropdown_item_of_default_witness :
  let editor := Editing.newEditor [VString "default"] false in
  ∃ item s2,
    UI.dropdownItems sampleT sampleStringToNumber editor []
      = (Ok [item], s2)
    ∧ UI.commandParam item = VUndefined
    ∧ UI.label item = Utils.Own (VString "Standard")
    ∧ UI.labelStyle item = None
    ∧ UI.class item = "ck-fontstyle-option"
    ∧ ∀ value,
        UI.isOn item value s2
        = (Ok (match value with VUndefined => true | _ => false end), s2).
Proof.
  intros editor.
  apply (dropdown_item_of_default sampleT sampleStringToNumber editor []).
  reflexivity.
Defined.

Lemma plain_configuration_initialises_witness :
  let options := Editing.defaultOptions ++ [num 12; VString "1.5em"] in
  Forall plainElement options
  ∧ ∃ normalized h' editor,
      Utils.normalizeOptions options [] = (Ok normalized, h')
      ∧ length normalized = length options
      ∧ Editing.init Editing.sampleIsLength Editing.sampleIsPercentage
          (Editing.newEditor options false) []
        = (Ok editor, h').
Proof.
  intros options.
  assert (Hpreset : ∀ key title classes,
            In (key, title, classes) presetTable →
            plainElement (VString key)).
  { intros key title classes Hin. left. by exists key, title, classes. }
  assert (Hall : Forall plainElement options).
  { repeat apply Forall_cons_2; [| | | | | | | apply Forall_nil_2].
    - apply (Hpreset "tiny" "Tiny" "text-tiny"). left; reflexivity.
    - apply (Hpreset "small" "Small" "text-small").
      right; left; reflexivity.
    - right; left; reflexivity.
    - apply (Hpreset "big" "Big" "text-big").
      right; right; left; reflexivity.
    - apply (Hpreset "huge" "Huge" "text-huge").
      right; right; right; left; reflexivity.
    - right; right. split; [left; reflexivity | vm_compute; reflexivity].
    - right; right. split; [right; reflexivity | vm_compute; reflexivity]. }
  split; [exact Hall |].
  exact (plain_configuration_initialises Editing.sampleIsLength
           Editing.sampleIsPercentage options [] Hall).
Defined.

